(** * Tank RTC SDK: the video-frame envelope, the frame cache and the legs

    A shallow embedding of [src/index.js] (class [TankRTC]).  Byte buffers
    are lists of [byte]; JavaScript numbers that hold lengths, offsets,
    identifiers and timestamps are integers ([Z]); the object's fields are
    a record that every method threads explicitly, together with the trace
    of calls it makes to the browser and to the registered callbacks. *)

From Stdlib Require Import ZArith List Bool Lia QArith.
From Stdlib Require Import Init.Byte Strings.Byte.
From Stdlib Require Import Floats Uint63.
Import ListNotations.
Close Scope Q_scope.
Local Open Scope Z_scope.

(** ** Bytes, [ArrayBuffer] and [DataView] *)

Module Bytes.

Definition byte_to_Z (b : byte) : Z := Z.of_N (Byte.to_N b).

(** Storing a number into a [Uint8Array] cell keeps it modulo 256. *)
Definition byte_of_Z (z : Z) : byte :=
  match Byte.of_N (Z.to_N (z mod 256)) with
  | Some b => b
  | None => x00
  end.

Definition byteLength (data : list byte) : Z := Z.of_nat (length data).

(** Big-endian value of a run of bytes, most significant first. *)
Fixpoint be_value (acc : Z) (bs : list byte) : Z :=
  match bs with
  | [] => acc
  | b :: rest => be_value (acc * 256 + byte_to_Z b) rest
  end.

(** The [n] big-endian bytes of [v]; bits above [8 * n] are dropped, as
    [setUint32] and [setBigUint64] do. *)
Fixpoint be_bytes (n : nat) (v : Z) : list byte :=
  match n with
  | O => []
  | S k => byte_of_Z (Z.shiftr v (8 * Z.of_nat k)) :: be_bytes k v
  end.

(** [DataView.prototype.getUint32(byteOffset, false)] and
    [getBigUint64(byteOffset, false)]: [None] stands for the [RangeError]
    thrown when the read does not fit in the buffer. *)
Definition getUint (n : nat) (data : list byte) (byteOffset : Z) : option Z :=
  if (0 <=? byteOffset) && (byteOffset + Z.of_nat n <=? byteLength data)
  then Some (be_value 0 (firstn n (skipn (Z.to_nat byteOffset) data)))
  else None.

Definition getUint32 : list byte -> Z -> option Z := getUint 4.
Definition getBigUint64 : list byte -> Z -> option Z := getUint 8.

(** Writing [bs] into a buffer at [byteOffset] ([DataView] setters and
    [Uint8Array.prototype.set] on a view that starts at [byteOffset]). *)
Definition write_at (byteOffset : Z) (bs buf : list byte) : list byte :=
  firstn (Z.to_nat byteOffset) buf ++ bs
    ++ skipn (Z.to_nat byteOffset + length bs) buf.

Definition setUint32 (byteOffset v : Z) (buf : list byte) : list byte :=
  write_at byteOffset (be_bytes 4 v) buf.
Definition setBigUint64 (byteOffset v : Z) (buf : list byte) : list byte :=
  write_at byteOffset (be_bytes 8 v) buf.

(** [new ArrayBuffer(n)]: [n] zero bytes. *)
Definition newArrayBuffer (n : Z) : list byte := repeat x00 (Z.to_nat n).

(** [ArrayBuffer.prototype.slice(begin, end)]: both bounds are clamped to
    the buffer, negative ones count from its end. *)
Definition clampIndex (len i : Z) : Z :=
  if i <? 0 then Z.max (len + i) 0 else Z.min i len.

Definition slice (data : list byte) (first final : Z) : list byte :=
  let len := byteLength data in
  let first' := clampIndex len first in
  let final' := clampIndex len final in
  firstn (Z.to_nat (Z.max (final' - first') 0)) (skipn (Z.to_nat first') data).

(** [slice(begin)] with the end left out. *)
Definition slice_from (data : list byte) (first : Z) : list byte :=
  slice data first (byteLength data).

(** A typed-array read [bytes[i]]: [None] is JavaScript's [undefined],
    which is what an index outside the array yields. *)
Definition index (data : list byte) (i : Z) : option Z :=
  if (0 <=? i) && (i <? byteLength data)
  then option_map byte_to_Z (nth_error data (Z.to_nat i))
  else None.

End Bytes.

(** ** Text: [TextEncoder], [TextDecoder] and [String.prototype.trim] *)

Module Text.
Import Bytes.

(** A string is the list of its code points.  A lone surrogate of the
    UTF-16 string is a code point in [0xD800..0xDFFF]. *)
Definition JSString : Type := list Z.

Definition is_surrogate (c : Z) : bool := (0xD800 <=? c) && (c <=? 0xDFFF).
Definition is_scalar (c : Z) : bool :=
  (0 <=? c) && (c <=? 0x10FFFF) && negb (is_surrogate c).

(** UTF-8 encoder of the Encoding Standard.  The shifts and masks of the
    standard are written as quotients and remainders by powers of two. *)
Definition utf8_encode_cp (c : Z) : list byte :=
  if c <? 0x80 then [byte_of_Z c]
  else if c <? 0x800 then
    [byte_of_Z (0xC0 + c / 64); byte_of_Z (0x80 + c mod 64)]
  else if c <? 0x10000 then
    [byte_of_Z (0xE0 + c / 4096); byte_of_Z (0x80 + (c / 64) mod 64);
     byte_of_Z (0x80 + c mod 64)]
  else
    [byte_of_Z (0xF0 + c / 262144); byte_of_Z (0x80 + (c / 4096) mod 64);
     byte_of_Z (0x80 + (c / 64) mod 64); byte_of_Z (0x80 + c mod 64)].

(** [new TextEncoder().encode(s)]: lone surrogates become U+FFFD. *)
Definition TextEncoder_encode (s : JSString) : list byte :=
  flat_map (fun c => utf8_encode_cp (if is_scalar c then c else 0xFFFD)) s.

(** UTF-8 decoder of the Encoding Standard, replacement error mode. *)
Record Utf8State : Type := mkUtf8State {
  u_cp : Z; u_seen : Z; u_needed : Z; u_lower : Z; u_upper : Z }.

Definition utf8_init : Utf8State := mkUtf8State 0 0 0 0x80 0xBF.

Definition utf8_lead (b : Z) : list Z * Utf8State :=
  if b <=? 0x7F then ([b], utf8_init)
  else if (0xC2 <=? b) && (b <=? 0xDF) then
    ([], mkUtf8State (b mod 32) 0 1 0x80 0xBF)
  else if (0xE0 <=? b) && (b <=? 0xEF) then
    ([], mkUtf8State (b mod 16) 0 2
           (if b =? 0xE0 then 0xA0 else 0x80)
           (if b =? 0xED then 0x9F else 0xBF))
  else if (0xF0 <=? b) && (b <=? 0xF4) then
    ([], mkUtf8State (b mod 8) 0 3
           (if b =? 0xF0 then 0x90 else 0x80)
           (if b =? 0xF4 then 0x8F else 0xBF))
  else ([0xFFFD], utf8_init).

Definition utf8_step (st : Utf8State) (b : Z) : list Z * Utf8State :=
  if u_needed st =? 0 then utf8_lead b
  else if negb ((u_lower st <=? b) && (b <=? u_upper st)) then
    (* error; the byte is put back and read again from the initial state *)
    let (out, st') := utf8_lead b in (0xFFFD :: out, st')
  else
    let cp := u_cp st * 64 + b mod 64 in
    if u_seen st + 1 =? u_needed st then ([cp], utf8_init)
    else ([], mkUtf8State cp (u_seen st + 1) (u_needed st) 0x80 0xBF).

Fixpoint utf8_decode_from (st : Utf8State) (bs : list byte) : JSString :=
  match bs with
  | [] => if u_needed st =? 0 then [] else [0xFFFD]
  | b :: rest =>
      let (out, st') := utf8_step st (byte_to_Z b) in
      out ++ utf8_decode_from st' rest
  end.

(** [new TextDecoder().decode(bytes)]: UTF-8, not fatal, and (ignoreBOM
    being false) a leading U+FEFF of the output is dropped. *)
Definition TextDecoder_decode (bs : list byte) : JSString :=
  match utf8_decode_from utf8_init bs with
  | 0xFEFF :: rest => rest
  | s => s
  end.

(** White space and line terminators of ECMAScript, as [trim] strips them. *)
Definition isWhiteSpace (c : Z) : bool :=
  existsb (Z.eqb c)
    [0x9; 0xA; 0xB; 0xC; 0xD; 0x20; 0xA0; 0x1680; 0x2028; 0x2029; 0x202F;
     0x205F; 0x3000; 0xFEFF]
  || ((0x2000 <=? c) && (c <=? 0x200A)).

Fixpoint trimStart (s : JSString) : JSString :=
  match s with
  | [] => []
  | c :: rest => if isWhiteSpace c then trimStart rest else s
  end.

Definition trim (s : JSString) : JSString := rev (trimStart (rev (trimStart s))).

Definition string_eq_dec : forall a b : JSString, {a = b} + {a <> b} :=
  list_eq_dec Z.eq_dec.

(** The strings that [TextEncoder] and [TextDecoder] carry unchanged: no
    lone surrogate, and no U+FEFF in front. *)
Definition startsWithBOM (s : JSString) : bool :=
  match s with
  | c :: _ => c =? 0xFEFF
  | [] => false
  end.

Definition isWellFormed (s : JSString) : bool :=
  forallb is_scalar s && negb (startsWithBOM s).

End Text.

(** ** The JPEG dimension scanner ([getJPEGDimensions]) *)

Module Jpeg.
Import Bytes.

(** How an indexed read [data[i]] behaves.  [Value None] is [undefined]. *)
Inductive Read : Type :=
| Value (v : option Z)
| OutOfRange (i : Z).

Definition ReadMode : Type := list byte -> Z -> Read.

(** JavaScript: an index outside the array reads [undefined], no error. *)
Definition js_read : ReadMode := fun data i => Value (index data i).

(** The total reading in which an index outside the array is an error. *)
Definition checked_read : ReadMode := fun data i =>
  match index data i with
  | Some v => Value (Some v)
  | None => OutOfRange i
  end.

(** [x === n], [x !== n], [x >= n], [x <= n] and [(hi << 8) | lo] on a
    value that may be [undefined] ([undefined] compares false and counts
    as 0 in bit operations). *)
Definition strict_eq (x : option Z) (n : Z) : bool :=
  match x with Some v => v =? n | None => false end.
Definition strict_ne (x : option Z) (n : Z) : bool := negb (strict_eq x n).
Definition js_ge (x : option Z) (n : Z) : bool :=
  match x with Some v => n <=? v | None => false end.
Definition js_le (x : option Z) (n : Z) : bool :=
  match x with Some v => v <=? n | None => false end.
Definition toInt (x : option Z) : Z :=
  match x with Some v => v | None => 0 end.
Definition shl8_or (hi lo : option Z) : Z :=
  Z.lor (Z.shiftl (toInt hi) 8) (toInt lo).

(** A reading yields bytes: both [js_read] and [checked_read] do. *)
Definition yieldsBytes (read : ReadMode) : Prop :=
  forall data i v, read data i = Value (Some v) -> 0 <= v < 256.

Inductive Scan : Type :=
| Found (width height : Z)     (* return { width, height } *)
| NotFound                     (* return null *)
| BadIndex (i : Z)             (* a read outside the array, in [checked_read] *)
| OutOfFuel.

Definition read_then (r : Read) (k : option Z -> Scan) : Scan :=
  match r with
  | Value v => k v
  | OutOfRange i => BadIndex i
  end.

(** The [while (offset < data.byteLength - 1)] loop.  Every turn moves
    [offset] forward, so the loop ends within as many turns as the data
    has bytes; [OutOfFuel] is never the result ([scan_fuel] below). *)
Fixpoint scan (read : ReadMode) (fuel : nat) (data : list byte) (offset : Z)
  : Scan :=
  match fuel with
  | O => OutOfFuel
  | S fuel' =>
    if offset <? byteLength data - 1 then
      read_then (read data offset) (fun b0 =>
      if strict_eq b0 0xFF then
        read_then (read data (offset + 1)) (fun b1 =>
        if strict_ne b1 0x00 then
          let marker := b1 in
          if js_ge marker 0xC0 && js_le marker 0xC3
             && (offset + 9 <? byteLength data) then
            read_then (read data (offset + 5)) (fun h1 =>
            read_then (read data (offset + 6)) (fun h0 =>
            read_then (read data (offset + 7)) (fun w1 =>
            read_then (read data (offset + 8)) (fun w0 =>
            Found (shl8_or w1 w0) (shl8_or h1 h0)))))
          else if offset + 2 <? byteLength data then
            read_then (read data (offset + 2)) (fun l1 =>
            read_then (read data (offset + 3)) (fun l0 =>
            let length := shl8_or l1 l0 in
            scan read fuel' data (offset + (2 + length))))
          else NotFound
        else scan read fuel' data (offset + 1))
      else scan read fuel' data (offset + 1))
    else NotFound
  end.

Definition getJPEGDimensions (read : ReadMode) (data : list byte) : Scan :=
  scan read (S (length data)) data 2.

End Jpeg.

(** ** [Map]: insertion-ordered, one entry per key *)

Module JSMap.
Import Text.

Section Ops.
Context {V : Type}.

Definition t : Type := list (JSString * V).

Fixpoint get (k : JSString) (m : t) : option V :=
  match m with
  | [] => None
  | (k', v) :: rest => if string_eq_dec k k' then Some v else get k rest
  end.

Definition has (k : JSString) (m : t) : bool :=
  match get k m with Some _ => true | None => false end.

(** [set] keeps the position of a key that is present and appends a new one. *)
Fixpoint set (k : JSString) (v : V) (m : t) : t :=
  match m with
  | [] => [(k, v)]
  | (k', v') :: rest =>
      if string_eq_dec k k' then (k, v) :: rest else (k', v') :: set k v rest
  end.

Fixpoint delete (k : JSString) (m : t) : t :=
  match m with
  | [] => []
  | (k', v') :: rest =>
      if string_eq_dec k k' then rest else (k', v') :: delete k rest
  end.

Definition keys (m : t) : list JSString := map fst m.

(** One entry per key: what [set] and [delete] maintain. *)
Definition wf (m : t) : Prop := NoDup (keys m).

End Ops.
Arguments t : clear implicits.

End JSMap.

(** ** The [TankRTC] object *)

Module Sdk.
Import Bytes Text Jpeg.

(** Browser objects (sockets, peer connections, streams, timers, blob
    URLs) are known by a handle; [nextHandle] below is the next unused one. *)
Definition Handle : Type := nat.
Bind Scope nat_scope with Handle.

Inductive WsReadyState : Type := CONNECTING | OPEN | CLOSING | CLOSED.
Record WebSocket : Type := mkWebSocket {
  ws_handle : Handle; ws_readyState : WsReadyState }.

Inductive DcReadyState : Type := dc_connecting | dc_open | dc_closing | dc_closed.
Record DataChannel : Type := mkDataChannel {
  dc_handle : Handle; dc_readyState : DcReadyState }.

(** A value of [receivedVideos]: [{ url, timestamp, frameNumber }]. *)
Record VideoEntry : Type := mkVideoEntry {
  url : Handle; timestamp : Z; frameNumber : Z }.

(** The part of [config] the modelled methods read. *)
Record Config : Type := mkConfig {
  videoFrameRate : Z; videoWidth : Z; videoHeight : Z }.

Definition DEFAULT_CONFIG : Config := mkConfig 30 64 64.

Record TankRTC : Type := mkTankRTC {
  isConnected : bool;
  isSendingAudio : bool;
  isListeningAudio : bool;
  isSendingVideo : bool;
  isViewingVideo : bool;
  audioPeerConnection : option Handle;
  videoPeerConnection : option Handle;
  audioWsConnection : option WebSocket;
  videoWsConnection : option WebSocket;
  localStream : option Handle;
  remoteAudioElement : option Handle;
  videoDataChannel : option DataChannel;
  videoCanvas : option Handle;
  videoContext : option Handle;
  videoElement : option Handle;
  receivedVideos : JSMap.t VideoEntry;
  videoFrameNumber : Z;
  videoInterval : option Handle;
  videoCleanupInterval : option Handle;
  isSafari : bool;
  safariAudioContext : option Handle;
  safariGainNode : option Handle;
  safariAnalyser : option Handle;
  safariUserInteractionNeeded : bool;
  safariRemoteSource : option Handle;
  safariRemoteGain : option Handle;
  clientId : JSString;
  config : Config;
  nextHandle : Handle
}.

(** Field assignments [this.f = v]. *)
Definition set_isConnected (v : bool) (s : TankRTC) : TankRTC :=
  mkTankRTC v (s.(isSendingAudio)) (s.(isListeningAudio))
    (s.(isSendingVideo)) (s.(isViewingVideo)) (s.(audioPeerConnection))
    (s.(videoPeerConnection)) (s.(audioWsConnection))
    (s.(videoWsConnection)) (s.(localStream)) (s.(remoteAudioElement))
    (s.(videoDataChannel)) (s.(videoCanvas)) (s.(videoContext))
    (s.(videoElement)) (s.(receivedVideos)) (s.(videoFrameNumber))
    (s.(videoInterval)) (s.(videoCleanupInterval)) (s.(isSafari))
    (s.(safariAudioContext)) (s.(safariGainNode)) (s.(safariAnalyser))
    (s.(safariUserInteractionNeeded)) (s.(safariRemoteSource))
    (s.(safariRemoteGain)) (s.(clientId)) (s.(config)) (s.(nextHandle)).
Definition set_isSendingAudio (v : bool) (s : TankRTC) : TankRTC :=
  mkTankRTC (s.(isConnected)) v (s.(isListeningAudio)) (s.(isSendingVideo))
    (s.(isViewingVideo)) (s.(audioPeerConnection)) (s.(videoPeerConnection))
    (s.(audioWsConnection)) (s.(videoWsConnection)) (s.(localStream))
    (s.(remoteAudioElement)) (s.(videoDataChannel)) (s.(videoCanvas))
    (s.(videoContext)) (s.(videoElement)) (s.(receivedVideos))
    (s.(videoFrameNumber)) (s.(videoInterval)) (s.(videoCleanupInterval))
    (s.(isSafari)) (s.(safariAudioContext)) (s.(safariGainNode))
    (s.(safariAnalyser)) (s.(safariUserInteractionNeeded))
    (s.(safariRemoteSource)) (s.(safariRemoteGain)) (s.(clientId))
    (s.(config)) (s.(nextHandle)).
Definition set_isListeningAudio (v : bool) (s : TankRTC) : TankRTC :=
  mkTankRTC (s.(isConnected)) (s.(isSendingAudio)) v (s.(isSendingVideo))
    (s.(isViewingVideo)) (s.(audioPeerConnection)) (s.(videoPeerConnection))
    (s.(audioWsConnection)) (s.(videoWsConnection)) (s.(localStream))
    (s.(remoteAudioElement)) (s.(videoDataChannel)) (s.(videoCanvas))
    (s.(videoContext)) (s.(videoElement)) (s.(receivedVideos))
    (s.(videoFrameNumber)) (s.(videoInterval)) (s.(videoCleanupInterval))
    (s.(isSafari)) (s.(safariAudioContext)) (s.(safariGainNode))
    (s.(safariAnalyser)) (s.(safariUserInteractionNeeded))
    (s.(safariRemoteSource)) (s.(safariRemoteGain)) (s.(clientId))
    (s.(config)) (s.(nextHandle)).
Definition set_isSendingVideo (v : bool) (s : TankRTC) : TankRTC :=
  mkTankRTC (s.(isConnected)) (s.(isSendingAudio)) (s.(isListeningAudio)) v
    (s.(isViewingVideo)) (s.(audioPeerConnection)) (s.(videoPeerConnection))
    (s.(audioWsConnection)) (s.(videoWsConnection)) (s.(localStream))
    (s.(remoteAudioElement)) (s.(videoDataChannel)) (s.(videoCanvas))
    (s.(videoContext)) (s.(videoElement)) (s.(receivedVideos))
    (s.(videoFrameNumber)) (s.(videoInterval)) (s.(videoCleanupInterval))
    (s.(isSafari)) (s.(safariAudioContext)) (s.(safariGainNode))
    (s.(safariAnalyser)) (s.(safariUserInteractionNeeded))
    (s.(safariRemoteSource)) (s.(safariRemoteGain)) (s.(clientId))
    (s.(config)) (s.(nextHandle)).
Definition set_isViewingVideo (v : bool) (s : TankRTC) : TankRTC :=
  mkTankRTC (s.(isConnected)) (s.(isSendingAudio)) (s.(isListeningAudio))
    (s.(isSendingVideo)) v (s.(audioPeerConnection))
    (s.(videoPeerConnection)) (s.(audioWsConnection))
    (s.(videoWsConnection)) (s.(localStream)) (s.(remoteAudioElement))
    (s.(videoDataChannel)) (s.(videoCanvas)) (s.(videoContext))
    (s.(videoElement)) (s.(receivedVideos)) (s.(videoFrameNumber))
    (s.(videoInterval)) (s.(videoCleanupInterval)) (s.(isSafari))
    (s.(safariAudioContext)) (s.(safariGainNode)) (s.(safariAnalyser))
    (s.(safariUserInteractionNeeded)) (s.(safariRemoteSource))
    (s.(safariRemoteGain)) (s.(clientId)) (s.(config)) (s.(nextHandle)).
Definition set_audioPeerConnection (v : option Handle) (s : TankRTC) : TankRTC :=
  mkTankRTC (s.(isConnected)) (s.(isSendingAudio)) (s.(isListeningAudio))
    (s.(isSendingVideo)) (s.(isViewingVideo)) v (s.(videoPeerConnection))
    (s.(audioWsConnection)) (s.(videoWsConnection)) (s.(localStream))
    (s.(remoteAudioElement)) (s.(videoDataChannel)) (s.(videoCanvas))
    (s.(videoContext)) (s.(videoElement)) (s.(receivedVideos))
    (s.(videoFrameNumber)) (s.(videoInterval)) (s.(videoCleanupInterval))
    (s.(isSafari)) (s.(safariAudioContext)) (s.(safariGainNode))
    (s.(safariAnalyser)) (s.(safariUserInteractionNeeded))
    (s.(safariRemoteSource)) (s.(safariRemoteGain)) (s.(clientId))
    (s.(config)) (s.(nextHandle)).
Definition set_videoPeerConnection (v : option Handle) (s : TankRTC) : TankRTC :=
  mkTankRTC (s.(isConnected)) (s.(isSendingAudio)) (s.(isListeningAudio))
    (s.(isSendingVideo)) (s.(isViewingVideo)) (s.(audioPeerConnection)) v
    (s.(audioWsConnection)) (s.(videoWsConnection)) (s.(localStream))
    (s.(remoteAudioElement)) (s.(videoDataChannel)) (s.(videoCanvas))
    (s.(videoContext)) (s.(videoElement)) (s.(receivedVideos))
    (s.(videoFrameNumber)) (s.(videoInterval)) (s.(videoCleanupInterval))
    (s.(isSafari)) (s.(safariAudioContext)) (s.(safariGainNode))
    (s.(safariAnalyser)) (s.(safariUserInteractionNeeded))
    (s.(safariRemoteSource)) (s.(safariRemoteGain)) (s.(clientId))
    (s.(config)) (s.(nextHandle)).
Definition set_audioWsConnection (v : option WebSocket) (s : TankRTC) : TankRTC :=
  mkTankRTC (s.(isConnected)) (s.(isSendingAudio)) (s.(isListeningAudio))
    (s.(isSendingVideo)) (s.(isViewingVideo)) (s.(audioPeerConnection))
    (s.(videoPeerConnection)) v (s.(videoWsConnection)) (s.(localStream))
    (s.(remoteAudioElement)) (s.(videoDataChannel)) (s.(videoCanvas))
    (s.(videoContext)) (s.(videoElement)) (s.(receivedVideos))
    (s.(videoFrameNumber)) (s.(videoInterval)) (s.(videoCleanupInterval))
    (s.(isSafari)) (s.(safariAudioContext)) (s.(safariGainNode))
    (s.(safariAnalyser)) (s.(safariUserInteractionNeeded))
    (s.(safariRemoteSource)) (s.(safariRemoteGain)) (s.(clientId))
    (s.(config)) (s.(nextHandle)).
Definition set_videoWsConnection (v : option WebSocket) (s : TankRTC) : TankRTC :=
  mkTankRTC (s.(isConnected)) (s.(isSendingAudio)) (s.(isListeningAudio))
    (s.(isSendingVideo)) (s.(isViewingVideo)) (s.(audioPeerConnection))
    (s.(videoPeerConnection)) (s.(audioWsConnection)) v (s.(localStream))
    (s.(remoteAudioElement)) (s.(videoDataChannel)) (s.(videoCanvas))
    (s.(videoContext)) (s.(videoElement)) (s.(receivedVideos))
    (s.(videoFrameNumber)) (s.(videoInterval)) (s.(videoCleanupInterval))
    (s.(isSafari)) (s.(safariAudioContext)) (s.(safariGainNode))
    (s.(safariAnalyser)) (s.(safariUserInteractionNeeded))
    (s.(safariRemoteSource)) (s.(safariRemoteGain)) (s.(clientId))
    (s.(config)) (s.(nextHandle)).
Definition set_localStream (v : option Handle) (s : TankRTC) : TankRTC :=
  mkTankRTC (s.(isConnected)) (s.(isSendingAudio)) (s.(isListeningAudio))
    (s.(isSendingVideo)) (s.(isViewingVideo)) (s.(audioPeerConnection))
    (s.(videoPeerConnection)) (s.(audioWsConnection))
    (s.(videoWsConnection)) v (s.(remoteAudioElement))
    (s.(videoDataChannel)) (s.(videoCanvas)) (s.(videoContext))
    (s.(videoElement)) (s.(receivedVideos)) (s.(videoFrameNumber))
    (s.(videoInterval)) (s.(videoCleanupInterval)) (s.(isSafari))
    (s.(safariAudioContext)) (s.(safariGainNode)) (s.(safariAnalyser))
    (s.(safariUserInteractionNeeded)) (s.(safariRemoteSource))
    (s.(safariRemoteGain)) (s.(clientId)) (s.(config)) (s.(nextHandle)).
Definition set_remoteAudioElement (v : option Handle) (s : TankRTC) : TankRTC :=
  mkTankRTC (s.(isConnected)) (s.(isSendingAudio)) (s.(isListeningAudio))
    (s.(isSendingVideo)) (s.(isViewingVideo)) (s.(audioPeerConnection))
    (s.(videoPeerConnection)) (s.(audioWsConnection))
    (s.(videoWsConnection)) (s.(localStream)) v (s.(videoDataChannel))
    (s.(videoCanvas)) (s.(videoContext)) (s.(videoElement))
    (s.(receivedVideos)) (s.(videoFrameNumber)) (s.(videoInterval))
    (s.(videoCleanupInterval)) (s.(isSafari)) (s.(safariAudioContext))
    (s.(safariGainNode)) (s.(safariAnalyser))
    (s.(safariUserInteractionNeeded)) (s.(safariRemoteSource))
    (s.(safariRemoteGain)) (s.(clientId)) (s.(config)) (s.(nextHandle)).
Definition set_videoDataChannel (v : option DataChannel) (s : TankRTC) : TankRTC :=
  mkTankRTC (s.(isConnected)) (s.(isSendingAudio)) (s.(isListeningAudio))
    (s.(isSendingVideo)) (s.(isViewingVideo)) (s.(audioPeerConnection))
    (s.(videoPeerConnection)) (s.(audioWsConnection))
    (s.(videoWsConnection)) (s.(localStream)) (s.(remoteAudioElement)) v
    (s.(videoCanvas)) (s.(videoContext)) (s.(videoElement))
    (s.(receivedVideos)) (s.(videoFrameNumber)) (s.(videoInterval))
    (s.(videoCleanupInterval)) (s.(isSafari)) (s.(safariAudioContext))
    (s.(safariGainNode)) (s.(safariAnalyser))
    (s.(safariUserInteractionNeeded)) (s.(safariRemoteSource))
    (s.(safariRemoteGain)) (s.(clientId)) (s.(config)) (s.(nextHandle)).
Definition set_videoCanvas (v : option Handle) (s : TankRTC) : TankRTC :=
  mkTankRTC (s.(isConnected)) (s.(isSendingAudio)) (s.(isListeningAudio))
    (s.(isSendingVideo)) (s.(isViewingVideo)) (s.(audioPeerConnection))
    (s.(videoPeerConnection)) (s.(audioWsConnection))
    (s.(videoWsConnection)) (s.(localStream)) (s.(remoteAudioElement))
    (s.(videoDataChannel)) v (s.(videoContext)) (s.(videoElement))
    (s.(receivedVideos)) (s.(videoFrameNumber)) (s.(videoInterval))
    (s.(videoCleanupInterval)) (s.(isSafari)) (s.(safariAudioContext))
    (s.(safariGainNode)) (s.(safariAnalyser))
    (s.(safariUserInteractionNeeded)) (s.(safariRemoteSource))
    (s.(safariRemoteGain)) (s.(clientId)) (s.(config)) (s.(nextHandle)).
Definition set_videoContext (v : option Handle) (s : TankRTC) : TankRTC :=
  mkTankRTC (s.(isConnected)) (s.(isSendingAudio)) (s.(isListeningAudio))
    (s.(isSendingVideo)) (s.(isViewingVideo)) (s.(audioPeerConnection))
    (s.(videoPeerConnection)) (s.(audioWsConnection))
    (s.(videoWsConnection)) (s.(localStream)) (s.(remoteAudioElement))
    (s.(videoDataChannel)) (s.(videoCanvas)) v (s.(videoElement))
    (s.(receivedVideos)) (s.(videoFrameNumber)) (s.(videoInterval))
    (s.(videoCleanupInterval)) (s.(isSafari)) (s.(safariAudioContext))
    (s.(safariGainNode)) (s.(safariAnalyser))
    (s.(safariUserInteractionNeeded)) (s.(safariRemoteSource))
    (s.(safariRemoteGain)) (s.(clientId)) (s.(config)) (s.(nextHandle)).
Definition set_videoElement (v : option Handle) (s : TankRTC) : TankRTC :=
  mkTankRTC (s.(isConnected)) (s.(isSendingAudio)) (s.(isListeningAudio))
    (s.(isSendingVideo)) (s.(isViewingVideo)) (s.(audioPeerConnection))
    (s.(videoPeerConnection)) (s.(audioWsConnection))
    (s.(videoWsConnection)) (s.(localStream)) (s.(remoteAudioElement))
    (s.(videoDataChannel)) (s.(videoCanvas)) (s.(videoContext)) v
    (s.(receivedVideos)) (s.(videoFrameNumber)) (s.(videoInterval))
    (s.(videoCleanupInterval)) (s.(isSafari)) (s.(safariAudioContext))
    (s.(safariGainNode)) (s.(safariAnalyser))
    (s.(safariUserInteractionNeeded)) (s.(safariRemoteSource))
    (s.(safariRemoteGain)) (s.(clientId)) (s.(config)) (s.(nextHandle)).
Definition set_receivedVideos (v : JSMap.t VideoEntry) (s : TankRTC) : TankRTC :=
  mkTankRTC (s.(isConnected)) (s.(isSendingAudio)) (s.(isListeningAudio))
    (s.(isSendingVideo)) (s.(isViewingVideo)) (s.(audioPeerConnection))
    (s.(videoPeerConnection)) (s.(audioWsConnection))
    (s.(videoWsConnection)) (s.(localStream)) (s.(remoteAudioElement))
    (s.(videoDataChannel)) (s.(videoCanvas)) (s.(videoContext))
    (s.(videoElement)) v (s.(videoFrameNumber)) (s.(videoInterval))
    (s.(videoCleanupInterval)) (s.(isSafari)) (s.(safariAudioContext))
    (s.(safariGainNode)) (s.(safariAnalyser))
    (s.(safariUserInteractionNeeded)) (s.(safariRemoteSource))
    (s.(safariRemoteGain)) (s.(clientId)) (s.(config)) (s.(nextHandle)).
Definition set_videoFrameNumber (v : Z) (s : TankRTC) : TankRTC :=
  mkTankRTC (s.(isConnected)) (s.(isSendingAudio)) (s.(isListeningAudio))
    (s.(isSendingVideo)) (s.(isViewingVideo)) (s.(audioPeerConnection))
    (s.(videoPeerConnection)) (s.(audioWsConnection))
    (s.(videoWsConnection)) (s.(localStream)) (s.(remoteAudioElement))
    (s.(videoDataChannel)) (s.(videoCanvas)) (s.(videoContext))
    (s.(videoElement)) (s.(receivedVideos)) v (s.(videoInterval))
    (s.(videoCleanupInterval)) (s.(isSafari)) (s.(safariAudioContext))
    (s.(safariGainNode)) (s.(safariAnalyser))
    (s.(safariUserInteractionNeeded)) (s.(safariRemoteSource))
    (s.(safariRemoteGain)) (s.(clientId)) (s.(config)) (s.(nextHandle)).
Definition set_videoInterval (v : option Handle) (s : TankRTC) : TankRTC :=
  mkTankRTC (s.(isConnected)) (s.(isSendingAudio)) (s.(isListeningAudio))
    (s.(isSendingVideo)) (s.(isViewingVideo)) (s.(audioPeerConnection))
    (s.(videoPeerConnection)) (s.(audioWsConnection))
    (s.(videoWsConnection)) (s.(localStream)) (s.(remoteAudioElement))
    (s.(videoDataChannel)) (s.(videoCanvas)) (s.(videoContext))
    (s.(videoElement)) (s.(receivedVideos)) (s.(videoFrameNumber)) v
    (s.(videoCleanupInterval)) (s.(isSafari)) (s.(safariAudioContext))
    (s.(safariGainNode)) (s.(safariAnalyser))
    (s.(safariUserInteractionNeeded)) (s.(safariRemoteSource))
    (s.(safariRemoteGain)) (s.(clientId)) (s.(config)) (s.(nextHandle)).
Definition set_videoCleanupInterval (v : option Handle) (s : TankRTC) : TankRTC :=
  mkTankRTC (s.(isConnected)) (s.(isSendingAudio)) (s.(isListeningAudio))
    (s.(isSendingVideo)) (s.(isViewingVideo)) (s.(audioPeerConnection))
    (s.(videoPeerConnection)) (s.(audioWsConnection))
    (s.(videoWsConnection)) (s.(localStream)) (s.(remoteAudioElement))
    (s.(videoDataChannel)) (s.(videoCanvas)) (s.(videoContext))
    (s.(videoElement)) (s.(receivedVideos)) (s.(videoFrameNumber))
    (s.(videoInterval)) v (s.(isSafari)) (s.(safariAudioContext))
    (s.(safariGainNode)) (s.(safariAnalyser))
    (s.(safariUserInteractionNeeded)) (s.(safariRemoteSource))
    (s.(safariRemoteGain)) (s.(clientId)) (s.(config)) (s.(nextHandle)).
Definition set_safariAudioContext (v : option Handle) (s : TankRTC) : TankRTC :=
  mkTankRTC (s.(isConnected)) (s.(isSendingAudio)) (s.(isListeningAudio))
    (s.(isSendingVideo)) (s.(isViewingVideo)) (s.(audioPeerConnection))
    (s.(videoPeerConnection)) (s.(audioWsConnection))
    (s.(videoWsConnection)) (s.(localStream)) (s.(remoteAudioElement))
    (s.(videoDataChannel)) (s.(videoCanvas)) (s.(videoContext))
    (s.(videoElement)) (s.(receivedVideos)) (s.(videoFrameNumber))
    (s.(videoInterval)) (s.(videoCleanupInterval)) (s.(isSafari)) v
    (s.(safariGainNode)) (s.(safariAnalyser))
    (s.(safariUserInteractionNeeded)) (s.(safariRemoteSource))
    (s.(safariRemoteGain)) (s.(clientId)) (s.(config)) (s.(nextHandle)).
Definition set_safariGainNode (v : option Handle) (s : TankRTC) : TankRTC :=
  mkTankRTC (s.(isConnected)) (s.(isSendingAudio)) (s.(isListeningAudio))
    (s.(isSendingVideo)) (s.(isViewingVideo)) (s.(audioPeerConnection))
    (s.(videoPeerConnection)) (s.(audioWsConnection))
    (s.(videoWsConnection)) (s.(localStream)) (s.(remoteAudioElement))
    (s.(videoDataChannel)) (s.(videoCanvas)) (s.(videoContext))
    (s.(videoElement)) (s.(receivedVideos)) (s.(videoFrameNumber))
    (s.(videoInterval)) (s.(videoCleanupInterval)) (s.(isSafari))
    (s.(safariAudioContext)) v (s.(safariAnalyser))
    (s.(safariUserInteractionNeeded)) (s.(safariRemoteSource))
    (s.(safariRemoteGain)) (s.(clientId)) (s.(config)) (s.(nextHandle)).
Definition set_safariAnalyser (v : option Handle) (s : TankRTC) : TankRTC :=
  mkTankRTC (s.(isConnected)) (s.(isSendingAudio)) (s.(isListeningAudio))
    (s.(isSendingVideo)) (s.(isViewingVideo)) (s.(audioPeerConnection))
    (s.(videoPeerConnection)) (s.(audioWsConnection))
    (s.(videoWsConnection)) (s.(localStream)) (s.(remoteAudioElement))
    (s.(videoDataChannel)) (s.(videoCanvas)) (s.(videoContext))
    (s.(videoElement)) (s.(receivedVideos)) (s.(videoFrameNumber))
    (s.(videoInterval)) (s.(videoCleanupInterval)) (s.(isSafari))
    (s.(safariAudioContext)) (s.(safariGainNode)) v
    (s.(safariUserInteractionNeeded)) (s.(safariRemoteSource))
    (s.(safariRemoteGain)) (s.(clientId)) (s.(config)) (s.(nextHandle)).
Definition set_safariUserInteractionNeeded (v : bool) (s : TankRTC) : TankRTC :=
  mkTankRTC (s.(isConnected)) (s.(isSendingAudio)) (s.(isListeningAudio))
    (s.(isSendingVideo)) (s.(isViewingVideo)) (s.(audioPeerConnection))
    (s.(videoPeerConnection)) (s.(audioWsConnection))
    (s.(videoWsConnection)) (s.(localStream)) (s.(remoteAudioElement))
    (s.(videoDataChannel)) (s.(videoCanvas)) (s.(videoContext))
    (s.(videoElement)) (s.(receivedVideos)) (s.(videoFrameNumber))
    (s.(videoInterval)) (s.(videoCleanupInterval)) (s.(isSafari))
    (s.(safariAudioContext)) (s.(safariGainNode)) (s.(safariAnalyser)) v
    (s.(safariRemoteSource)) (s.(safariRemoteGain)) (s.(clientId))
    (s.(config)) (s.(nextHandle)).
Definition set_safariRemoteSource (v : option Handle) (s : TankRTC) : TankRTC :=
  mkTankRTC (s.(isConnected)) (s.(isSendingAudio)) (s.(isListeningAudio))
    (s.(isSendingVideo)) (s.(isViewingVideo)) (s.(audioPeerConnection))
    (s.(videoPeerConnection)) (s.(audioWsConnection))
    (s.(videoWsConnection)) (s.(localStream)) (s.(remoteAudioElement))
    (s.(videoDataChannel)) (s.(videoCanvas)) (s.(videoContext))
    (s.(videoElement)) (s.(receivedVideos)) (s.(videoFrameNumber))
    (s.(videoInterval)) (s.(videoCleanupInterval)) (s.(isSafari))
    (s.(safariAudioContext)) (s.(safariGainNode)) (s.(safariAnalyser))
    (s.(safariUserInteractionNeeded)) v (s.(safariRemoteGain))
    (s.(clientId)) (s.(config)) (s.(nextHandle)).
Definition set_safariRemoteGain (v : option Handle) (s : TankRTC) : TankRTC :=
  mkTankRTC (s.(isConnected)) (s.(isSendingAudio)) (s.(isListeningAudio))
    (s.(isSendingVideo)) (s.(isViewingVideo)) (s.(audioPeerConnection))
    (s.(videoPeerConnection)) (s.(audioWsConnection))
    (s.(videoWsConnection)) (s.(localStream)) (s.(remoteAudioElement))
    (s.(videoDataChannel)) (s.(videoCanvas)) (s.(videoContext))
    (s.(videoElement)) (s.(receivedVideos)) (s.(videoFrameNumber))
    (s.(videoInterval)) (s.(videoCleanupInterval)) (s.(isSafari))
    (s.(safariAudioContext)) (s.(safariGainNode)) (s.(safariAnalyser))
    (s.(safariUserInteractionNeeded)) (s.(safariRemoteSource)) v
    (s.(clientId)) (s.(config)) (s.(nextHandle)).
Definition set_nextHandle (v : Handle) (s : TankRTC) : TankRTC :=
  mkTankRTC (s.(isConnected)) (s.(isSendingAudio)) (s.(isListeningAudio))
    (s.(isSendingVideo)) (s.(isViewingVideo)) (s.(audioPeerConnection))
    (s.(videoPeerConnection)) (s.(audioWsConnection))
    (s.(videoWsConnection)) (s.(localStream)) (s.(remoteAudioElement))
    (s.(videoDataChannel)) (s.(videoCanvas)) (s.(videoContext))
    (s.(videoElement)) (s.(receivedVideos)) (s.(videoFrameNumber))
    (s.(videoInterval)) (s.(videoCleanupInterval)) (s.(isSafari))
    (s.(safariAudioContext)) (s.(safariGainNode)) (s.(safariAnalyser))
    (s.(safariUserInteractionNeeded)) (s.(safariRemoteSource))
    (s.(safariRemoteGain)) (s.(clientId)) (s.(config)) v.

(** [new TankRTC(clientId, config)]. *)
Definition newTankRTC (id : JSString) (cfg : Config) (safari : bool) : TankRTC :=
  mkTankRTC false false false false false None None None None None None None
    None None None [] 0 None None safari None None None false None None
    id cfg O.

(** *** What a method does to the outside *)

Inductive Family : Type := AudioFamily | VideoFamily.

(** The [type] argument of [onAudioStateChange] and [onVideoStateChange]. *)
Inductive LegKind : Type := sending | listening | viewing.

Inductive Message : Type :=
| offer
| stop_sending
| stop_video
| videoFrame (bytes : list byte).

Inductive JSError : Type :=
| RangeError            (* a DataView read outside the buffer *)
| IndexError (i : Z)    (* an indexed read outside the array, in [checked_read] *)
| MediaError            (* getUserMedia rejected *)
| SocketError           (* the audio WebSocket reported an error *)
| ChannelOpenTimeout.   (* 'Video data channel failed to open within 5 seconds' *)

(** The first argument of [handleError]. *)
Inductive ErrorMessage : Type :=
| Failed_to_start_sending_audio
| Failed_to_start_listening_audio
| Failed_to_start_sending_video
| Failed_to_start_viewing_video.

Inductive Event : Type :=
(* callbacks *)
| OnConnect
| OnDisconnect
| OnVideoSourceAdd (clientID : JSString) (u : Handle)
| OnVideoSourceRemove (clientID : JSString)
| OnVideoFrameUpdate (clientID : JSString) (u : Handle)
| OnAudioStateChange (kind : LegKind) (active : bool)
| OnVideoStateChange (kind : LegKind) (active : bool)
| OnError (message : ErrorMessage) (error : JSError)
(* browser calls; what is done with a peer connection between its
   creation and its closing (tracks, descriptions, candidates) is left out *)
| CreateObjectURL (u : Handle)
| RevokeObjectURL (u : Handle)
| NewWebSocket (h : Handle) (family : Family)
| CloseWebSocket (h : Handle)
| SendWebSocket (h : Handle) (m : Message)
| NewPeerConnection (h : Handle)
| ClosePeerConnection (h : Handle)
| SendDataChannel (h : Handle) (m : Message)
| GetUserMedia (family : Family)
| StopTracks (stream : Handle)
| SetInterval (h : Handle)
| ClearInterval (h : Handle)
| CloseAudioContext (h : Handle)
| LogError.

(** *** Methods: state, trace and exceptions *)

Inductive Completion (A : Type) : Type :=
| Normal (a : A)
| Throw (e : JSError).
Arguments Normal {A} a.
Arguments Throw {A} e.

Definition M (A : Type) : Type := TankRTC -> Completion A * TankRTC * list Event.

Definition ret {A} (a : A) : M A := fun s => (Normal a, s, []).

Definition bind {A B} (m : M A) (k : A -> M B) : M B := fun s =>
  match m s with
  | (Normal a, s1, t1) =>
      match k a s1 with (c, s2, t2) => (c, s2, t1 ++ t2) end
  | (Throw e, s1, t1) => (Throw e, s1, t1)
  end.

Definition throw {A} (e : JSError) : M A := fun s => (Throw e, s, []).

(** [try { m } catch (error) { h error }]. *)
Definition try_catch {A} (m : M A) (h : JSError -> M A) : M A := fun s =>
  match m s with
  | (Normal a, s1, t1) => (Normal a, s1, t1)
  | (Throw e, s1, t1) =>
      match h e s1 with (c, s2, t2) => (c, s2, t1 ++ t2) end
  end.

Definition this : M TankRTC := fun s => (Normal s, s, []).
Definition assign (f : TankRTC -> TankRTC) : M unit := fun s => (Normal tt, f s, []).
Definition emit (e : Event) : M unit := fun s => (Normal tt, s, [e]).

Notation "x <- m ;; k" := (bind m (fun x => k))
  (at level 61, m at next level, right associativity).
Notation "m ;; k" := (bind m (fun _ => k))
  (at level 61, right associativity).

Definition when (b : bool) (m : M unit) : M unit := if b then m else ret tt.

(** A new browser object. *)
Definition fresh : M Handle := fun s =>
  (Normal (nextHandle s), set_nextHandle (S (nextHandle s)) s, []).

Definition completion {A} (r : Completion A * TankRTC * list Event) : Completion A := fst (fst r).
Definition final {A} (r : Completion A * TankRTC * list Event) : TankRTC := snd (fst r).
Definition trace {A} (r : Completion A * TankRTC * list Event) : list Event := snd r.

Definition isSome {A} (o : option A) : bool :=
  match o with Some _ => true | None => false end.

Definition wsIsOpen (w : option WebSocket) : bool :=
  match w with
  | Some ws => match ws_readyState ws with OPEN => true | _ => false end
  | None => false
  end.

Definition dcIsOpen (d : option DataChannel) : bool :=
  match d with
  | Some dc => match dc_readyState dc with dc_open => true | _ => false end
  | None => false
  end.

(** *** The video-frame envelope *)

(** [sendVideoFrame], the body of the [toBlob] callback: the message is
    allocated at its full size and the fields are written in place. *)
Definition buildVideoMessage (id : JSString) (timestampNanos frameNo : Z)
    (blob : list byte) : list byte :=
  let clientIDBytes := TextEncoder_encode id in
  let clientIDLen := byteLength clientIDBytes in
  let totalSize := 4 + clientIDLen + 8 + 4 + byteLength blob in
  let message := newArrayBuffer totalSize in
  let message := setUint32 0 clientIDLen message in
  let message := write_at 4 clientIDBytes message in
  let message := setBigUint64 (4 + clientIDLen) timestampNanos message in
  let message := setUint32 (12 + clientIDLen) frameNo message in
  write_at (16 + clientIDLen) blob message.

(** The exits of [handleIncomingVideoMessage] that drop the frame
    ([return; // Keep last good image]), in the order of the source:
    lines 856, 864, 871, 880, 888, 893 and 900, 906, 911. *)
Inductive Discard : Type :=
| Truncated
| InvalidIdentityLength
| EmptyIdentity
| EmptyPayload
| Stale
| NotAnImage
| UnparseableContainer
| DimensionMismatch.

Record Envelope : Type := mkEnvelope {
  env_clientID : JSString;
  env_timestamp : Z;
  env_frameNumber : Z;
  env_videoData : list byte }.

Inductive Parse : Type :=
| Parsed (f : Envelope)
| Rejected (why : Discard)
| Raised (e : JSError).

Definition isEmpty (s : JSString) : bool :=
  match s with [] => true | _ => false end.

(** [handleIncomingVideoMessage], lines 856 to 882: the header fields and
    the payload are taken out of the buffer. *)
Definition parseEnvelope (data : list byte) : Parse :=
  if byteLength data <? 20 then Rejected Truncated
  else
    match getUint32 data 0 with
    | None => Raised RangeError
    | Some clientIDLen =>
      if (clientIDLen <=? 0) || (1000 <? clientIDLen)
         || (byteLength data <? clientIDLen + 16)
      then Rejected InvalidIdentityLength
      else
        let clientID := TextDecoder_decode (slice data 4 (4 + clientIDLen)) in
        if isEmpty clientID || isEmpty (trim clientID)
        then Rejected EmptyIdentity
        else
          match getBigUint64 data (4 + clientIDLen) with
          | None => Raised RangeError
          | Some ts =>
            match getUint32 data (12 + clientIDLen) with
            | None => Raised RangeError
            | Some frameNo =>
              let videoData := slice_from data (16 + clientIDLen) in
              if byteLength videoData =? 0 then Rejected EmptyPayload
              else Parsed (mkEnvelope clientID ts frameNo videoData)
            end
          end
    end.

(** [Number(currentTime - timestamp) / 1000000], in milliseconds.  The
    quotient is kept exact: the two roundings of the source (BigInt to
    Number, then the division) are monotone and the thresholds it is
    compared with (1000 and 2000) are integers far below 2^53, so for an
    integer difference the comparisons come out the same
    ([olderThanBinary64] below is the comparison as computed). *)
Definition frameAgeMs (currentTime ts : Z) : Q :=
  (inject_Z (currentTime - ts) / inject_Z 1000000)%Q.

(** [frameAgeMs > thresholdMs]. *)
Definition olderThan (ageMs : Q) (thresholdMs : Z) : bool :=
  negb (Qle_bool ageMs (inject_Z thresholdMs)).

(** The same comparison in binary64, as the engine computes it, for a
    difference below 2^63 in size: [Number(d) / 1000000 > thresholdMs]. *)
Definition numberOfBigInt (d : Z) : float :=
  if d <? 0 then PrimFloat.opp (PrimFloat.of_uint63 (Uint63.of_Z (- d)))
  else PrimFloat.of_uint63 (Uint63.of_Z d).

Definition olderThanBinary64 (currentTime ts thresholdMs : Z) : bool :=
  PrimFloat.ltb (numberOfBigInt thresholdMs)
    (PrimFloat.div (numberOfBigInt (currentTime - ts)) (numberOfBigInt 1000000)).

(** [BigInt(Date.now()) * BigInt(1000000)]. *)
Definition nanoseconds (nowMs : Z) : Z := nowMs * 1000000.

Inductive FrameOutcome : Type :=
| Discarded (why : Discard)
| Stored (isNewVideoSource : bool)
| Caught (e : JSError).

Definition handleIncomingVideoMessageWith (read : ReadMode) (nowMs : Z)
    (data : list byte) : M FrameOutcome :=
  match parseEnvelope data with
  | Raised e => emit LogError ;; ret (Caught e)
  | Rejected why => ret (Discarded why)
  | Parsed f =>
    let clientID := env_clientID f in
    let videoData := env_videoData f in
    let currentTime := nanoseconds nowMs in
    if olderThan (frameAgeMs currentTime (env_timestamp f)) 1000
    then ret (Discarded Stale)
    else if byteLength videoData <? 2 then ret (Discarded NotAnImage)
    else
      match read videoData 0, read videoData 1 with
      | OutOfRange i, _ | Value _, OutOfRange i =>
          emit LogError ;; ret (Caught (IndexError i))
      | Value b0, Value b1 =>
        if strict_ne b0 0xFF || strict_ne b1 0xD8
        then ret (Discarded NotAnImage)
        else
          match getJPEGDimensions read videoData with
          | OutOfFuel | NotFound => ret (Discarded UnparseableContainer)
          | BadIndex _ =>
              (* caught and logged inside getJPEGDimensions, which then
                 returns null *)
              emit LogError ;; ret (Discarded UnparseableContainer)
          | Found width height =>
            s <- this ;;
            if negb (width =? videoWidth (config s))
               || negb (height =? videoHeight (config s))
            then ret (Discarded DimensionMismatch)
            else
              u <- fresh ;;
              emit (CreateObjectURL u) ;;
              s <- this ;;
              let isNewVideoSource := negb (JSMap.has clientID (receivedVideos s)) in
              assign (set_receivedVideos
                        (JSMap.set clientID
                           (mkVideoEntry u (env_timestamp f) (env_frameNumber f))
                           (receivedVideos s))) ;;
              (if isNewVideoSource
               then emit (OnVideoSourceAdd clientID u)
               else emit (OnVideoFrameUpdate clientID u)) ;;
              ret (Stored isNewVideoSource)
          end
      end
  end.

Definition handleIncomingVideoMessage : Z -> list byte -> M FrameOutcome :=
  handleIncomingVideoMessageWith js_read.

(** The text branch of [dataChannel.onmessage] for [video-remove]. *)
Definition onVideoRemoveMessage (clientID : JSString) : M unit :=
  s <- this ;;
  match JSMap.get clientID (receivedVideos s) with
  | Some videoData => emit (RevokeObjectURL (url videoData))
  | None => ret tt
  end ;;
  assign (fun s => set_receivedVideos (JSMap.delete clientID (receivedVideos s)) s) ;;
  emit (OnVideoSourceRemove clientID).

(** *** The frame cache sweep *)

(** [frameAgeMs > cleanupThresholdMs], with [cleanupThresholdMs = 2000]. *)
Definition isExpired (currentTime : Z) (videoData : VideoEntry) : bool :=
  olderThan (frameAgeMs currentTime (timestamp videoData)) 2000.

(** The [for ... of this.receivedVideos.entries()] loop.  Deleting the
    entry under the iterator leaves the entries still to come as they
    were, so the loop runs over the entries found at its start. *)
Fixpoint cleanupLoop (currentTime : Z) (entries : JSMap.t VideoEntry) : M unit :=
  match entries with
  | [] => ret tt
  | (clientID, videoData) :: rest =>
      when (isExpired currentTime videoData)
        (emit (RevokeObjectURL (url videoData)) ;;
         assign (fun s => set_receivedVideos
                            (JSMap.delete clientID (receivedVideos s)) s)) ;;
      cleanupLoop currentTime rest
  end.

Definition cleanupOldVideos (nowMs : Z) : M unit :=
  s <- this ;;
  cleanupLoop (nanoseconds nowMs) (receivedVideos s).

(** *** The four legs *)

(** What the browser and the server do while a [start...] method waits:
    whether [getUserMedia] grants the microphone and the camera, whether
    the audio WebSocket opens (or reports an error), whether the video data
    channel opens within the fifty polls of 100 ms, and whether a new
    Safari [AudioContext] starts suspended.  A method runs to its end
    without another method of the object running in between. *)
Record Env : Type := mkEnv {
  microphone : bool;
  camera : bool;
  audioSocketOpens : bool;
  videoChannelOpens : bool;
  audioContextSuspended : bool }.

Definition handleError (message : ErrorMessage) (error : JSError) : M unit :=
  emit (OnError message error).

Definition getUserMedia (family : Family) (granted : bool) : M Handle :=
  emit (GetUserMedia family) ;;
  if granted then fresh else throw MediaError.

Definition isVideoConnectionReady (s : TankRTC) : bool :=
  wsIsOpen (videoWsConnection s) && isSome (videoPeerConnection s)
  && dcIsOpen (videoDataChannel s).

Definition initializeVideoConnection : M unit :=
  s <- this ;;
  (* Reuse existing connection if it's already open *)
  if wsIsOpen (videoWsConnection s) && isSome (videoPeerConnection s)
     && dcIsOpen (videoDataChannel s)
  then ret tt
  else
    w <- fresh ;;
    emit (NewWebSocket w VideoFamily) ;;
    assign (set_videoWsConnection (Some (mkWebSocket w CONNECTING))) ;;
    p <- fresh ;;
    emit (NewPeerConnection p) ;;
    assign (set_videoPeerConnection (Some p)).

(** The handlers that [initializeVideoConnection] and [sendVideoOffer] set
    on the socket and on the data channel, and that the browser calls
    when either closes: [videoWsConnection.onclose] and
    [dataChannel.onclose].  They run between calls, not inside one.
    [onopen] of the socket sends the offer ([sendVideoOffer]); the opening
    of the socket, the offer and the opening of the data channel are what
    [waitForVideoDataChannel] below waits for, and the offer itself is not
    in the trace. *)
Definition onVideoSocketClose : M unit := assign (set_videoWsConnection None).
Definition onVideoDataChannelClose : M unit := assign (set_videoDataChannel None).

(** The wait for the data channel in [startSendingVideo] and
    [startViewingVideo].  When the channel opens, the socket has opened
    ([onopen] sent the offer) and [dataChannel.onopen] has stored the
    channel. *)
Definition waitForVideoDataChannel (env : Env) : M unit :=
  s <- this ;;
  if isVideoConnectionReady s then ret tt
  else if dcIsOpen (videoDataChannel s) then ret tt
  else if videoChannelOpens env then
    assign (fun s => set_videoWsConnection
                       (option_map (fun w => mkWebSocket (ws_handle w) OPEN)
                                   (videoWsConnection s)) s) ;;
    d <- fresh ;;
    assign (set_videoDataChannel (Some (mkDataChannel d dc_open)))
  else throw ChannelOpenTimeout.

Definition initializeAudioConnection (env : Env) : M unit :=
  s <- this ;;
  if wsIsOpen (audioWsConnection s) then ret tt
  else
    w <- fresh ;;
    emit (NewWebSocket w AudioFamily) ;;
    if audioSocketOpens env then
      assign (set_audioWsConnection (Some (mkWebSocket w OPEN))) ;;
      p <- fresh ;;
      emit (NewPeerConnection p) ;;
      assign (set_audioPeerConnection (Some p))
    else
      (* onerror rejects the promise; onclose follows *)
      assign (set_audioWsConnection (Some (mkWebSocket w CLOSED))) ;;
      assign (set_isConnected false) ;;
      throw SocketError.

Definition createPeerConnection : M unit :=
  s <- this ;;
  if isSome (audioPeerConnection s) then ret tt
  else
    p <- fresh ;;
    emit (NewPeerConnection p) ;;
    assign (set_audioPeerConnection (Some p)).

Definition resetPeerConnection : M unit :=
  s <- this ;;
  match audioPeerConnection s with
  | Some p => emit (ClosePeerConnection p) ;; assign (set_audioPeerConnection None)
  | None => ret tt
  end ;;
  createPeerConnection.

Definition createAudioOffer : M unit :=
  s <- this ;;
  match audioPeerConnection s, audioWsConnection s with
  | Some _, Some w =>
      match ws_readyState w with
      | OPEN => emit (SendWebSocket (ws_handle w) offer)
      | _ => ret tt
      end
  | _, _ => ret tt
  end.

(** [Always create fresh connection when starting]: the two [if] blocks
    shared by [startSendingAudio] and [startListeningAudio]. *)
Definition closeAudioConnection : M unit :=
  s <- this ;;
  match audioWsConnection s with
  | Some w => emit (CloseWebSocket (ws_handle w)) ;; assign (set_audioWsConnection None)
  | None => ret tt
  end ;;
  match audioPeerConnection s with
  | Some p => emit (ClosePeerConnection p) ;; assign (set_audioPeerConnection None)
  | None => ret tt
  end.

Definition initializeSafariAudioContext (env : Env) : M unit :=
  s <- this ;;
  if negb (isSafari s) || isSome (safariAudioContext s) then ret tt
  else
    c <- fresh ;;
    assign (set_safariAudioContext (Some c)) ;;
    when (audioContextSuspended env) (assign (set_safariUserInteractionNeeded true)).

Definition cleanupSafariAudio (closeContext : bool) : M unit :=
  s <- this ;;
  match safariAudioContext s with
  | Some c =>
    if negb (isSafari s) then ret tt
    else
      assign (set_safariRemoteSource None) ;;
      assign (set_safariRemoteGain None) ;;
      assign (set_safariGainNode None) ;;
      assign (set_safariAnalyser None) ;;
      when (closeContext || (negb (isSendingAudio s) && negb (isListeningAudio s)))
        (emit (CloseAudioContext c) ;;
         assign (set_safariAudioContext None) ;;
         assign (set_safariUserInteractionNeeded false))
  | None => ret tt
  end.

Definition startSendingAudio (env : Env) : M unit :=
  s <- this ;;
  if isSendingAudio s then ret tt
  else
    try_catch
      (stream <- getUserMedia AudioFamily (microphone env) ;;
       assign (set_localStream (Some stream)) ;;
       assign (set_isSendingAudio true) ;;
       closeAudioConnection ;;
       initializeAudioConnection env ;;
       resetPeerConnection ;;
       createAudioOffer ;;
       emit (OnAudioStateChange sending true))
      (fun error =>
         assign (set_isSendingAudio false) ;;
         handleError Failed_to_start_sending_audio error ;;
         throw error).

Definition stopSendingAudio : M unit :=
  s <- this ;;
  when (wsIsOpen (audioWsConnection s) && negb (isEmpty (clientId s)))
    (match audioWsConnection s with
     | Some w => emit (SendWebSocket (ws_handle w) stop_sending)
     | None => ret tt
     end) ;;
  match localStream s with
  | Some stream => emit (StopTracks stream) ;; assign (set_localStream None)
  | None => ret tt
  end ;;
  assign (set_isSendingAudio false) ;;
  cleanupSafariAudio false ;;
  emit (OnAudioStateChange sending false).

Definition startListeningAudio (env : Env) : M unit :=
  s <- this ;;
  if isListeningAudio s then ret tt
  else
    try_catch
      (when (isSafari s) (initializeSafariAudioContext env) ;;
       assign (set_isListeningAudio true) ;;
       closeAudioConnection ;;
       initializeAudioConnection env ;;
       resetPeerConnection ;;
       createAudioOffer ;;
       emit (OnAudioStateChange listening true))
      (fun error =>
         assign (set_isListeningAudio false) ;;
         handleError Failed_to_start_listening_audio error).

Definition stopListeningAudio : M unit :=
  assign (set_isListeningAudio false) ;;
  emit (OnAudioStateChange listening false) ;;
  s <- this ;;
  when (isSome (remoteAudioElement s)) (assign (set_remoteAudioElement None)) ;;
  cleanupSafariAudio false.

Definition startSendingVideo (env : Env) : M unit :=
  s <- this ;;
  if isSendingVideo s then ret tt
  else
    try_catch
      (stream <- getUserMedia VideoFamily (camera env) ;;
       canvas <- fresh ;;
       assign (set_videoCanvas (Some canvas)) ;;
       assign (set_videoContext (Some canvas)) ;;
       assign (set_videoElement (Some stream)) ;;
       assign (set_isSendingVideo true) ;;
       initializeVideoConnection ;;
       waitForVideoDataChannel env ;;
       timer <- fresh ;;
       emit (SetInterval timer) ;;
       assign (set_videoInterval (Some timer)) ;;
       emit (OnVideoStateChange sending true))
      (fun error => handleError Failed_to_start_sending_video error).

(** [Only close video connection if both sending and viewing are stopped]:
    the block shared by [stopSendingVideo] and [stopViewingVideo]. *)
Definition closeVideoConnectionIfUnused : M unit :=
  s <- this ;;
  when (negb (isSendingVideo s) && negb (isViewingVideo s))
    (match videoPeerConnection s with
     | Some p => emit (ClosePeerConnection p) ;; assign (set_videoPeerConnection None)
     | None => ret tt
     end ;;
     match videoWsConnection s with
     | Some w => emit (CloseWebSocket (ws_handle w)) ;; assign (set_videoWsConnection None)
     | None => ret tt
     end ;;
     assign (set_videoDataChannel None)).

Definition stopSendingVideo : M unit :=
  s <- this ;;
  match videoDataChannel s with
  | Some d =>
      match dc_readyState d with
      | dc_open => emit (SendDataChannel (dc_handle d) stop_video)
      | _ => ret tt
      end
  | None => ret tt
  end ;;
  match videoInterval s with
  | Some timer => emit (ClearInterval timer) ;; assign (set_videoInterval None)
  | None => ret tt
  end ;;
  match videoElement s with
  | Some stream => emit (StopTracks stream) ;; assign (set_videoElement None)
  | None => ret tt
  end ;;
  assign (set_videoCanvas None) ;;
  assign (set_videoContext None) ;;
  assign (set_isSendingVideo false) ;;
  closeVideoConnectionIfUnused ;;
  emit (OnVideoStateChange sending false).

Definition startViewingVideo (env : Env) : M unit :=
  s <- this ;;
  if isViewingVideo s then ret tt
  else
    try_catch
      (assign (set_isViewingVideo true) ;;
       initializeVideoConnection ;;
       waitForVideoDataChannel env ;;
       timer <- fresh ;;
       emit (SetInterval timer) ;;
       assign (set_videoCleanupInterval (Some timer)) ;;
       emit (OnVideoStateChange viewing true))
      (fun error => handleError Failed_to_start_viewing_video error).

(** [startViewingVideo] gives the control back at its first [await]:
    what it does up to there ([true] when it goes on, [false] when it
    returns at once), and what it does when it is resumed.  Another call
    can run in between. *)
Definition startViewingVideo_begin : M bool :=
  s <- this ;;
  if isViewingVideo s then ret false
  else
    assign (set_isViewingVideo true) ;;
    initializeVideoConnection ;;
    ret true.

Definition startViewingVideo_resume (env : Env) : M unit :=
  try_catch
    (waitForVideoDataChannel env ;;
     timer <- fresh ;;
     emit (SetInterval timer) ;;
     assign (set_videoCleanupInterval (Some timer)) ;;
     emit (OnVideoStateChange viewing true))
    (fun error => handleError Failed_to_start_viewing_video error).

Fixpoint emitAll (es : list Event) : M unit :=
  match es with
  | [] => ret tt
  | e :: rest => emit e ;; emitAll rest
  end.

Definition stopViewingVideo : M unit :=
  assign (set_isViewingVideo false) ;;
  s <- this ;;
  match videoCleanupInterval s with
  | Some timer => emit (ClearInterval timer) ;; assign (set_videoCleanupInterval None)
  | None => ret tt
  end ;;
  emitAll (map (fun e => OnVideoSourceRemove (fst e)) (receivedVideos s)) ;;
  emitAll (map (fun e => RevokeObjectURL (url (snd e))) (receivedVideos s)) ;;
  assign (set_receivedVideos []) ;;
  closeVideoConnectionIfUnused ;;
  emit (OnVideoStateChange viewing false).

(** What the browser does in one turn of the capture loop: whether the
    video element has its dimensions yet, whether [drawImage] throws, what
    [canvas.toBlob] hands to the callback ([None] for null), and the image
    that the Safari fallback gets out of [canvas.toDataURL] ([None] when
    the fallback throws). *)
Record Capture : Type := mkCapture {
  hasDimensions : bool;
  drawImageThrows : bool;
  blob : option (list byte);
  dataURLImage : option (list byte) }.

(** [n++] on the frame counter, a Number that holds an integer from 0 to
    2^53: up to 2^53 - 1 the sum is exact; at 2^53 the sum 2^53 + 1 is not
    a binary64 number and rounds back to 2^53, so the counter stays there. *)
Definition postIncrement (n : Z) : Z := if n <? 2 ^ 53 then n + 1 else n.

(** [sendVideoFrame], with the callbacks of [toBlob] and of the
    [FileReader] run at once; [send] on an open channel returns. *)
Definition sendVideoFrame (nowMs : Z) (c : Capture) : M unit :=
  s <- this ;;
  match videoContext s, videoElement s, videoDataChannel s with
  | Some _, Some _, Some d =>
    match dc_readyState d with
    | dc_open =>
      if negb (hasDimensions c) then ret tt
      else if drawImageThrows c then emit LogError
      else
        let send image :=
          assign (set_videoFrameNumber (postIncrement (videoFrameNumber s))) ;;
          emit (SendDataChannel (dc_handle d)
                  (videoFrame (buildVideoMessage (clientId s) (nanoseconds nowMs)
                                 (videoFrameNumber s) image))) in
        match blob c with
        | Some image => send image
        | None =>
            emit LogError ;;
            when (isSafari s)
              (match dataURLImage c with
               | Some image => send image
               | None => emit LogError
               end)
        end
    | _ => ret tt
    end
  | _, _, _ => ret tt
  end.

(** *** Readings of a run *)

(** The four leg flags. *)
Definition legFlags (s : TankRTC) : bool * bool * bool * bool :=
  (isSendingAudio s, isListeningAudio s, isSendingVideo s, isViewingVideo s).


Definition isStateChange (e : Event) : bool :=
  match e with
  | OnAudioStateChange _ _ | OnVideoStateChange _ _ => true
  | _ => false
  end.

Definition isLinkEvent (e : Event) : bool :=
  match e with
  | NewWebSocket _ _ | CloseWebSocket _ | NewPeerConnection _
  | ClosePeerConnection _ => true
  | _ => false
  end.

Definition isErrorEvent (e : Event) : bool :=
  match e with OnError _ _ => true | _ => false end.

Definition isSourceRemove (e : Event) : bool :=
  match e with OnVideoSourceRemove _ => true | _ => false end.

Definition isRevoke (e : Event) : bool :=
  match e with RevokeObjectURL _ => true | _ => false end.


Definition isStopTracks (e : Event) : bool :=
  match e with StopTracks _ => true | _ => false end.

Definition isLogError (e : Event) : bool :=
  match e with LogError => true | _ => false end.

Definition isFrameSend (e : Event) : bool :=
  match e with SendDataChannel _ (videoFrame _) => true | _ => false end.

(** The run closes the socket and the peer connection that were there. *)
Definition closesLink (ws : option WebSocket) (pc : option Handle)
    (tr : list Event) : Prop :=
  (forall w, ws = Some w -> In (CloseWebSocket (ws_handle w)) tr)
  /\ (forall p, pc = Some p -> In (ClosePeerConnection p) tr).




(** *** Sample data *)

Definition bytes (l : list Z) : list byte := map byte_of_Z l.

(** A JPEG container whose SOF0 segment declares 64 x 64. *)
Definition jpeg64x64 : list byte :=
  bytes [0xFF; 0xD8; 0xFF; 0xC0; 0x00; 0x11; 0x08; 0x00; 0x40; 0x00; 0x40;
         0x03; 0x01; 0x22; 0x00; 0x02; 0x11; 0x01; 0x03; 0x11; 0x01;
         0xFF; 0xD9].

(** A container cut one byte into the length field of its first segment. *)
Definition jpegCut : list byte := bytes [0xFF; 0xD8; 0xFF; 0xE0; 0x00].

(** The identifiers "p1" and "me". *)
Definition p1 : JSString := [0x70; 0x31].
Definition me : JSString := [0x6D; 0x65].

Definition idle : TankRTC := newTankRTC me DEFAULT_CONFIG false.

(** Everything is granted and opens, but for the video data channel. *)
Definition noVideoChannel : Env := mkEnv true true true false false.
(** Everything is granted, but the audio socket reports an error. *)
Definition noAudioSocket : Env := mkEnv true true false true false.
Definition allGood : Env := mkEnv true true true true false.

(** The object once [startSendingVideo], or [startViewingVideo], has
    succeeded on [idle]. *)
Definition sendingVideo : TankRTC := final (startSendingVideo allGood idle).
Definition viewingVideo : TankRTC := final (startViewingVideo allGood idle).

(** Two frames of "p1", captured at 1000 ms and at 2000 ms. *)
Definition frame7 : list byte := buildVideoMessage p1 (nanoseconds 1000) 7 jpeg64x64.
Definition frame8 : list byte := buildVideoMessage p1 (nanoseconds 2000) 8 jpeg64x64.

(** The viewing object once the first frame has been received at 1000 ms;
    the sending object, whose view leg is idle, once it has received the
    same frame on the data channel it shares. *)
Definition watchingP1 : TankRTC :=
  final (handleIncomingVideoMessage 1000 frame7 viewingVideo).
Definition sendingWithFrame : TankRTC :=
  final (handleIncomingVideoMessage 1000 frame7 sendingVideo).

(** The object once [startListeningAudio] has succeeded on [idle]: it
    holds an open audio socket and an audio peer connection. *)
Definition listeningAudio : TankRTC := final (startListeningAudio allGood idle).


(** A buffer of 1100 bytes that declares an identity of 1001 bytes. *)
Definition declares1001 : list byte := setUint32 0 1001 (newArrayBuffer 1100).

(** *** The session *)

(** [connect]: the sockets are opened later, by the legs. *)
Definition connect : M bool :=
  assign (set_isConnected true) ;;
  emit OnConnect ;;
  ret true.

Definition disconnect : M unit :=
  stopSendingAudio ;;
  stopListeningAudio ;;
  stopSendingVideo ;;
  stopViewingVideo ;;
  cleanupSafariAudio true ;;
  s <- this ;;
  match audioWsConnection s with
  | Some w => emit (CloseWebSocket (ws_handle w)) ;; assign (set_audioWsConnection None)
  | None => ret tt
  end ;;
  match videoWsConnection s with
  | Some w => emit (CloseWebSocket (ws_handle w)) ;; assign (set_videoWsConnection None)
  | None => ret tt
  end ;;
  match audioPeerConnection s with
  | Some p => emit (ClosePeerConnection p) ;; assign (set_audioPeerConnection None)
  | None => ret tt
  end ;;
  match videoPeerConnection s with
  | Some p => emit (ClosePeerConnection p) ;; assign (set_videoPeerConnection None)
  | None => ret tt
  end ;;
  emitAll (map (fun e => RevokeObjectURL (url (snd e))) (receivedVideos s)) ;;
  assign (set_receivedVideos []) ;;
  assign (set_isConnected false) ;;
  emit OnDisconnect.

(** [getConnectionState]: the five flags, in the order of the source. *)
Definition getConnectionState (s : TankRTC) : bool * bool * bool * bool * bool :=
  (isConnected s, isSendingAudio s, isListeningAudio s, isSendingVideo s,
   isViewingVideo s).

(** What arrives on the video data channel: a buffer, or a text that
    [JSON.parse] reads as a message of type [video-add], [video-remove] or
    another type, or does not read at all. *)
Inductive ChannelMessage : Type :=
| BinaryMessage (data : list byte)
| VideoAdd (clientID : JSString)
| VideoRemove (clientID : JSString)
| UnknownText
| MalformedText.

(** [dataChannel.onmessage], set in [sendVideoOffer]. *)
Definition onDataChannelMessage (nowMs : Z) (m : ChannelMessage) : M unit :=
  match m with
  | BinaryMessage data => handleIncomingVideoMessage nowMs data ;; ret tt
  | VideoAdd _ => ret tt
  | VideoRemove clientID => onVideoRemoveMessage clientID
  | UnknownText => ret tt
  | MalformedText => emit LogError
  end.

(** *** The life of an object *)

(** What can happen to an object: a call of one of its public methods,
    with what the browser does during the call, a message on the video
    data channel, or a tick of one of its two timers. *)
Inductive Call : Type :=
| call_connect
| call_disconnect
| call_startSendingAudio (env : Env)
| call_stopSendingAudio
| call_startListeningAudio (env : Env)
| call_stopListeningAudio
| call_startSendingVideo (env : Env)
| call_stopSendingVideo
| call_startViewingVideo (env : Env)
| call_stopViewingVideo
| on_dataChannelMessage (nowMs : Z) (m : ChannelMessage)
| tick_cleanupOldVideos (nowMs : Z)
| tick_sendVideoFrame (nowMs : Z) (c : Capture).

(** The object after the call. *)
Definition after (c : Call) (s : TankRTC) : TankRTC :=
  match c with
  | call_connect => final (connect s)
  | call_disconnect => final (disconnect s)
  | call_startSendingAudio env => final (startSendingAudio env s)
  | call_stopSendingAudio => final (stopSendingAudio s)
  | call_startListeningAudio env => final (startListeningAudio env s)
  | call_stopListeningAudio => final (stopListeningAudio s)
  | call_startSendingVideo env => final (startSendingVideo env s)
  | call_stopSendingVideo => final (stopSendingVideo s)
  | call_startViewingVideo env => final (startViewingVideo env s)
  | call_stopViewingVideo => final (stopViewingVideo s)
  | on_dataChannelMessage nowMs m => final (onDataChannelMessage nowMs m s)
  | tick_cleanupOldVideos nowMs => final (cleanupOldVideos nowMs s)
  | tick_sendVideoFrame nowMs c => final (sendVideoFrame nowMs c s)
  end.

(** The object after a history of calls, the first one first.  Each call
    has settled before the next one is made: a call that falls inside a
    pending start is not such a history (see [startViewingVideo_begin]). *)
Definition afterAll (history : list Call) (s : TankRTC) : TankRTC :=
  fold_left (fun s c => after c s) history s.

(** The two families of fields: what belongs to the audio legs and what
    belongs to the video legs. *)
Definition audioSide (s : TankRTC) :=
  (isSendingAudio s, isListeningAudio s, audioWsConnection s, audioPeerConnection s,
   localStream s, remoteAudioElement s).

Definition videoSide (s : TankRTC) :=
  (isSendingVideo s, isViewingVideo s, videoWsConnection s, videoPeerConnection s,
   videoDataChannel s, videoInterval s, videoCleanupInterval s, videoElement s,
   videoCanvas s, videoContext s, receivedVideos s, videoFrameNumber s).

Definition isAudioCall (c : Call) : bool :=
  match c with
  | call_startSendingAudio _ | call_stopSendingAudio
  | call_startListeningAudio _ | call_stopListeningAudio => true
  | _ => false
  end.

Definition isVideoCall (c : Call) : bool :=
  match c with
  | call_startSendingVideo _ | call_stopSendingVideo
  | call_startViewingVideo _ | call_stopViewingVideo
  | on_dataChannelMessage _ _ | tick_cleanupOldVideos _ | tick_sendVideoFrame _ _ => true
  | _ => false
  end.

(** A video socket, peer connection or data channel is held only while one
    of the two video flags is set. *)
Definition linkHeldWhileActive (s : TankRTC) : bool :=
  isSendingVideo s || isViewingVideo s
  || (negb (isSome (videoWsConnection s)) && negb (isSome (videoPeerConnection s))
      && negb (isSome (videoDataChannel s))).

(** The frame counter is an integer from 0 to 2^53. *)
Definition counterInRange (s : TankRTC) : bool :=
  (0 <=? videoFrameNumber s) && (videoFrameNumber s <=? 2 ^ 53).

(** The capture timer and the camera are held only under the flag of the
    send leg, the sweep timer only under the flag of the view leg. *)
Definition heldWhileActive (s : TankRTC) : bool :=
  implb (isSome (videoInterval s)) (isSendingVideo s)
  && implb (isSome (videoElement s)) (isSendingVideo s)
  && implb (isSome (videoCleanupInterval s)) (isViewingVideo s).

(** *** JPEG containers, for the statements about the scanner *)

(** A segment: the marker, the two length bytes (the length counts
    itself) and the body. *)
Definition segment (marker : Z) (body : list byte) : list byte :=
  bytes [0xFF; marker] ++ be_bytes 2 (2 + byteLength body) ++ body.

(** The start of a frame header: marker, length, sample precision, height
    and width. *)
Definition frameHeader (marker len precision height width : Z) : list byte :=
  bytes [0xFF; marker] ++ be_bytes 2 len ++ bytes [precision]
    ++ be_bytes 2 height ++ be_bytes 2 width.

(** A marker that the scanner steps over: a byte other than 0 and outside
    0xC0..0xC3. *)
Definition isSkippedMarker (marker : Z) : bool :=
  (1 <=? marker) && (marker <=? 255)
  && negb ((0xC0 <=? marker) && (marker <=? 0xC3)).

Definition isFrameMarker (marker : Z) : bool :=
  (0xC0 <=? marker) && (marker <=? 0xC3).

(** Segments whose markers are stepped over and whose length fits its two
    bytes. *)
Definition skippable (seg : Z * list byte) : bool :=
  isSkippedMarker (fst seg) && (2 + byteLength (snd seg) <? 65536).

Definition segments (segs : list (Z * list byte)) : list byte :=
  flat_map (fun seg => segment (fst seg) (snd seg)) segs.

End Sdk.

(** * Facts *)

(** Runs a method on a state as far as the state is known. *)
Ltac run :=
  cbv [Sdk.bind Sdk.ret Sdk.this Sdk.assign Sdk.emit Sdk.fresh Sdk.throw
       Sdk.try_catch Sdk.when Sdk.completion Sdk.final Sdk.trace fst snd].

(** ** Sequencing *)

Module MonadFacts.
Import Sdk.




Lemma this_bind {A} (k : TankRTC -> M A) (s : TankRTC) : bind this k s = k s s.
Proof. unfold bind, this. now destruct (k s s) as [[c s2] t2]. Qed.

End MonadFacts.

(** ** Buffers *)

Module BytesFacts.
Import Bytes.

Lemma byte_to_Z_range (b : byte) : 0 <= byte_to_Z b < 256.
Proof.
  unfold byte_to_Z. pose proof (Byte.to_N_bounded b). lia.
Qed.

Lemma byte_to_of_Z (z : Z) : byte_to_Z (byte_of_Z z) = z mod 256.
Proof.
  unfold byte_to_Z, byte_of_Z.
  pose proof (Z.mod_pos_bound z 256 ltac:(lia)) as Hr.
  destruct (Byte.of_N (Z.to_N (z mod 256))) as [b|] eqn:E.
  - apply Byte.to_of_N in E. rewrite E. lia.
  - apply Byte.of_N_None_iff in E. lia.
Qed.

Lemma byte_to_of_Z_small (z : Z) : 0 <= z < 256 -> byte_to_Z (byte_of_Z z) = z.
Proof. intros H. rewrite byte_to_of_Z. apply Z.mod_small; lia. Qed.

Lemma byte_of_to_Z (b : byte) : byte_of_Z (byte_to_Z b) = b.
Proof.
  unfold byte_of_Z. pose proof (byte_to_Z_range b) as Hr.
  rewrite Z.mod_small by lia. unfold byte_to_Z. rewrite N2Z.id.
  now rewrite Byte.of_to_N.
Qed.

Lemma length_be_bytes (n : nat) (v : Z) : length (be_bytes n v) = n.
Proof. induction n; simpl; congruence. Qed.

Lemma be_value_app (acc : Z) (xs ys : list byte) :
  be_value acc (xs ++ ys) = be_value (be_value acc xs) ys.
Proof. revert acc; induction xs as [|x xs IH]; intros; simpl; auto. Qed.

Lemma be_value_be_bytes (n : nat) (acc v : Z) :
  be_value acc (be_bytes n v) = acc * 2 ^ (8 * Z.of_nat n) + v mod 2 ^ (8 * Z.of_nat n).
Proof.
  revert acc; induction n as [|k IH]; intros acc.
  - simpl. rewrite Z.mod_1_r. lia.
  - cbn [be_bytes be_value]. rewrite IH, byte_to_of_Z, Z.shiftr_div_pow2 by lia.
    replace (8 * Z.of_nat (S k)) with (8 * Z.of_nat k + 8) by lia.
    rewrite Z.pow_add_r by lia.
    assert (Hp : 0 < 2 ^ (8 * Z.of_nat k)) by (apply Z.pow_pos_nonneg; lia).
    change (2 ^ 8) with 256.
    rewrite (Z.rem_mul_r v (2 ^ (8 * Z.of_nat k)) 256) by lia.
    lia.
Qed.

Lemma byteLength_app (xs ys : list byte) :
  byteLength (xs ++ ys) = byteLength xs + byteLength ys.
Proof. unfold byteLength. rewrite length_app. lia. Qed.

Lemma byteLength_nonneg (xs : list byte) : 0 <= byteLength xs.
Proof. unfold byteLength. lia. Qed.

Lemma byteLength_be_bytes (n : nat) (v : Z) : byteLength (be_bytes n v) = Z.of_nat n.
Proof. unfold byteLength. now rewrite length_be_bytes. Qed.

Lemma getUint_app (n : nat) (pre post : list byte) (v : Z) :
  getUint n (pre ++ be_bytes n v ++ post) (byteLength pre) = Some (v mod 2 ^ (8 * Z.of_nat n)).
Proof.
  unfold getUint.
  assert (E : (0 <=? byteLength pre)
              && (byteLength pre + Z.of_nat n <=? byteLength (pre ++ be_bytes n v ++ post)) = true).
  { rewrite !byteLength_app, byteLength_be_bytes.
    pose proof (byteLength_nonneg pre). pose proof (byteLength_nonneg post).
    apply andb_true_iff; split; apply Z.leb_le; lia. }
  rewrite E. f_equal. unfold byteLength.
  rewrite Nat2Z.id, skipn_app, skipn_all, Nat.sub_diag. simpl skipn. simpl app.
  rewrite firstn_app, length_be_bytes, Nat.sub_diag. simpl firstn at 2.
  rewrite app_nil_r, firstn_all2 by (rewrite length_be_bytes; lia).
  rewrite be_value_be_bytes. lia.
Qed.

Lemma write_at_app (off : Z) (bs pre old post : list byte) :
  length pre = Z.to_nat off -> length old = length bs ->
  write_at off bs (pre ++ old ++ post) = pre ++ bs ++ post.
Proof.
  intros Hp Ho. unfold write_at. rewrite <- Hp.
  rewrite firstn_app, firstn_all, Nat.sub_diag. simpl firstn. rewrite app_nil_r.
  f_equal. f_equal.
  rewrite skipn_app. rewrite (skipn_all2 pre) by lia. simpl app.
  replace (length pre + length bs - length pre)%nat with (length old) by lia.
  rewrite skipn_app, skipn_all, Nat.sub_diag. reflexivity.
Qed.

Lemma slice_app (pre mid post : list byte) :
  slice (pre ++ mid ++ post) (byteLength pre) (byteLength pre + byteLength mid) = mid.
Proof.
  unfold slice, clampIndex, byteLength. rewrite !length_app.
  destruct (Z.ltb_spec (Z.of_nat (length pre)) 0); [lia|].
  destruct (Z.ltb_spec (Z.of_nat (length pre) + Z.of_nat (length mid)) 0); [lia|].
  rewrite !Z.min_l by lia.
  replace (Z.max (Z.of_nat (length pre) + Z.of_nat (length mid) - Z.of_nat (length pre)) 0)
    with (Z.of_nat (length mid)) by lia.
  rewrite !Nat2Z.id, skipn_app, skipn_all, Nat.sub_diag. simpl.
  rewrite firstn_app, firstn_all, Nat.sub_diag. simpl. apply app_nil_r.
Qed.

Lemma slice_from_app (pre post : list byte) :
  slice_from (pre ++ post) (byteLength pre) = post.
Proof.
  unfold slice_from, slice, clampIndex, byteLength. rewrite !length_app.
  destruct (Z.ltb_spec (Z.of_nat (length pre)) 0); [lia|].
  destruct (Z.ltb_spec (Z.of_nat (length pre + length post)) 0); [lia|].
  rewrite !Z.min_l by lia.
  replace (Z.max (Z.of_nat (length pre + length post) - Z.of_nat (length pre)) 0)
    with (Z.of_nat (length post)) by lia.
  rewrite !Nat2Z.id, skipn_app, skipn_all, Nat.sub_diag. simpl.
  apply firstn_all.
Qed.

Lemma newArrayBuffer_add (a b : Z) :
  0 <= a -> 0 <= b ->
  newArrayBuffer (a + b) = newArrayBuffer a ++ newArrayBuffer b.
Proof.
  intros Ha Hb. unfold newArrayBuffer. rewrite Z2Nat.inj_add by lia.
  apply repeat_app.
Qed.

Lemma length_newArrayBuffer (n : Z) : length (newArrayBuffer n) = Z.to_nat n.
Proof. apply repeat_length. Qed.

End BytesFacts.

(** ** UTF-8 *)

Module TextFacts.
Import Bytes Text BytesFacts.

Ltac zlia := Z.div_mod_to_equations; lia.

Lemma is_scalar_range (c : Z) :
  is_scalar c = true <-> (0 <= c < 0xD800 \/ 0xE000 <= c <= 0x10FFFF).
Proof.
  unfold is_scalar, is_surrogate.
  destruct (Z.leb_spec 0 c), (Z.leb_spec c 0x10FFFF), (Z.leb_spec 0xD800 c),
    (Z.leb_spec c 0xDFFF); simpl; split; intros; try lia; try discriminate; auto.
Qed.

Lemma utf8_step_more (st : Utf8State) (b : Z) :
  u_needed st <> 0 -> u_seen st + 1 <> u_needed st ->
  u_lower st <= b <= u_upper st ->
  utf8_step st b =
    ([], mkUtf8State (u_cp st * 64 + b mod 64) (u_seen st + 1) (u_needed st) 0x80 0xBF).
Proof.
  intros Hn Hs Hb. unfold utf8_step.
  destruct (Z.eqb_spec (u_needed st) 0); [contradiction|].
  destruct (Z.leb_spec (u_lower st) b); [|lia].
  destruct (Z.leb_spec b (u_upper st)); [|lia]. cbn [andb negb].
  destruct (Z.eqb_spec (u_seen st + 1) (u_needed st)); [contradiction|reflexivity].
Qed.

Lemma utf8_step_last (st : Utf8State) (b : Z) :
  u_needed st <> 0 -> u_seen st + 1 = u_needed st ->
  u_lower st <= b <= u_upper st ->
  utf8_step st b = ([u_cp st * 64 + b mod 64], utf8_init).
Proof.
  intros Hn Hs Hb. unfold utf8_step.
  destruct (Z.eqb_spec (u_needed st) 0); [contradiction|].
  destruct (Z.leb_spec (u_lower st) b); [|lia].
  destruct (Z.leb_spec b (u_upper st)); [|lia]. cbn [andb negb].
  destruct (Z.eqb_spec (u_seen st + 1) (u_needed st)); [reflexivity|contradiction].
Qed.

Lemma utf8_decode_cons (st : Utf8State) (z : Z) (rest : list byte) :
  0 <= z < 256 ->
  utf8_decode_from st (byte_of_Z z :: rest) =
    fst (utf8_step st z) ++ utf8_decode_from (snd (utf8_step st z)) rest.
Proof.
  intros Hz. cbn [utf8_decode_from]. rewrite byte_to_of_Z_small by assumption.
  now destruct (utf8_step st z).
Qed.

Ltac proj := cbn [u_needed u_seen u_lower u_upper u_cp fst snd app].

Lemma utf8_decode_encode_cp (c : Z) (rest : list byte) :
  is_scalar c = true ->
  utf8_decode_from utf8_init (utf8_encode_cp c ++ rest) = c :: utf8_decode_from utf8_init rest.
Proof.
  intros Hc. apply is_scalar_range in Hc. unfold utf8_encode_cp.
  destruct (Z.ltb_spec c 0x80) as [H1|H1].
  { cbn [app]. rewrite utf8_decode_cons by lia.
    unfold utf8_step, utf8_lead; cbn [u_needed utf8_init Z.eqb].
    destruct (Z.leb_spec c 0x7F); [reflexivity|lia]. }
  destruct (Z.ltb_spec c 0x800) as [H2|H2].
  { cbn [app]. rewrite utf8_decode_cons by zlia.
    assert (E1 : utf8_step utf8_init (0xC0 + c / 64)
                 = ([], mkUtf8State (c / 64) 0 1 0x80 0xBF)).
    { unfold utf8_step, utf8_lead; cbn [u_needed utf8_init Z.eqb].
      destruct (Z.leb_spec (0xC0 + c / 64) 0x7F); [exfalso; zlia|].
      destruct (Z.leb_spec 0xC2 (0xC0 + c / 64)); [|exfalso; zlia].
      destruct (Z.leb_spec (0xC0 + c / 64) 0xDF); [|exfalso; zlia].
      cbn [andb]. f_equal. f_equal. zlia. }
    rewrite E1. proj.
    rewrite utf8_decode_cons by zlia.
    rewrite utf8_step_last by (proj; zlia). proj.
    f_equal. zlia. }
  destruct (Z.ltb_spec c 0x10000) as [H3|H3].
  { cbn [app]. rewrite utf8_decode_cons by zlia.
    assert (E1 : utf8_step utf8_init (0xE0 + c / 4096)
                 = ([], mkUtf8State (c / 4096) 0 2
                          (if 0xE0 + c / 4096 =? 0xE0 then 0xA0 else 0x80)
                          (if 0xE0 + c / 4096 =? 0xED then 0x9F else 0xBF))).
    { unfold utf8_step, utf8_lead; cbn [u_needed utf8_init Z.eqb].
      destruct (Z.leb_spec (0xE0 + c / 4096) 0x7F); [exfalso; zlia|].
      destruct (Z.leb_spec 0xC2 (0xE0 + c / 4096)); [|exfalso; zlia].
      destruct (Z.leb_spec (0xE0 + c / 4096) 0xDF); [exfalso; zlia|].
      destruct (Z.leb_spec 0xE0 (0xE0 + c / 4096)); [|exfalso; zlia].
      destruct (Z.leb_spec (0xE0 + c / 4096) 0xEF); [|exfalso; zlia].
      cbn [andb]. f_equal. f_equal. zlia. }
    rewrite E1. proj.
    rewrite utf8_decode_cons by zlia.
    rewrite utf8_step_more.
    2, 3: proj; lia.
    2: { proj.
         destruct (Z.eqb_spec (0xE0 + c / 4096) 0xE0);
           destruct (Z.eqb_spec (0xE0 + c / 4096) 0xED); zlia. }
    proj.
    rewrite utf8_decode_cons by zlia.
    rewrite utf8_step_last by (proj; zlia). proj.
    f_equal. zlia. }
  { cbn [app]. rewrite utf8_decode_cons by zlia.
    assert (E1 : utf8_step utf8_init (0xF0 + c / 262144)
                 = ([], mkUtf8State (c / 262144) 0 3
                          (if 0xF0 + c / 262144 =? 0xF0 then 0x90 else 0x80)
                          (if 0xF0 + c / 262144 =? 0xF4 then 0x8F else 0xBF))).
    { unfold utf8_step, utf8_lead; cbn [u_needed utf8_init Z.eqb].
      destruct (Z.leb_spec (0xF0 + c / 262144) 0x7F); [exfalso; zlia|].
      destruct (Z.leb_spec 0xC2 (0xF0 + c / 262144)); [|exfalso; zlia].
      destruct (Z.leb_spec (0xF0 + c / 262144) 0xDF); [exfalso; zlia|].
      destruct (Z.leb_spec 0xE0 (0xF0 + c / 262144)); [|exfalso; zlia].
      destruct (Z.leb_spec (0xF0 + c / 262144) 0xEF); [exfalso; zlia|].
      destruct (Z.leb_spec 0xF0 (0xF0 + c / 262144)); [|exfalso; zlia].
      destruct (Z.leb_spec (0xF0 + c / 262144) 0xF4); [|exfalso; zlia].
      cbn [andb]. f_equal. f_equal. zlia. }
    rewrite E1. proj.
    rewrite utf8_decode_cons by zlia.
    rewrite utf8_step_more.
    2, 3: proj; lia.
    2: { proj.
         destruct (Z.eqb_spec (0xF0 + c / 262144) 0xF0);
           destruct (Z.eqb_spec (0xF0 + c / 262144) 0xF4); zlia. }
    proj.
    rewrite utf8_decode_cons by zlia.
    rewrite utf8_step_more by (proj; zlia). proj.
    rewrite utf8_decode_cons by zlia.
    rewrite utf8_step_last by (proj; zlia). proj.
    f_equal. zlia. }
Qed.

Lemma utf8_decode_encode (s : JSString) :
  forallb is_scalar s = true ->
  utf8_decode_from utf8_init (TextEncoder_encode s) = s.
Proof.
  induction s as [|c s IH]; intros Hs; [reflexivity|].
  cbn [forallb] in Hs. apply andb_true_iff in Hs as [Hc Hs].
  cbn [TextEncoder_encode flat_map]. rewrite Hc.
  rewrite utf8_decode_encode_cp by assumption. f_equal. now apply IH.
Qed.

Lemma TextDecoder_TextEncoder (s : JSString) :
  forallb is_scalar s = true -> startsWithBOM s = false ->
  TextDecoder_decode (TextEncoder_encode s) = s.
Proof.
  intros Hs Hb. unfold TextDecoder_decode. rewrite utf8_decode_encode by assumption.
  destruct s as [|c s]; [reflexivity|]. cbn [startsWithBOM] in Hb.
  apply Z.eqb_neq in Hb.
  destruct c as [|p|p]; try reflexivity.
  repeat (destruct p as [p|p|]; try reflexivity). contradiction.
Qed.

End TextFacts.

(** ** The envelope: what is sent is what is read *)

Module EnvelopeFacts.
Import Bytes Text Jpeg Sdk BytesFacts TextFacts.

(** The message of [sendVideoFrame] is the five fields one after the other. *)
Lemma buildVideoMessage_layout (id : JSString) (ts frameNo : Z) (blob : list byte) :
  buildVideoMessage id ts frameNo blob =
    be_bytes 4 (byteLength (TextEncoder_encode id)) ++ TextEncoder_encode id
      ++ be_bytes 8 ts ++ be_bytes 4 frameNo ++ blob.
Proof.
  unfold buildVideoMessage, setUint32, setBigUint64. cbv zeta.
  set (idB := TextEncoder_encode id). set (L := byteLength idB).
  pose proof (byteLength_nonneg idB) as HL. fold L in HL.
  pose proof (byteLength_nonneg blob) as HP.
  replace (4 + L + 8 + 4 + byteLength blob) with (4 + (L + (8 + (4 + byteLength blob)))) by lia.
  rewrite !newArrayBuffer_add by lia.
  set (z4 := newArrayBuffer 4). set (zL := newArrayBuffer L).
  set (z8 := newArrayBuffer 8). set (zP := newArrayBuffer (byteLength blob)).
  assert (HzL : length zL = length idB).
  { unfold zL. rewrite length_newArrayBuffer. unfold L, byteLength. apply Nat2Z.id. }
  assert (HzP : length zP = length blob).
  { unfold zP. rewrite length_newArrayBuffer. unfold byteLength. apply Nat2Z.id. }
  pose proof (write_at_app 0 (be_bytes 4 L) [] z4 (zL ++ z8 ++ z4 ++ zP) eq_refl eq_refl) as E0.
  cbn [app] in E0. rewrite E0. clear E0.
  rewrite (write_at_app 4 idB (be_bytes 4 L) zL (z8 ++ z4 ++ zP))
    by (rewrite ?length_be_bytes; auto).
  rewrite (app_assoc (be_bytes 4 L) idB).
  rewrite (write_at_app (4 + L) (be_bytes 8 ts) (be_bytes 4 L ++ idB) z8 (z4 ++ zP)).
  2: { rewrite length_app, length_be_bytes. unfold L, byteLength. lia. }
  2: reflexivity.
  rewrite (app_assoc (be_bytes 4 L ++ idB) (be_bytes 8 ts)).
  rewrite (write_at_app (12 + L) (be_bytes 4 frameNo)
             ((be_bytes 4 L ++ idB) ++ be_bytes 8 ts) z4 zP).
  2: { rewrite !length_app, !length_be_bytes. unfold L, byteLength. lia. }
  2: reflexivity.
  rewrite (app_assoc ((be_bytes 4 L ++ idB) ++ be_bytes 8 ts) (be_bytes 4 frameNo)).
  rewrite <- (app_nil_r zP).
  rewrite (write_at_app (16 + L) blob
             (((be_bytes 4 L ++ idB) ++ be_bytes 8 ts) ++ be_bytes 4 frameNo) zP []).
  2: { rewrite !length_app, !length_be_bytes. unfold L, byteLength. lia. }
  2: assumption.
  rewrite app_nil_r, <- !app_assoc. reflexivity.
Qed.

Lemma byteLength_buildVideoMessage (id : JSString) (ts frameNo : Z) (blob : list byte) :
  byteLength (buildVideoMessage id ts frameNo blob)
  = 16 + byteLength (TextEncoder_encode id) + byteLength blob.
Proof.
  rewrite buildVideoMessage_layout, !byteLength_app, !byteLength_be_bytes. lia.
Qed.

(** What [parseEnvelope] makes of a message of [sendVideoFrame]. *)
Lemma parseEnvelope_buildVideoMessage (id : JSString) (ts frameNo : Z) (blob : list byte) :
  let L := byteLength (TextEncoder_encode id) in
  20 <= 16 + L + byteLength blob ->
  1 <= L <= 1000 ->
  blob <> [] ->
  let decoded := TextDecoder_decode (TextEncoder_encode id) in
  isEmpty decoded || isEmpty (trim decoded) = false ->
  parseEnvelope (buildVideoMessage id ts frameNo blob)
  = Parsed (mkEnvelope decoded (ts mod 2 ^ 64) (frameNo mod 2 ^ 32) blob).
Proof.
  intros L Hlen HL Hblob decoded Hid. unfold parseEnvelope.
  rewrite byteLength_buildVideoMessage. fold L.
  destruct (Z.ltb_spec (16 + L + byteLength blob) 20); [lia|].
  rewrite buildVideoMessage_layout. fold L.
  set (idB := TextEncoder_encode id) in *.
  assert (HP : 1 <= byteLength blob).
  { destruct blob; [contradiction|]. unfold byteLength. cbn [length]. lia. }
  (* clientIDLen *)
  pose proof (getUint_app 4 [] (idB ++ be_bytes 8 ts ++ be_bytes 4 frameNo ++ blob) L) as E0.
  cbn [app] in E0. change (byteLength []) with 0 in E0.
  unfold getUint32. rewrite E0.
  change (2 ^ (8 * Z.of_nat 4)) with 4294967296.
  rewrite (Z.mod_small L) by lia.
  destruct (Z.leb_spec L 0); [lia|]. destruct (Z.ltb_spec 1000 L); [lia|].
  destruct (Z.ltb_spec (16 + L + byteLength blob) (L + 16)); [lia|]. cbn [orb].
  (* clientID *)
  replace (slice (be_bytes 4 L ++ idB ++ be_bytes 8 ts ++ be_bytes 4 frameNo ++ blob) 4 (4 + L))
    with idB.
  2: { symmetry.
       apply (slice_app (be_bytes 4 L) idB (be_bytes 8 ts ++ be_bytes 4 frameNo ++ blob)). }
  fold decoded. rewrite Hid.
  (* timestamp *)
  unfold getBigUint64.
  pose proof (getUint_app 8 (be_bytes 4 L ++ idB) (be_bytes 4 frameNo ++ blob) ts) as E1.
  rewrite byteLength_app, byteLength_be_bytes in E1. fold L in E1.
  rewrite <- app_assoc in E1. change (Z.of_nat 4 + L) with (4 + L) in E1. rewrite E1.
  (* frameNumber *)
  pose proof (getUint_app 4 (be_bytes 4 L ++ idB ++ be_bytes 8 ts) blob frameNo) as E2.
  rewrite !byteLength_app, !byteLength_be_bytes in E2. fold L in E2.
  rewrite <- !app_assoc in E2.
  replace (Z.of_nat 4 + (L + Z.of_nat 8)) with (12 + L) in E2 by lia. rewrite E2.
  (* videoData *)
  pose proof (slice_from_app (be_bytes 4 L ++ idB ++ be_bytes 8 ts ++ be_bytes 4 frameNo) blob) as E3.
  rewrite !byteLength_app, !byteLength_be_bytes in E3. fold L in E3.
  rewrite <- !app_assoc in E3.
  replace (Z.of_nat 4 + (L + (Z.of_nat 8 + Z.of_nat 4))) with (16 + L) in E3 by lia.
  rewrite E3.
  destruct (Z.eqb_spec (byteLength blob) 0); [lia|]. reflexivity.
Qed.

(** C1, as amended.  Take an identity that [TextEncoder] and [TextDecoder]
    carry unchanged (no lone surrogate, no U+FEFF in front), that is not
    blank and whose UTF-8 form has 1 to 1000 bytes, any u64 timestamp, any
    u32 frame number and a payload of at least one byte, such that the
    message has at least 20 bytes.  Reading the message of [sendVideoFrame]
    gives back the four fields. *)
Theorem round_trip (id : JSString) (ts frameNo : Z) (blob : list byte) :
  isWellFormed id = true ->
  isEmpty (trim id) = false ->
  1 <= byteLength (TextEncoder_encode id) <= 1000 ->
  0 <= ts < 2 ^ 64 ->
  0 <= frameNo < 2 ^ 32 ->
  1 <= byteLength blob ->
  20 <= 16 + byteLength (TextEncoder_encode id) + byteLength blob ->
  parseEnvelope (buildVideoMessage id ts frameNo blob)
  = Parsed (mkEnvelope id ts frameNo blob).
Proof.
  intros Hwf Hblank HL Hts Hfn Hb H20.
  unfold isWellFormed in Hwf. apply andb_true_iff in Hwf as [Hsc Hbom].
  apply negb_true_iff in Hbom.
  pose proof (TextDecoder_TextEncoder id Hsc Hbom) as Hid.
  assert (Hne : blob <> []) by (intros ->; cbn in Hb; lia).
  assert (Hdec : isEmpty (TextDecoder_decode (TextEncoder_encode id))
                 || isEmpty (trim (TextDecoder_decode (TextEncoder_encode id))) = false).
  { rewrite Hid, Hblank. destruct id; [discriminate Hblank|reflexivity]. }
  rewrite (parseEnvelope_buildVideoMessage id ts frameNo blob H20 HL Hne Hdec).
  rewrite Hid, !Z.mod_small by lia. reflexivity.
Qed.

Lemma round_trip_witness :
  parseEnvelope (buildVideoMessage p1 (nanoseconds 1000) 7 jpeg64x64)
  = Parsed (mkEnvelope p1 (nanoseconds 1000) 7 jpeg64x64).
Proof.
  apply round_trip; vm_compute; repeat split; first [reflexivity | discriminate].
Defined.

(** C1 fails as it is stated.  An identity of one byte and a payload of
    one byte make a message of 18 bytes, which the reader drops as shorter
    than 20; a blank identity is dropped as empty; a U+FEFF in front of the
    identity is lost on the way, and a lone surrogate comes back as
    U+FFFD. *)
Lemma round_trip_counterexample :
  (1 <= byteLength (TextEncoder_encode [0x61]) <= 1000
   /\ 1 <= byteLength (bytes [0xFF])
   /\ parseEnvelope (buildVideoMessage [0x61] 0 0 (bytes [0xFF])) = Rejected Truncated)
  /\ (1 <= byteLength (TextEncoder_encode [0x20]) <= 1000
      /\ parseEnvelope (buildVideoMessage [0x20] 0 0 jpeg64x64) = Rejected EmptyIdentity)
  /\ (1 <= byteLength (TextEncoder_encode [0xFEFF; 0x61]) <= 1000
      /\ parseEnvelope (buildVideoMessage [0xFEFF; 0x61] 0 0 jpeg64x64)
         = Parsed (mkEnvelope [0x61] 0 0 jpeg64x64))
  /\ (1 <= byteLength (TextEncoder_encode [0xD800]) <= 1000
      /\ parseEnvelope (buildVideoMessage [0xD800] 0 0 jpeg64x64)
         = Parsed (mkEnvelope [0xFFFD] 0 0 jpeg64x64)).
Proof.
  repeat split; first [ vm_compute; reflexivity | vm_compute; discriminate ].
Qed.

End EnvelopeFacts.

(** ** The inbound handler *)

Module HandlerFacts.
Import Bytes Text Jpeg Sdk BytesFacts TextFacts EnvelopeFacts.

Lemma olderThan_iff (currentTime ts threshold : Z) :
  olderThan (frameAgeMs currentTime ts) threshold = true
  <-> (inject_Z threshold < frameAgeMs currentTime ts)%Q.
Proof.
  unfold olderThan. rewrite negb_true_iff.
  split; intros H.
  - apply Qnot_le_lt. intros Hle. apply Qle_bool_iff in Hle. congruence.
  - destruct (Qle_bool _ _) eqn:E; [|reflexivity].
    apply Qle_bool_iff in E. exfalso. exact (Qlt_not_le _ _ H E).
Qed.

Lemma frameAgeMs_lt (currentTime ts threshold : Z) :
  (inject_Z threshold < frameAgeMs currentTime ts)%Q
  <-> threshold * 1000000 < currentTime - ts.
Proof.
  unfold frameAgeMs, Qlt, Qdiv, Qmult, Qinv, inject_Z. cbn. lia.
Qed.

Lemma olderThan_Z (currentTime ts threshold : Z) :
  olderThan (frameAgeMs currentTime ts) threshold = true
  <-> threshold * 1000000 < currentTime - ts.
Proof. rewrite olderThan_iff. apply frameAgeMs_lt. Qed.

(** At and around the two thresholds, and far from them, the binary64
    comparison and the exact one agree. *)
Lemma olderThan_binary64_samples :
  forallb (fun d =>
             Bool.eqb (olderThanBinary64 d 0 1000) (olderThan (frameAgeMs d 0) 1000)
             && Bool.eqb (olderThanBinary64 d 0 2000) (olderThan (frameAgeMs d 0) 2000))
    [- (2 ^ 62); -1000000001; -1; 0; 1; 999999999; 1000000000; 1000000001;
     1499999999; 1500000000; 1999999999; 2000000000; 2000000001; 2500000000;
     2 ^ 53 - 1; 2 ^ 53; 2 ^ 53 + 1; 2 ^ 62]
  = true.
Proof. vm_compute. reflexivity. Qed.

(** The [DataView] reads of [parseEnvelope] stay inside the buffer. *)
Lemma getUint_in_range (n : nat) (data : list byte) (off : Z) :
  0 <= off -> off + Z.of_nat n <= byteLength data ->
  exists v, getUint n data off = Some v.
Proof.
  intros H0 H1. unfold getUint.
  destruct (Z.leb_spec 0 off); [|lia].
  destruct (Z.leb_spec (off + Z.of_nat n) (byteLength data)); [|lia].
  cbn [andb]. eauto.
Qed.

Lemma parseEnvelope_no_exception (data : list byte) (e : JSError) :
  parseEnvelope data <> Raised e.
Proof.
  unfold parseEnvelope.
  destruct (Z.ltb_spec (byteLength data) 20) as [|H20]; [discriminate|].
  destruct (getUint_in_range 4 data 0) as [n En]; [lia|lia|].
  unfold getUint32, getBigUint64. rewrite En.
  destruct (Z.leb_spec n 0); [discriminate|].
  destruct (Z.ltb_spec 1000 n); [discriminate|].
  destruct (Z.ltb_spec (byteLength data) (n + 16)); [discriminate|]. cbn [orb].
  destruct (isEmpty _ || isEmpty _); [discriminate|].
  destruct (getUint_in_range 8 data (4 + n)) as [t Et]; [lia|lia|]. rewrite Et.
  destruct (getUint_in_range 4 data (12 + n)) as [f Ef]; [lia|lia|]. rewrite Ef.
  destruct (_ =? 0); discriminate.
Qed.

Lemma parseEnvelope_identity_length (data : list byte) (n : Z) :
  20 <= byteLength data -> getUint32 data 0 = Some n ->
  parseEnvelope data = Rejected InvalidIdentityLength
  <-> (n <= 0 \/ 1000 < n \/ byteLength data < n + 16).
Proof.
  intros H20 En. unfold parseEnvelope.
  destruct (Z.ltb_spec (byteLength data) 20); [lia|]. rewrite En.
  destruct (Z.leb_spec n 0); [cbn [orb]; split; auto|].
  destruct (Z.ltb_spec 1000 n); [cbn [orb]; split; auto|].
  destruct (Z.ltb_spec (byteLength data) (n + 16)); [cbn [orb]; split; auto|].
  cbn [orb]. split; [|lia].
  destruct (isEmpty _ || isEmpty _); [discriminate|].
  destruct (getBigUint64 _ _); [|discriminate].
  destruct (getUint32 data (12 + n)); [|discriminate].
  destruct (_ =? 0); discriminate.
Qed.

(** The handler's outcome when the envelope does not parse. *)
Lemma handle_rejected (read : ReadMode) (nowMs : Z) (data : list byte) (s : TankRTC) (why : Discard) :
  parseEnvelope data = Rejected why ->
  handleIncomingVideoMessageWith read nowMs data s = (Normal (Discarded why), s, []).
Proof. intros E. unfold handleIncomingVideoMessageWith. rewrite E. reflexivity. Qed.

Lemma handle_parsed_stale (read : ReadMode) (nowMs : Z) (data : list byte) (s : TankRTC) (f : Envelope) :
  parseEnvelope data = Parsed f ->
  olderThan (frameAgeMs (nanoseconds nowMs) (env_timestamp f)) 1000 = true ->
  handleIncomingVideoMessageWith read nowMs data s = (Normal (Discarded Stale), s, []).
Proof.
  intros E H. unfold handleIncomingVideoMessageWith. rewrite E, H. reflexivity.
Qed.

Lemma handle_parsed_fresh (read : ReadMode) (nowMs : Z) (data : list byte) (s : TankRTC) (f : Envelope) :
  parseEnvelope data = Parsed f ->
  olderThan (frameAgeMs (nanoseconds nowMs) (env_timestamp f)) 1000 = false ->
  completion (handleIncomingVideoMessageWith read nowMs data s) <> Normal (Discarded Stale).
Proof.
  intros E H. unfold handleIncomingVideoMessageWith. rewrite E, H.
  destruct (_ <? 2); [run; discriminate|].
  destruct (read _ 0); [|run; discriminate].
  destruct (read _ 1); [|run; discriminate].
  destruct (_ || _); [run; discriminate|].
  destruct (getJPEGDimensions _ _); try (run; discriminate).
  run. destruct (_ || _); [discriminate|].
  destruct (negb _); discriminate.
Qed.

Lemma handle_parsed_discard (read : ReadMode) (nowMs : Z) (data : list byte)
    (s : TankRTC) (f : Envelope) (why : Discard) :
  parseEnvelope data = Parsed f ->
  completion (handleIncomingVideoMessageWith read nowMs data s) = Normal (Discarded why) ->
  why = Stale \/ why = NotAnImage \/ why = UnparseableContainer \/ why = DimensionMismatch.
Proof.
  intros E. unfold handleIncomingVideoMessageWith. rewrite E.
  destruct (olderThan _ _); [run; intros Hq; injection Hq as <-; auto|].
  destruct (_ <? 2); [run; intros Hq; injection Hq as <-; auto|].
  destruct (read _ 0); [|run; discriminate].
  destruct (read _ 1); [|run; discriminate].
  destruct (_ || _); [run; intros Hq; injection Hq as <-; auto|].
  destruct (getJPEGDimensions _ _); try (run; intros Hq; injection Hq as <-; auto).
  run. destruct (_ || _); [intros Hq; injection Hq as <-; auto|].
  destruct (negb _); discriminate.
Qed.

Lemma handle_header_discard (read : ReadMode) (nowMs : Z) (data : list byte)
    (s : TankRTC) (why : Discard) :
  why = Truncated \/ why = InvalidIdentityLength \/ why = EmptyIdentity \/ why = EmptyPayload ->
  completion (handleIncomingVideoMessageWith read nowMs data s) = Normal (Discarded why)
  <-> parseEnvelope data = Rejected why.
Proof.
  intros Hw. split.
  - destruct (parseEnvelope data) as [f|why'|e] eqn:E.
    + intros H. apply (handle_parsed_discard _ _ _ _ _ _ E) in H.
      destruct Hw as [ -> | [ -> | [ -> | -> ] ] ]; destruct H as [H|[H|[H|H]]]; discriminate.
    + rewrite (handle_rejected _ _ _ _ _ E). cbn. congruence.
    + unfold handleIncomingVideoMessageWith. rewrite E. run. discriminate.
  - intros E. rewrite (handle_rejected _ _ _ _ _ E). reflexivity.
Qed.

(** C8.  A buffer of at least 20 bytes is dropped for its identity length
    exactly when the declared length is 0 or less, above 1000, or does not
    leave room for the 16 bytes of fixed fields behind it; the object is
    then left as it was and nothing is reported.  So it is for a declared
    length of 1001. *)
Theorem identity_length_rejection (nowMs : Z) (data : list byte) (s : TankRTC) (n : Z) :
  20 <= byteLength data ->
  getUint32 data 0 = Some n ->
  let r := handleIncomingVideoMessage nowMs data s in
  (completion r = Normal (Discarded InvalidIdentityLength)
   <-> (n <= 0 \/ 1000 < n \/ byteLength data < n + 16))
  /\ (completion r = Normal (Discarded InvalidIdentityLength) ->
      final r = s /\ trace r = [])
  /\ (n = 1001 ->
      completion r = Normal (Discarded InvalidIdentityLength)
      /\ receivedVideos (final r) = receivedVideos s).
Proof.
  intros H20 En r. subst r. unfold handleIncomingVideoMessage.
  pose proof (handle_header_discard js_read nowMs data s InvalidIdentityLength
                ltac:(auto)) as Hh.
  pose proof (parseEnvelope_identity_length data n H20 En) as Hp.
  split; [|split].
  - rewrite Hh. exact Hp.
  - intros H. apply Hh in H. rewrite (handle_rejected _ _ _ _ _ H). auto.
  - intros ->. assert (E : parseEnvelope data = Rejected InvalidIdentityLength)
      by (apply Hp; lia).
    rewrite (handle_rejected _ _ _ _ _ E). auto.
Qed.

(** C9.  A frame is dropped as stale exactly when its envelope parses and
    its age in milliseconds is above 1000; the object is then left as it
    was.  So it is for a capture time 1500 ms before now. *)
Theorem stale_frame_rejection (nowMs : Z) (data : list byte) (s : TankRTC) :
  let r := handleIncomingVideoMessage nowMs data s in
  (completion r = Normal (Discarded Stale)
   <-> exists f, parseEnvelope data = Parsed f
                 /\ (inject_Z 1000 < frameAgeMs (nanoseconds nowMs) (env_timestamp f))%Q)
  /\ (completion r = Normal (Discarded Stale) -> final r = s /\ trace r = [])
  /\ (forall f, parseEnvelope data = Parsed f ->
        env_timestamp f = nanoseconds nowMs - nanoseconds 1500 ->
        completion r = Normal (Discarded Stale)
        /\ receivedVideos (final r) = receivedVideos s).
Proof.
  intros r. subst r. unfold handleIncomingVideoMessage.
  assert (Hiff : completion (handleIncomingVideoMessageWith js_read nowMs data s)
                 = Normal (Discarded Stale)
                 <-> exists f, parseEnvelope data = Parsed f
                     /\ olderThan (frameAgeMs (nanoseconds nowMs) (env_timestamp f)) 1000 = true).
  { split.
    - destruct (parseEnvelope data) as [f|why|e] eqn:E.
      + intros H. exists f. split; [reflexivity|].
        destruct (olderThan _ _) eqn:Ho; [reflexivity|].
        exfalso. exact (handle_parsed_fresh _ _ _ _ _ E Ho H).
      + rewrite (handle_rejected _ _ _ _ _ E). cbn. intros Hq; injection Hq as ->.
        exfalso. revert E. unfold parseEnvelope.
        destruct (_ <? 20); [discriminate|].
        destruct (getUint32 data 0) as [n|]; [|discriminate].
        destruct (_ || _); [discriminate|].
        destruct (_ || _); [discriminate|].
        destruct (getBigUint64 _ _); [|discriminate].
        destruct (getUint32 data (12 + n)); [|discriminate].
        destruct (_ =? 0); discriminate.
      + unfold handleIncomingVideoMessageWith. rewrite E. run. discriminate.
    - intros (f & E & Ho). rewrite (handle_parsed_stale _ _ _ _ _ E Ho). reflexivity. }
  split; [|split].
  - rewrite Hiff. split; intros (f & E & Ho); exists f; split; auto;
      now apply olderThan_iff.
  - intros H. apply Hiff in H as (f & E & Ho).
    rewrite (handle_parsed_stale _ _ _ _ _ E Ho). auto.
  - intros f E Hts.
    assert (Ho : olderThan (frameAgeMs (nanoseconds nowMs) (env_timestamp f)) 1000 = true).
    { apply olderThan_Z. rewrite Hts. unfold nanoseconds. lia. }
    rewrite (handle_parsed_stale _ _ _ _ _ E Ho). auto.
Qed.

Lemma identity_length_rejection_witness :
  completion (handleIncomingVideoMessage 1000 declares1001 idle)
  = Normal (Discarded InvalidIdentityLength)
  /\ receivedVideos (final (handleIncomingVideoMessage 1000 declares1001 idle))
     = receivedVideos idle.
Proof.
  refine (proj2 (proj2 (identity_length_rejection 1000 declares1001 idle 1001 _ _)) eq_refl).
  - vm_compute. discriminate.
  - vm_compute. reflexivity.
Defined.

Lemma stale_frame_rejection_witness :
  completion (handleIncomingVideoMessage 2500 frame7 idle) = Normal (Discarded Stale)
  /\ receivedVideos (final (handleIncomingVideoMessage 2500 frame7 idle))
     = receivedVideos idle.
Proof.
  refine (proj2 (proj2 (stale_frame_rejection 2500 frame7 idle))
            (mkEnvelope p1 (nanoseconds 1000) 7 jpeg64x64) _ _).
  - vm_compute. reflexivity.
  - vm_compute. reflexivity.
Defined.

(** The handler returns whatever the buffer: nothing reaches its caller. *)
Lemma handle_returns (read : ReadMode) (nowMs : Z) (data : list byte) (s : TankRTC) :
  exists outcome,
    completion (handleIncomingVideoMessageWith read nowMs data s) = Normal outcome.
Proof.
  unfold handleIncomingVideoMessageWith.
  destruct (parseEnvelope data); [|run; eauto..].
  destruct (olderThan _ _); [run; eauto|].
  destruct (_ <? 2); [run; eauto|].
  destruct (read _ 0); [|run; eauto].
  destruct (read _ 1); [|run; eauto].
  destruct (_ || _); [run; eauto|].
  destruct (getJPEGDimensions _ _); try (run; eauto).
  destruct (_ || _); [eauto|].
  destruct (negb _); eauto.
Qed.

End HandlerFacts.

(** ** The frame cache *)

Module CacheFacts.
Import Bytes Text Jpeg Sdk MonadFacts BytesFacts TextFacts EnvelopeFacts HandlerFacts.

Section MapFacts.
Context {V : Type}.
Implicit Types (m : JSMap.t V) (k : JSString) (v : V).

Lemma get_None_iff k m : JSMap.get k m = None <-> ~ In k (JSMap.keys m).
Proof.
  induction m as [|[k' v'] m IH]; cbn; [tauto|].
  destruct (string_eq_dec k k') as [->|Hne].
  - split; [discriminate|]. intros H. exfalso. apply H. now left.
  - rewrite IH. split; intros H; [intros [E|E]; [congruence|tauto]|tauto].
Qed.

Lemma get_Some_In k v m : JSMap.get k m = Some v -> In (k, v) m.
Proof.
  induction m as [|[k' v'] m IH]; cbn; [discriminate|].
  destruct (string_eq_dec k k') as [->|Hne].
  - intros [= ->]. now left.
  - intros H. right. now apply IH.
Qed.

Lemma In_get k v m : JSMap.wf m -> In (k, v) m -> JSMap.get k m = Some v.
Proof.
  unfold JSMap.wf. induction m as [|[k' v'] m IH]; cbn; [tauto|].
  intros Hwf [E|Hin].
  - injection E as -> ->. now destruct (string_eq_dec k k).
  - inversion Hwf as [|? ? Hnot Hwf']; subst.
    destruct (string_eq_dec k k') as [->|Hne]; [|now apply IH].
    exfalso. apply Hnot. change k' with (fst (k', v)). now apply in_map.
Qed.

Lemma keys_delete k k' m : In k (JSMap.keys (JSMap.delete k' m)) -> In k (JSMap.keys m).
Proof.
  induction m as [|[k0 v0] m IH]; cbn; [tauto|].
  destruct (string_eq_dec k' k0); cbn; tauto.
Qed.

Lemma wf_delete k m : JSMap.wf m -> JSMap.wf (JSMap.delete k m).
Proof.
  unfold JSMap.wf. induction m as [|[k0 v0] m IH]; cbn; [auto|].
  intros Hwf. inversion Hwf as [|? ? Hnot Hwf']; subst.
  destruct (string_eq_dec k k0); [assumption|].
  cbn. constructor; [|now apply IH].
  intros Hin. apply Hnot. exact (keys_delete _ _ _ Hin).
Qed.

Lemma get_delete k k' m :
  JSMap.wf m ->
  JSMap.get k (JSMap.delete k' m) = if string_eq_dec k k' then None else JSMap.get k m.
Proof.
  unfold JSMap.wf. induction m as [|[k0 v0] m IH]; cbn; intros Hwf.
  - now destruct (string_eq_dec k k').
  - inversion Hwf as [|? ? Hnot Hwf']; subst.
    destruct (string_eq_dec k' k0) as [->|Hne].
    + destruct (string_eq_dec k k0) as [->|Hne']; [|reflexivity].
      now apply get_None_iff.
    + cbn. destruct (string_eq_dec k k0) as [->|Hne'].
      * now destruct (string_eq_dec k0 k'); [congruence|].
      * now apply IH.
Qed.

Lemma get_set k k' v m :
  JSMap.get k (JSMap.set k' v m) = if string_eq_dec k k' then Some v else JSMap.get k m.
Proof.
  induction m as [|[k0 v0] m IH]; cbn.
  - now destruct (string_eq_dec k k').
  - destruct (string_eq_dec k' k0) as [->|Hne]; cbn.
    + now destruct (string_eq_dec k k0).
    + destruct (string_eq_dec k k0) as [->|Hne'].
      * now destruct (string_eq_dec k0 k'); [congruence|].
      * apply IH.
Qed.

Lemma keys_set k k' v m :
  In k (JSMap.keys (JSMap.set k' v m)) <-> k = k' \/ In k (JSMap.keys m).
Proof.
  induction m as [|[k0 v0] m IH]; cbn.
  - intuition congruence.
  - destruct (string_eq_dec k' k0) as [->|Hne]; cbn; [intuition congruence|].
    rewrite IH. intuition congruence.
Qed.

Lemma wf_set k v m : JSMap.wf m -> JSMap.wf (JSMap.set k v m).
Proof.
  unfold JSMap.wf. induction m as [|[k0 v0] m IH]; cbn; intros Hwf.
  - constructor; [tauto|constructor].
  - inversion Hwf as [|? ? Hnot Hwf']; subst.
    destruct (string_eq_dec k k0) as [->|Hne]; cbn; [now constructor|].
    constructor; [|now apply IH].
    intros Hin. apply keys_set in Hin as [E|Hin]; [congruence|contradiction].
Qed.

End MapFacts.

(** The sweep, entry by entry. *)
Lemma set_receivedVideos_same (s : TankRTC) : set_receivedVideos (receivedVideos s) s = s.
Proof. now destruct s. Qed.

Lemma cleanupLoop_run (currentTime : Z) (entries : JSMap.t VideoEntry) (s : TankRTC) :
  cleanupLoop currentTime entries s
  = (Normal tt,
     set_receivedVideos
       (fold_left (fun m e => if isExpired currentTime (snd e)
                              then JSMap.delete (fst e) m else m)
                  entries (receivedVideos s)) s,
     map (fun e => RevokeObjectURL (url (snd e)))
         (filter (fun e => isExpired currentTime (snd e)) entries)).
Proof.
  revert s. induction entries as [|[k v] rest IH]; intros s.
  - cbn. now rewrite set_receivedVideos_same.
  - cbn [cleanupLoop fold_left filter fst snd]. unfold bind at 1.
    destruct (isExpired currentTime v) eqn:E.
    + cbn [when]. unfold bind at 1, emit at 1, assign at 1.
      rewrite IH. reflexivity.
    + cbn [when ret]. rewrite IH. reflexivity.
Qed.

Lemma get_sweep (currentTime : Z) (k : JSString) (entries m : JSMap.t VideoEntry) :
  JSMap.wf m ->
  JSMap.get k (fold_left (fun m e => if isExpired currentTime (snd e)
                                     then JSMap.delete (fst e) m else m) entries m)
  = if existsb (fun e => if string_eq_dec k (fst e) then isExpired currentTime (snd e) else false)
         entries
    then None else JSMap.get k m.
Proof.
  revert m. induction entries as [|[k' v'] rest IH]; intros m Hwf; [reflexivity|].
  cbn [fold_left existsb fst snd].
  destruct (isExpired currentTime v') eqn:E.
  - rewrite IH by now apply wf_delete. rewrite get_delete by assumption.
    destruct (string_eq_dec k k'); cbn [orb]; [now destruct (existsb _ _)|reflexivity].
  - rewrite IH by assumption. now destruct (string_eq_dec k k').
Qed.

Lemma existsb_key (currentTime : Z) (k : JSString) (m : JSMap.t VideoEntry) (e : VideoEntry) :
  JSMap.wf m -> JSMap.get k m = Some e ->
  existsb (fun e' => if string_eq_dec k (fst e') then isExpired currentTime (snd e') else false) m
  = isExpired currentTime e.
Proof.
  intros Hwf Hget. destruct (isExpired currentTime e) eqn:E.
  - apply existsb_exists. exists (k, e). split; [now apply get_Some_In|].
    cbn. now destruct (string_eq_dec k k).
  - destruct (existsb _ m) eqn:Ex; [|reflexivity].
    apply existsb_exists in Ex as ([k' e'] & Hin & Hp). cbn in Hp.
    destruct (string_eq_dec k k') as [<-|]; [|discriminate].
    apply (In_get _ _ _ Hwf) in Hin. congruence.
Qed.

(** One entry per key is an invariant of the cache. *)
Lemma handle_preserves_wf (read : ReadMode) (nowMs : Z) (data : list byte) (s : TankRTC) :
  JSMap.wf (receivedVideos s) ->
  JSMap.wf (receivedVideos (final (handleIncomingVideoMessageWith read nowMs data s))).
Proof.
  intros Hwf. unfold handleIncomingVideoMessageWith.
  destruct (parseEnvelope data); try exact Hwf.
  destruct (olderThan _ _); [exact Hwf|].
  destruct (_ <? 2); [exact Hwf|].
  destruct (read _ 0); [|exact Hwf].
  destruct (read _ 1); [|exact Hwf].
  destruct (_ || _); [exact Hwf|].
  destruct (getJPEGDimensions _ _); try exact Hwf.
  run. destruct (_ || _); [exact Hwf|].
  destruct (negb _); cbn; now apply wf_set.
Qed.

Lemma sweep_preserves_wf (nowMs : Z) (s : TankRTC) :
  JSMap.wf (receivedVideos s) ->
  JSMap.wf (receivedVideos (final (cleanupOldVideos nowMs s))).
Proof.
  intros Hwf. unfold cleanupOldVideos. rewrite this_bind, cleanupLoop_run.
  unfold final. cbn [fst snd].
  change (receivedVideos (set_receivedVideos ?m s)) with m.
  generalize (receivedVideos s) at 1 as entries. revert Hwf.
  generalize (receivedVideos s) as m.
  intros m Hwf entries. revert m Hwf.
  induction entries as [|[k v] rest IH]; intros m Hwf; [exact Hwf|].
  cbn [fold_left fst snd]. apply IH. destruct (isExpired _ v); [now apply wf_delete|exact Hwf].
Qed.

(** C7.  The sweep removes an entry exactly when its age is above 2000 ms
    and then releases its handle; an entry it does not remove stays as it
    was.  So an entry stamped at [t0] is removed by the sweep at
    [t0 + 2500] and kept by the sweep at [t0 + 1500]. *)
Theorem sweep_threshold (nowMs : Z) (s : TankRTC) (id : JSString) (e : VideoEntry) :
  JSMap.wf (receivedVideos s) ->
  JSMap.get id (receivedVideos s) = Some e ->
  let r := cleanupOldVideos nowMs s in
  let age := frameAgeMs (nanoseconds nowMs) (timestamp e) in
  (JSMap.get id (receivedVideos (final r)) = None <-> (inject_Z 2000 < age)%Q)
  /\ ((inject_Z 2000 < age)%Q -> In (RevokeObjectURL (url e)) (trace r))
  /\ (~ (inject_Z 2000 < age)%Q -> JSMap.get id (receivedVideos (final r)) = Some e)
  /\ (forall t0, timestamp e = nanoseconds t0 ->
        (nowMs = t0 + 2500 ->
           JSMap.get id (receivedVideos (final r)) = None
           /\ In (RevokeObjectURL (url e)) (trace r))
        /\ (nowMs = t0 + 1500 ->
           JSMap.get id (receivedVideos (final r)) = Some e)).
Proof.
  intros Hwf Hget r age.
  assert (Hr : r = cleanupOldVideos nowMs s) by reflexivity.
  unfold cleanupOldVideos, bind, this in Hr. rewrite cleanupLoop_run in Hr.
  cbn [app] in Hr.
  assert (Hfinal : JSMap.get id (receivedVideos (final r))
                   = if isExpired (nanoseconds nowMs) e then None else Some e).
  { rewrite Hr. unfold final. cbn [fst snd].
    change (receivedVideos (set_receivedVideos ?m s)) with m.
    rewrite get_sweep by assumption.
    rewrite (existsb_key _ _ _ _ Hwf Hget). now rewrite Hget. }
  assert (Htrace : isExpired (nanoseconds nowMs) e = true ->
                   In (RevokeObjectURL (url e)) (trace r)).
  { intros He. rewrite Hr. unfold trace. cbn [snd].
    apply in_map_iff. exists (id, e). split; [reflexivity|].
    apply filter_In. split; [now apply get_Some_In|exact He]. }
  assert (Hage : isExpired (nanoseconds nowMs) e = true <-> (inject_Z 2000 < age)%Q)
    by apply olderThan_iff.
  clearbody r. rewrite Hfinal. clear Hfinal Hr.
  split; [|split; [|split]].
  - rewrite <- Hage. destruct (isExpired _ e); split; congruence.
  - intros H. now apply Htrace, Hage.
  - intros H. destruct (isExpired _ e); [|reflexivity]. exfalso. now apply H, Hage.
  - intros t0 Ht0. split; intros ->.
    + assert (He : isExpired (nanoseconds (t0 + 2500)) e = true).
      { apply olderThan_Z. rewrite Ht0. unfold nanoseconds. lia. }
      split; [now rewrite He|auto].
    + assert (He : isExpired (nanoseconds (t0 + 1500)) e = false).
      { apply not_true_is_false. intros H. apply olderThan_Z in H.
        rewrite Ht0 in H. unfold nanoseconds in H. lia. }
      now rewrite He.
Qed.

Lemma sweep_threshold_witness :
  JSMap.get p1 (receivedVideos (final (cleanupOldVideos 3500 watchingP1))) = None
  /\ In (RevokeObjectURL 4) (trace (cleanupOldVideos 3500 watchingP1))
  /\ JSMap.get p1 (receivedVideos (final (cleanupOldVideos 2500 watchingP1)))
     = Some (mkVideoEntry 4 (nanoseconds 1000) 7).
Proof.
  assert (Hwf : JSMap.wf (receivedVideos watchingP1)).
  { vm_compute. constructor; [intros []|constructor]. }
  pose proof (sweep_threshold 3500 watchingP1 p1 (mkVideoEntry 4 (nanoseconds 1000) 7)
                Hwf eq_refl) as (_ & _ & _ & H1).
  pose proof (sweep_threshold 2500 watchingP1 p1 (mkVideoEntry 4 (nanoseconds 1000) 7)
                Hwf eq_refl) as (_ & _ & _ & H2).
  destruct (H1 1000 eq_refl) as [Ha _]. destruct (H2 1000 eq_refl) as [_ Hb].
  destruct (Ha eq_refl) as [Hx Hy].
  exact (conj Hx (conj Hy (Hb eq_refl))).
Defined.

(** The handler never releases a handle. *)
Lemma handle_never_revokes (read : ReadMode) (nowMs : Z) (data : list byte) (s : TankRTC) :
  existsb isRevoke (trace (handleIncomingVideoMessageWith read nowMs data s)) = false.
Proof.
  unfold handleIncomingVideoMessageWith.
  destruct (parseEnvelope data); try reflexivity.
  destruct (olderThan _ _); [reflexivity|].
  destruct (_ <? 2); [reflexivity|].
  destruct (read _ 0); [|reflexivity].
  destruct (read _ 1); [|reflexivity].
  destruct (_ || _); [reflexivity|].
  destruct (getJPEGDimensions _ _); try reflexivity.
  run. destruct (_ || _); [reflexivity|].
  destruct (negb _); reflexivity.
Qed.

(** C5.  A second frame of "p1" replaces the first in the cache; the
    handle of the first (4) is not released. *)
Theorem replaced_handle_not_released :
  let r := handleIncomingVideoMessage 2000 frame8 watchingP1 in
  JSMap.get p1 (receivedVideos watchingP1) = Some (mkVideoEntry 4 (nanoseconds 1000) 7)
  /\ completion r = Normal (Stored false)
  /\ JSMap.get p1 (receivedVideos (final r)) = Some (mkVideoEntry 5 (nanoseconds 2000) 8)
  /\ trace r = [CreateObjectURL 5; OnVideoFrameUpdate p1 5]
  /\ existsb isRevoke (trace r) = false.
Proof. repeat split; vm_compute; reflexivity. Qed.

(** The sweep releases handles and reports nothing. *)
Lemma sweep_never_notifies (nowMs : Z) (s : TankRTC) :
  existsb isSourceRemove (trace (cleanupOldVideos nowMs s)) = false.
Proof.
  unfold cleanupOldVideos, bind, this. rewrite cleanupLoop_run. unfold trace. cbn [snd app].
  induction (filter _ _) as [|e l IH]; [reflexivity|exact IH].
Qed.

(** C6.  The sweep at 3500 ms removes the entry of "p1" stamped at 1000 ms
    and releases its handle; no removal is reported, and the method returns
    nothing.  The [video-remove] message and [stopViewingVideo] do report
    the entries they remove. *)
Theorem sweep_eviction_not_reported :
  let r := cleanupOldVideos 3500 watchingP1 in
  JSMap.has p1 (receivedVideos watchingP1) = true
  /\ r = (Normal tt, set_receivedVideos [] watchingP1, [RevokeObjectURL 4])
  /\ existsb isSourceRemove (trace r) = false
  /\ trace (onVideoRemoveMessage p1 watchingP1)
     = [RevokeObjectURL 4; OnVideoSourceRemove p1]
  /\ filter isSourceRemove (trace (stopViewingVideo watchingP1))
     = [OnVideoSourceRemove p1].
Proof. repeat split; vm_compute; reflexivity. Qed.

End CacheFacts.

(** ** The JPEG scanner *)

Module JpegFacts.
Import Bytes Text Jpeg Sdk BytesFacts.

Lemma index_range (data : list byte) (i v : Z) :
  index data i = Some v -> 0 <= v < 256.
Proof.
  unfold index. destruct (_ && _); [|discriminate].
  destruct (nth_error data (Z.to_nat i)) as [b|]; [|discriminate].
  cbn. intros [= <-]. apply byte_to_Z_range.
Qed.

Lemma index_in_range (data : list byte) (i : Z) :
  0 <= i < byteLength data -> exists v, index data i = Some v.
Proof.
  intros Hi. unfold index.
  destruct (Z.leb_spec 0 i); [|lia]. destruct (Z.ltb_spec i (byteLength data)); [|lia].
  cbn [andb]. destruct (nth_error data (Z.to_nat i)) as [b|] eqn:E; [cbn; eauto|].
  apply nth_error_None in E. unfold byteLength in Hi. lia.
Qed.

Lemma js_read_bytes : yieldsBytes js_read.
Proof. intros data i v [= H]. exact (index_range _ _ _ H). Qed.

Lemma checked_read_bytes : yieldsBytes checked_read.
Proof.
  intros data i v. unfold checked_read.
  destruct (index data i) as [x|] eqn:E; [|discriminate].
  intros [= <-]. exact (index_range _ _ _ E).
Qed.

Lemma shl8_or_nonneg (read : ReadMode) (data : list byte) (i j : Z) (hi lo : option Z) :
  yieldsBytes read -> read data i = Value hi -> read data j = Value lo ->
  0 <= shl8_or hi lo.
Proof.
  intros Hy Hi Hj. unfold shl8_or. apply Z.lor_nonneg. split.
  - apply Z.shiftl_nonneg. destruct hi as [v|]; cbn; [|lia].
    pose proof (Hy _ _ _ Hi). lia.
  - destruct lo as [v|]; cbn; [|lia]. pose proof (Hy _ _ _ Hj). lia.
Qed.

(** The loop of [getJPEGDimensions] ends: the fuel is never used up. *)
Lemma scan_fuel (read : ReadMode) (data : list byte) :
  yieldsBytes read ->
  forall (fuel : nat) (offset : Z),
    (0 < fuel)%nat -> byteLength data - 1 - offset < Z.of_nat fuel ->
    scan read fuel data offset <> OutOfFuel.
Proof.
  intros Hy. induction fuel as [|fuel IH]; intros offset Hpos Hfuel; [lia|].
  cbn [scan]. destruct (Z.ltb_spec offset (byteLength data - 1)); [|discriminate].
  assert (Hnext : forall d, 1 <= d -> scan read fuel data (offset + d) <> OutOfFuel).
  { intros d Hd. apply IH; lia. }
  destruct (read data offset) as [b0|] eqn:R0; cbn [read_then]; [|discriminate].
  destruct (strict_eq b0 255); [|apply Hnext; lia].
  destruct (read data (offset + 1)) as [b1|] eqn:R1; cbn [read_then]; [|discriminate].
  destruct (strict_ne b1 0); [|apply Hnext; lia].
  destruct (_ && _ && _).
  - destruct (read data (offset + 5)); cbn [read_then]; [|discriminate].
    destruct (read data (offset + 6)); cbn [read_then]; [|discriminate].
    destruct (read data (offset + 7)); cbn [read_then]; [|discriminate].
    destruct (read data (offset + 8)); cbn [read_then]; discriminate.
  - destruct (_ <? _); [|discriminate].
    destruct (read data (offset + 2)) as [l1|] eqn:R2; cbn [read_then]; [|discriminate].
    destruct (read data (offset + 3)) as [l0|] eqn:R3; cbn [read_then]; [|discriminate].
    apply Hnext. pose proof (shl8_or_nonneg _ _ _ _ _ _ Hy R2 R3). lia.
Qed.

Lemma getJPEGDimensions_total (read : ReadMode) (data : list byte) :
  yieldsBytes read -> getJPEGDimensions read data <> OutOfFuel.
Proof.
  intros Hy. unfold getJPEGDimensions. apply scan_fuel; [assumption|lia|].
  unfold byteLength. lia.
Qed.

(** In JavaScript no read of the scanner is an error. *)
Lemma scan_js_no_error (data : list byte) (fuel : nat) (offset i : Z) :
  scan js_read fuel data offset <> BadIndex i.
Proof.
  revert offset. induction fuel as [|fuel IH]; intros offset; cbn [scan]; [discriminate|].
  unfold js_read at 1 2 3 4 5 6 7 8. cbn [read_then].
  repeat match goal with
         | |- (if ?b then _ else _) <> _ => destruct b
         end; try discriminate; apply IH.
Qed.

(** In the checked reading the only index the scanner can miss is the one
    just past the end: the second byte of a segment length. *)
Lemma scan_checked_past_end (data : list byte) (fuel : nat) (offset i : Z) :
  0 <= offset ->
  scan checked_read fuel data offset = BadIndex i -> i = byteLength data.
Proof.
  revert offset. induction fuel as [|fuel IH]; intros offset H0; cbn [scan]; [discriminate|].
  destruct (Z.ltb_spec offset (byteLength data - 1)) as [Hlt|]; [|discriminate].
  assert (Hrd : forall j, 0 <= j < byteLength data ->
                  exists v, checked_read data j = Value (Some v)).
  { intros j Hj. destruct (index_in_range data j Hj) as [v Hv].
    exists v. unfold checked_read. now rewrite Hv. }
  destruct (Hrd offset ltac:(lia)) as [b0 ->]. cbn [read_then].
  destruct (strict_eq (Some b0) 255); [|apply IH; lia].
  destruct (Hrd (offset + 1) ltac:(lia)) as [b1 ->]. cbn [read_then].
  destruct (strict_ne (Some b1) 0); [|apply IH; lia].
  destruct (js_ge (Some b1) 192 && js_le (Some b1) 195).
  - cbn [andb]. destruct (Z.ltb_spec (offset + 9) (byteLength data)).
    + destruct (Hrd (offset + 5) ltac:(lia)) as [h1 ->].
      destruct (Hrd (offset + 6) ltac:(lia)) as [h0 ->].
      destruct (Hrd (offset + 7) ltac:(lia)) as [w1 ->].
      destruct (Hrd (offset + 8) ltac:(lia)) as [w0 ->]. discriminate.
    + destruct (Z.ltb_spec (offset + 2) (byteLength data)); [|discriminate].
      destruct (Hrd (offset + 2) ltac:(lia)) as [l1 E2]. rewrite E2. cbn [read_then].
      destruct (checked_read data (offset + 3)) as [l0|j] eqn:E3; cbn [read_then].
      * intros Hs. apply IH in Hs; [exact Hs|].
        pose proof (shl8_or_nonneg _ _ _ _ _ _ checked_read_bytes E2 E3). lia.
      * intros [= <-]. unfold checked_read in E3.
        destruct (index data (offset + 3)) eqn:Ei; [discriminate|].
        injection E3 as <-.
        destruct (Z.ltb_spec (offset + 3) (byteLength data)); [|lia].
        destruct (index_in_range data (offset + 3) ltac:(lia)) as [v Hv]. congruence.
  - cbn [andb]. destruct (Z.ltb_spec (offset + 2) (byteLength data)); [|discriminate].
    destruct (Hrd (offset + 2) ltac:(lia)) as [l1 E2]. rewrite E2. cbn [read_then].
    destruct (checked_read data (offset + 3)) as [l0|j] eqn:E3; cbn [read_then].
    + intros Hs. apply IH in Hs; [exact Hs|].
      pose proof (shl8_or_nonneg _ _ _ _ _ _ checked_read_bytes E2 E3). lia.
    + intros [= <-]. unfold checked_read in E3.
      destruct (index data (offset + 3)) eqn:Ei; [discriminate|].
      injection E3 as <-.
      destruct (Z.ltb_spec (offset + 3) (byteLength data)); [|lia].
      destruct (index_in_range data (offset + 3) ltac:(lia)) as [v Hv]. congruence.
Qed.

(** C10.  Behind the marker of a segment the scanner reads the two length
    bytes once the first of them is inside the data: on a container that
    ends with that byte it reads index 5 of 5 bytes.  JavaScript yields
    [undefined] there, the scan goes on to return null, and the frame is
    dropped without an exception. *)
Theorem segment_length_read_past_end :
  byteLength jpegCut = 5
  /\ getJPEGDimensions checked_read jpegCut = BadIndex 5
  /\ getJPEGDimensions js_read jpegCut = NotFound
  /\ handleIncomingVideoMessage 1000
       (buildVideoMessage p1 (nanoseconds 1000) 7 jpegCut) idle
     = (Normal (Discarded UnparseableContainer), idle, []).
Proof. repeat split; vm_compute; reflexivity. Qed.

End JpegFacts.

(** ** The legs *)

Module LegFacts.
Import Bytes Text Jpeg Sdk MonadFacts.

Lemma emitAll_run (es : list Event) (s : TankRTC) : emitAll es s = (Normal tt, s, es).
Proof.
  revert s. induction es as [|e es IH]; intros s; [reflexivity|].
  cbn [emitAll]. unfold bind, emit. now rewrite IH.
Qed.

Lemma cleanupSafariAudio_run (closeContext : bool) (s : TankRTC) :
  let r := cleanupSafariAudio closeContext s in
  completion r = Normal tt /\ legFlags (final r) = legFlags s
  /\ filter isStateChange (trace r) = []
  /\ videoWsConnection (final r) = videoWsConnection s.
Proof.
  unfold cleanupSafariAudio. run.
  destruct (safariAudioContext s); [|auto].
  destruct (negb (isSafari s)); [auto|].
  destruct (closeContext || _); cbn; auto.
Qed.

Ltac break_match :=
  match goal with
  | |- context [match ?x with _ => _ end] =>
      lazymatch x with
      | context [match _ with _ => _ end] => fail
      | _ => idtac
      end;
      let T := type of x in
      lazymatch T with
      | bool => idtac
      | option _ => idtac
      | WsReadyState => idtac
      | DcReadyState => idtac
      end;
      destruct x eqn:?
  end.

Ltac crush := run; repeat (cbn; break_match); cbn.

Lemma filter_state_changes_removals (m : JSMap.t VideoEntry) :
  filter isStateChange (map (fun e => OnVideoSourceRemove (fst e)) m) = [].
Proof. induction m; cbn; auto. Qed.

Lemma filter_state_changes_revokes (m : JSMap.t VideoEntry) :
  filter isStateChange (map (fun e => RevokeObjectURL (url (snd e))) m) = [].
Proof. induction m; cbn; auto. Qed.

Lemma stopSendingAudio_idle (s : TankRTC) :
  isSendingAudio s = false ->
  legFlags (final (stopSendingAudio s)) = legFlags s
  /\ filter isStateChange (trace (stopSendingAudio s)) = [OnAudioStateChange sending false].
Proof.
  intros H. unfold stopSendingAudio, cleanupSafariAudio, legFlags.
  crush; rewrite ?H; auto.
Qed.

Lemma stopListeningAudio_idle (s : TankRTC) :
  isListeningAudio s = false ->
  legFlags (final (stopListeningAudio s)) = legFlags s
  /\ filter isStateChange (trace (stopListeningAudio s)) = [OnAudioStateChange listening false].
Proof.
  intros H. unfold stopListeningAudio, cleanupSafariAudio, legFlags.
  crush; rewrite ?H; auto.
Qed.

Lemma stopSendingVideo_idle (s : TankRTC) :
  isSendingVideo s = false ->
  legFlags (final (stopSendingVideo s)) = legFlags s
  /\ filter isStateChange (trace (stopSendingVideo s)) = [OnVideoStateChange sending false].
Proof.
  intros H. unfold stopSendingVideo, closeVideoConnectionIfUnused, legFlags.
  crush; rewrite ?H; auto.
Qed.

Lemma stopViewingVideo_idle (s : TankRTC) :
  isViewingVideo s = false ->
  legFlags (final (stopViewingVideo s)) = legFlags s
  /\ filter isStateChange (trace (stopViewingVideo s)) = [OnVideoStateChange viewing false].
Proof.
  intros H. unfold stopViewingVideo, closeVideoConnectionIfUnused, legFlags.
  run; repeat (first [rewrite emitAll_run | break_match | progress cbn]);
    rewrite ?filter_app, ?filter_state_changes_removals, ?filter_state_changes_revokes;
    cbn; rewrite ?H; auto.
Qed.











Lemma initializeVideoConnection_creates (s : TankRTC) :
  isVideoConnectionReady s = false ->
  initializeVideoConnection s
  = (Normal tt,
     set_videoPeerConnection (Some (S (nextHandle s)))
       (set_nextHandle (S (S (nextHandle s)))
          (set_videoWsConnection (Some (mkWebSocket (nextHandle s) CONNECTING))
             (set_nextHandle (S (nextHandle s)) s))),
     [NewWebSocket (nextHandle s) VideoFamily; NewPeerConnection (S (nextHandle s))]).
Proof.
  intros Hr. unfold initializeVideoConnection. rewrite this_bind.
  unfold isVideoConnectionReady in Hr. rewrite Hr. reflexivity.
Qed.



(** When the data channel does not open, [startViewingVideo] reports the
    error, returns normally and leaves [isViewingVideo] set. *)
Lemma startViewingVideo_timeout (env : Env) (s : TankRTC) :
  isViewingVideo s = false -> isVideoConnectionReady s = false ->
  dcIsOpen (videoDataChannel s) = false -> videoChannelOpens env = false ->
  startViewingVideo env s
  = (Normal tt,
     set_videoPeerConnection (Some (S (nextHandle s)))
       (set_nextHandle (S (S (nextHandle s)))
          (set_videoWsConnection (Some (mkWebSocket (nextHandle s) CONNECTING))
             (set_nextHandle (S (nextHandle s)) (set_isViewingVideo true s)))),
     [NewWebSocket (nextHandle s) VideoFamily; NewPeerConnection (S (nextHandle s));
      OnError Failed_to_start_viewing_video ChannelOpenTimeout]).
Proof.
  intros H Hr Hd He. unfold startViewingVideo. rewrite this_bind, H.
  unfold try_catch, bind at 1, assign at 1.
  unfold bind at 1. rewrite (initializeVideoConnection_creates (set_isViewingVideo true s) Hr).
  cbv beta iota. unfold bind at 1. unfold waitForVideoDataChannel. rewrite this_bind.
  cbn [isVideoConnectionReady videoWsConnection set_videoPeerConnection
       set_nextHandle set_videoWsConnection wsIsOpen ws_readyState andb
       videoDataChannel set_isViewingVideo].
  rewrite Hd, He. reflexivity.
Qed.

Lemma filter_map_all {A B} (p : B -> bool) (f : A -> B) (l : list A) :
  (forall x, p (f x) = true) -> filter p (map f l) = map f l.
Proof. intros H. induction l as [|x l IH]; cbn; [|rewrite H, IH]; reflexivity. Qed.

Lemma filter_map_none {A B} (p : B -> bool) (f : A -> B) (l : list A) :
  (forall x, p (f x) = false) -> filter p (map f l) = [].
Proof. intros H. induction l as [|x l IH]; cbn; [|rewrite H, IH]; reflexivity. Qed.

(** The run of [stopViewingVideo]. *)
Lemma stopViewingVideo_run (s : TankRTC) :
  exists s',
    stopViewingVideo s
    = (Normal tt, s',
       match videoCleanupInterval s with Some timer => [ClearInterval timer] | None => [] end
       ++ map (fun e => OnVideoSourceRemove (fst e)) (receivedVideos s)
       ++ map (fun e => RevokeObjectURL (url (snd e))) (receivedVideos s)
       ++ (if isSendingVideo s then []
           else match videoPeerConnection s with
                | Some p => [ClosePeerConnection p] | None => [] end
                ++ match videoWsConnection s with
                   | Some w => [CloseWebSocket (ws_handle w)] | None => [] end)
       ++ [OnVideoStateChange viewing false])
    /\ videoCleanupInterval s' = None
    /\ receivedVideos s' = []
    /\ legFlags s' = (isSendingAudio s, isListeningAudio s, isSendingVideo s, false)
    /\ isConnected s' = isConnected s
    /\ audioWsConnection s' = audioWsConnection s
    /\ audioPeerConnection s' = audioPeerConnection s
    /\ localStream s' = localStream s
    /\ videoInterval s' = videoInterval s
    /\ videoElement s' = videoElement s
    /\ (if isSendingVideo s
        then videoWsConnection s' = videoWsConnection s
             /\ videoPeerConnection s' = videoPeerConnection s
             /\ videoDataChannel s' = videoDataChannel s
        else videoWsConnection s' = None
             /\ videoPeerConnection s' = None
             /\ videoDataChannel s' = None)
    /\ audioSide s' = audioSide s.
Proof.
  destruct s. unfold stopViewingVideo, closeVideoConnectionIfUnused, legFlags, audioSide.
  cbn [Sdk.videoCleanupInterval Sdk.receivedVideos Sdk.isSendingVideo
       Sdk.videoWsConnection Sdk.videoPeerConnection Sdk.videoDataChannel
       Sdk.isSendingAudio Sdk.isListeningAudio Sdk.audioWsConnection
       Sdk.audioPeerConnection Sdk.isConnected Sdk.localStream Sdk.videoInterval
       Sdk.videoElement Sdk.remoteAudioElement].
  run. cbn.
  destruct videoCleanupInterval0; cbn; rewrite !emitAll_run; cbn;
    destruct isSendingVideo0; cbn;
    destruct videoPeerConnection0, videoWsConnection0; cbn;
    rewrite ?app_nil_r, <- ?app_assoc; cbn;
    eexists; (split; [reflexivity|]); cbn; repeat split; reflexivity.
Qed.

(** What the two audio stops leave alone, on an idle leg. *)
Lemma stopSendingAudio_idle_rest (s : TankRTC) :
  isSendingAudio s = false ->
  audioWsConnection (final (stopSendingAudio s)) = audioWsConnection s
  /\ audioPeerConnection (final (stopSendingAudio s)) = audioPeerConnection s
  /\ videoSide (final (stopSendingAudio s)) = videoSide s
  /\ filter isLinkEvent (trace (stopSendingAudio s)) = [].
Proof.
  destruct s. cbn [Sdk.isSendingAudio]. intros ->.
  destruct audioWsConnection0 as [[? []]|], clientId0, localStream0,
    safariAudioContext0, isSafari0, isListeningAudio0; repeat split; reflexivity.
Qed.

Lemma stopListeningAudio_idle_rest (s : TankRTC) :
  isListeningAudio s = false ->
  audioWsConnection (final (stopListeningAudio s)) = audioWsConnection s
  /\ audioPeerConnection (final (stopListeningAudio s)) = audioPeerConnection s
  /\ videoSide (final (stopListeningAudio s)) = videoSide s
  /\ filter isLinkEvent (trace (stopListeningAudio s)) = [].
Proof.
  destruct s. cbn [Sdk.isListeningAudio]. intros ->.
  destruct remoteAudioElement0, safariAudioContext0, isSafari0, isSendingAudio0;
    repeat split; reflexivity.
Qed.

Lemma stopSendingVideo_idle_rest (s : TankRTC) :
  isSendingVideo s = false ->
  audioWsConnection (final (stopSendingVideo s)) = audioWsConnection s
  /\ audioPeerConnection (final (stopSendingVideo s)) = audioPeerConnection s
  /\ receivedVideos (final (stopSendingVideo s)) = receivedVideos s
  /\ (linkHeldWhileActive s = true ->
      videoWsConnection (final (stopSendingVideo s)) = videoWsConnection s
      /\ videoPeerConnection (final (stopSendingVideo s)) = videoPeerConnection s
      /\ videoDataChannel (final (stopSendingVideo s)) = videoDataChannel s
      /\ filter isLinkEvent (trace (stopSendingVideo s)) = []).
Proof.
  destruct s. unfold linkHeldWhileActive.
  cbn [Sdk.isSendingVideo Sdk.isViewingVideo Sdk.videoWsConnection
       Sdk.videoPeerConnection Sdk.videoDataChannel]. intros ->.
  destruct videoDataChannel0 as [[? []]|], videoInterval0, videoElement0,
    isViewingVideo0, videoPeerConnection0, videoWsConnection0;
    repeat split; try reflexivity; intros; discriminate.
Qed.

Lemma stopViewingVideo_idle_rest (s : TankRTC) :
  isViewingVideo s = false ->
  audioWsConnection (final (stopViewingVideo s)) = audioWsConnection s
  /\ audioPeerConnection (final (stopViewingVideo s)) = audioPeerConnection s
  /\ receivedVideos (final (stopViewingVideo s)) = []
  /\ filter isSourceRemove (trace (stopViewingVideo s))
     = map (fun e => OnVideoSourceRemove (fst e)) (receivedVideos s)
  /\ filter isRevoke (trace (stopViewingVideo s))
     = map (fun e => RevokeObjectURL (url (snd e))) (receivedVideos s)
  /\ (linkHeldWhileActive s = true ->
      videoWsConnection (final (stopViewingVideo s)) = videoWsConnection s
      /\ videoPeerConnection (final (stopViewingVideo s)) = videoPeerConnection s
      /\ videoDataChannel (final (stopViewingVideo s)) = videoDataChannel s
      /\ filter isLinkEvent (trace (stopViewingVideo s)) = []).
Proof.
  intros Hv.
  destruct (stopViewingVideo_run s)
    as (s' & E & _ & Hc & _ & _ & Haw & Hap & _ & _ & _ & Hl & _).
  rewrite E. cbn [final trace fst snd].
  do 3 (split; [assumption|]).
  rewrite !filter_app.
  rewrite (filter_map_all isSourceRemove
             (fun e : JSString * VideoEntry => OnVideoSourceRemove (fst e))),
    (filter_map_none isSourceRemove
       (fun e : JSString * VideoEntry => RevokeObjectURL (url (snd e)))),
    (filter_map_none isRevoke
       (fun e : JSString * VideoEntry => OnVideoSourceRemove (fst e))),
    (filter_map_all isRevoke
       (fun e : JSString * VideoEntry => RevokeObjectURL (url (snd e)))),
    (filter_map_none isLinkEvent
       (fun e : JSString * VideoEntry => OnVideoSourceRemove (fst e))),
    (filter_map_none isLinkEvent
       (fun e : JSString * VideoEntry => RevokeObjectURL (url (snd e))))
    by reflexivity.
  split; [|split].
  - destruct (videoCleanupInterval s), (isSendingVideo s),
      (videoPeerConnection s), (videoWsConnection s); cbn; now rewrite ?app_nil_r.
  - destruct (videoCleanupInterval s), (isSendingVideo s),
      (videoPeerConnection s), (videoWsConnection s); cbn; now rewrite ?app_nil_r.
  - unfold linkHeldWhileActive. rewrite Hv. intros Hh.
    destruct (isSendingVideo s).
    + destruct Hl as (Hw & Hp & Hd). repeat split; try assumption.
      now destruct (videoCleanupInterval s).
    + cbn [orb] in Hh. destruct Hl as (Hw & Hp & Hd). rewrite Hw, Hp, Hd.
      destruct (videoWsConnection s), (videoPeerConnection s), (videoDataChannel s);
        try discriminate Hh.
      repeat split. now destruct (videoCleanupInterval s).
Qed.

(** C4, as amended.  Stopping a leg that is idle leaves the four leg
    flags, the connections of both families and the cache as they were,
    with two differences: the state-change callback of the leg is called
    once, with [false]; and [stopViewingVideo] empties the cache, calling
    source-remove for every entry and revoking every blob URL.  (For the
    two video legs the connections are those of an object that holds a
    video link only under a video flag, which every history of calls
    gives.) *)
Theorem stop_idle_leg (s : TankRTC) :
  (isSendingAudio s = false ->
     let r := stopSendingAudio s in
     legFlags (final r) = legFlags s
     /\ filter isStateChange (trace r) = [OnAudioStateChange sending false]
     /\ audioWsConnection (final r) = audioWsConnection s
     /\ audioPeerConnection (final r) = audioPeerConnection s
     /\ videoSide (final r) = videoSide s
     /\ filter isLinkEvent (trace r) = [])
  /\ (isListeningAudio s = false ->
     let r := stopListeningAudio s in
     legFlags (final r) = legFlags s
     /\ filter isStateChange (trace r) = [OnAudioStateChange listening false]
     /\ audioWsConnection (final r) = audioWsConnection s
     /\ audioPeerConnection (final r) = audioPeerConnection s
     /\ videoSide (final r) = videoSide s
     /\ filter isLinkEvent (trace r) = [])
  /\ (isSendingVideo s = false ->
     let r := stopSendingVideo s in
     legFlags (final r) = legFlags s
     /\ filter isStateChange (trace r) = [OnVideoStateChange sending false]
     /\ audioWsConnection (final r) = audioWsConnection s
     /\ audioPeerConnection (final r) = audioPeerConnection s
     /\ receivedVideos (final r) = receivedVideos s
     /\ (linkHeldWhileActive s = true ->
         videoWsConnection (final r) = videoWsConnection s
         /\ videoPeerConnection (final r) = videoPeerConnection s
         /\ videoDataChannel (final r) = videoDataChannel s
         /\ filter isLinkEvent (trace r) = []))
  /\ (isViewingVideo s = false ->
     let r := stopViewingVideo s in
     legFlags (final r) = legFlags s
     /\ filter isStateChange (trace r) = [OnVideoStateChange viewing false]
     /\ audioWsConnection (final r) = audioWsConnection s
     /\ audioPeerConnection (final r) = audioPeerConnection s
     /\ receivedVideos (final r) = []
     /\ filter isSourceRemove (trace r)
        = map (fun e => OnVideoSourceRemove (fst e)) (receivedVideos s)
     /\ filter isRevoke (trace r)
        = map (fun e => RevokeObjectURL (url (snd e))) (receivedVideos s)
     /\ (linkHeldWhileActive s = true ->
         videoWsConnection (final r) = videoWsConnection s
         /\ videoPeerConnection (final r) = videoPeerConnection s
         /\ videoDataChannel (final r) = videoDataChannel s
         /\ filter isLinkEvent (trace r) = [])).
Proof.
  split; [|split; [|split]]; intros H; cbv zeta.
  - destruct (stopSendingAudio_idle s H). destruct (stopSendingAudio_idle_rest s H).
    auto.
  - destruct (stopListeningAudio_idle s H). destruct (stopListeningAudio_idle_rest s H).
    auto.
  - destruct (stopSendingVideo_idle s H). destruct (stopSendingVideo_idle_rest s H).
    auto.
  - destruct (stopViewingVideo_idle s H). destruct (stopViewingVideo_idle_rest s H).
    auto.
Qed.

Lemma stop_idle_leg_witness :
  (audioWsConnection listeningAudio = Some (mkWebSocket 0 OPEN)
   /\ audioWsConnection (final (stopSendingAudio listeningAudio))
      = audioWsConnection listeningAudio
   /\ filter isStateChange (trace (stopSendingAudio listeningAudio))
      = [OnAudioStateChange sending false])
  /\ (videoWsConnection watchingP1 = Some (mkWebSocket 0 OPEN)
      /\ videoWsConnection (final (stopSendingVideo watchingP1))
         = videoWsConnection watchingP1
      /\ receivedVideos (final (stopSendingVideo watchingP1)) = receivedVideos watchingP1
      /\ filter isStateChange (trace (stopSendingVideo watchingP1))
         = [OnVideoStateChange sending false])
  /\ (videoWsConnection sendingWithFrame = Some (mkWebSocket 2 OPEN)
      /\ videoWsConnection (final (stopViewingVideo sendingWithFrame))
         = videoWsConnection sendingWithFrame
      /\ receivedVideos (final (stopViewingVideo sendingWithFrame)) = []
      /\ filter isStateChange (trace (stopViewingVideo sendingWithFrame))
         = [OnVideoStateChange viewing false]).
Proof.
  assert (I1 : isSendingAudio listeningAudio = false) by (vm_compute; reflexivity).
  assert (I3 : isSendingVideo watchingP1 = false) by (vm_compute; reflexivity).
  assert (K3 : linkHeldWhileActive watchingP1 = true) by (vm_compute; reflexivity).
  assert (I4 : isViewingVideo sendingWithFrame = false) by (vm_compute; reflexivity).
  assert (K4 : linkHeldWhileActive sendingWithFrame = true) by (vm_compute; reflexivity).
  destruct (stop_idle_leg listeningAudio) as (H1 & _).
  destruct (stop_idle_leg watchingP1) as (_ & _ & H3 & _).
  destruct (stop_idle_leg sendingWithFrame) as (_ & _ & _ & H4).
  specialize (H1 I1). specialize (H3 I3). specialize (H4 I4).
  cbv zeta in H1, H3, H4.
  destruct H1 as (_ & E1 & W1 & _).
  destruct H3 as (_ & E3 & _ & _ & R3 & L3). destruct (L3 K3) as (W3 & _).
  destruct H4 as (_ & E4 & _ & _ & R4 & _ & _ & L4). destruct (L4 K4) as (W4 & _).
  assert (X1 : audioWsConnection listeningAudio = Some (mkWebSocket 0 OPEN))
    by (vm_compute; reflexivity).
  assert (X3 : videoWsConnection watchingP1 = Some (mkWebSocket 0 OPEN))
    by (vm_compute; reflexivity).
  assert (X4 : videoWsConnection sendingWithFrame = Some (mkWebSocket 2 OPEN))
    by (vm_compute; reflexivity).
  exact (conj (conj X1 (conj W1 E1))
           (conj (conj X3 (conj W3 (conj R3 E3)))
                 (conj X4 (conj W4 (conj R4 E4))))).
Defined.

(** C4 fails as it is stated.  On an object whose legs are all idle
    [stopSendingVideo] calls [onVideoStateChange('sending', false)]; and
    [stopViewingVideo], called while only the send leg is active, empties a
    cache that holds a frame, reports the removal and the state change. *)
Lemma stop_idle_leg_counterexample :
  (isSendingVideo idle = false
   /\ trace (stopSendingVideo idle) = [OnVideoStateChange sending false])
  /\ (isViewingVideo sendingWithFrame = false
      /\ receivedVideos sendingWithFrame = [(p1, mkVideoEntry 6 (nanoseconds 1000) 7)]
      /\ receivedVideos (final (stopViewingVideo sendingWithFrame)) = []
      /\ trace (stopViewingVideo sendingWithFrame)
         = [OnVideoSourceRemove p1; RevokeObjectURL 6; OnVideoStateChange viewing false]).
Proof. repeat split; vm_compute; reflexivity. Qed.

(** Once the video socket or the data channel has closed, the video link
    is not ready any more, and the next start of a video leg makes a new
    one. *)
Lemma closed_link_not_ready (s : TankRTC) :
  isVideoConnectionReady (final (onVideoSocketClose s)) = false
  /\ isVideoConnectionReady (final (onVideoDataChannelClose s)) = false.
Proof.
  destruct s. unfold isVideoConnectionReady. cbn.
  split; [reflexivity|]. now rewrite andb_false_r.
Qed.








(** C2.  The video data channel does not open: [startViewingVideo] and
    [startSendingVideo] report the error and return normally with their
    flag still set, so that a later start is skipped.  On a failure of the
    audio socket [startSendingAudio] clears its flag, reports and throws;
    [startListeningAudio] clears its flag and reports, and returns
    normally. *)
Theorem failed_video_start_stays_active :
  (let r := startViewingVideo noVideoChannel idle in
   completion r = Normal tt
   /\ isViewingVideo (final r) = true
   /\ filter isErrorEvent (trace r)
      = [OnError Failed_to_start_viewing_video ChannelOpenTimeout]
   /\ startViewingVideo allGood (final r) = (Normal tt, final r, []))
  /\ (let r := startSendingVideo noVideoChannel idle in
      completion r = Normal tt
      /\ isSendingVideo (final r) = true
      /\ filter isErrorEvent (trace r)
         = [OnError Failed_to_start_sending_video ChannelOpenTimeout])
  /\ (let r := startSendingAudio noAudioSocket idle in
      completion r = Throw SocketError
      /\ isSendingAudio (final r) = false
      /\ filter isErrorEvent (trace r)
         = [OnError Failed_to_start_sending_audio SocketError])
  /\ (let r := startListeningAudio noAudioSocket idle in
      completion r = Normal tt
      /\ isListeningAudio (final r) = false
      /\ filter isErrorEvent (trace r)
         = [OnError Failed_to_start_listening_audio SocketError]).
Proof. repeat split; vm_compute; reflexivity. Qed.

End LegFacts.

(** ** The scanner: what it returns, and on which containers *)

Module ScannerFacts.
Import Bytes Text Jpeg Sdk BytesFacts JpegFacts.

Lemma shl8_or_bytes (hi lo : Z) :
  0 <= hi < 256 -> 0 <= lo < 256 ->
  Z.lor (Z.shiftl hi 8) lo = hi * 256 + lo.
Proof.
  intros Hh Hl. rewrite Z.shiftl_mul_pow2 by lia. change (2 ^ 8) with 256.
  assert (Hland : Z.land (hi * 256) lo = 0).
  { apply Z.bits_inj'. intros n Hn. rewrite Z.land_spec, Z.bits_0.
    destruct (Z.ltb_spec n 8).
    - change 256 with (2 ^ 8). rewrite Z.mul_pow2_bits_low by lia. reflexivity.
    - destruct (Z.eq_dec lo 0) as [->|Hne]; [now rewrite Z.bits_0, andb_false_r|].
      rewrite (Z.bits_above_log2 lo n), andb_false_r; [reflexivity|lia|].
      apply Z.log2_lt_pow2; [lia|]. apply Z.lt_le_trans with (2 ^ 8); [cbn; lia|].
      apply Z.pow_le_mono_r; lia. }
  rewrite <- (Z.lxor_lor _ _ Hland). symmetry. now apply Z.add_nocarry_lxor.
Qed.

Lemma toInt_range (read : ReadMode) (data : list byte) (i : Z) (x : option Z) :
  yieldsBytes read -> read data i = Value x -> 0 <= toInt x < 256.
Proof.
  intros Hy Hr. destruct x as [v|]; cbn; [|lia]. exact (Hy _ _ _ Hr).
Qed.

Lemma shl8_or_range (read : ReadMode) (data : list byte) (i j : Z) (hi lo : option Z) :
  yieldsBytes read -> read data i = Value hi -> read data j = Value lo ->
  0 <= shl8_or hi lo < 65536.
Proof.
  intros Hy Hi Hj. unfold shl8_or.
  pose proof (toInt_range _ _ _ _ Hy Hi). pose proof (toInt_range _ _ _ _ Hy Hj).
  rewrite shl8_or_bytes by assumption. lia.
Qed.

(** What the scanner can return. *)
Lemma scan_js_result (data : list byte) (fuel : nat) (offset : Z) :
  2 <= offset -> (0 < fuel)%nat -> byteLength data - 1 - offset < Z.of_nat fuel ->
  match scan js_read fuel data offset with
  | NotFound => True
  | Found width height =>
      0 <= width < 65536 /\ 0 <= height < 65536 /\ 12 <= byteLength data
  | _ => False
  end.
Proof.
  revert offset. induction fuel as [|fuel IH]; intros offset H2 Hpos Hfuel; [lia|].
  cbn [scan]. destruct (Z.ltb_spec offset (byteLength data - 1)); [|exact I].
  assert (Hnext : forall d, 1 <= d ->
            match scan js_read fuel data (offset + d) with
            | NotFound => True
            | Found width height =>
                0 <= width < 65536 /\ 0 <= height < 65536 /\ 12 <= byteLength data
            | _ => False
            end).
  { intros d Hd. apply IH; lia. }
  unfold js_read at 1. cbn [read_then].
  destruct (strict_eq _ 255); [|apply Hnext; lia].
  unfold js_read at 1. cbn [read_then].
  destruct (strict_ne _ 0); [|apply Hnext; lia].
  destruct (js_ge _ 192 && js_le _ 195); cbn [andb].
  - destruct (Z.ltb_spec (offset + 9) (byteLength data)).
    + unfold js_read at 1 2 3 4. cbn [read_then].
      split; [|split]; try lia;
        eapply (shl8_or_range js_read data); try apply js_read_bytes; reflexivity.
    + destruct (_ <? _); [|exact I].
      unfold js_read at 1 2. cbn [read_then]. apply Hnext.
      pose proof (shl8_or_range js_read data (offset + 2) (offset + 3) _ _
                    js_read_bytes eq_refl eq_refl). lia.
  - destruct (_ <? _); [|exact I].
    unfold js_read at 1 2. cbn [read_then]. apply Hnext.
    pose proof (shl8_or_range js_read data (offset + 2) (offset + 3) _ _
                  js_read_bytes eq_refl eq_refl). lia.
Qed.

(** X1: the scanner ends on every byte array, without an error, with null
    or with dimensions of 16 bits each, and the latter only on 12 bytes or
    more. *)
Theorem getJPEGDimensions_result (data : list byte) :
  getJPEGDimensions js_read data = NotFound
  \/ exists width height,
       getJPEGDimensions js_read data = Found width height
       /\ 0 <= width < 65536 /\ 0 <= height < 65536 /\ 12 <= byteLength data.
Proof.
  assert (H := scan_js_result data (S (length data)) 2).
  unfold getJPEGDimensions.
  assert (H' : byteLength data - 1 - 2 < Z.of_nat (S (length data)))
    by (unfold byteLength; lia).
  specialize (H ltac:(lia) ltac:(lia) H').
  destruct (scan js_read (S (length data)) data 2) as [w h| | |];
    [right; exists w, h; split; [reflexivity|exact H]|now left|destruct H|destruct H].
Qed.

Lemma checked_read_in_range (data : list byte) (j : Z) :
  0 <= j < byteLength data -> checked_read data j = js_read data j.
Proof.
  intros Hj. destruct (index_in_range data j Hj) as [v Hv].
  unfold checked_read, js_read. now rewrite Hv.
Qed.

Lemma scan_checked_js (data : list byte) (fuel : nat) (offset : Z) :
  0 <= offset -> (0 < fuel)%nat -> byteLength data - 1 - offset < Z.of_nat fuel ->
  scan js_read fuel data offset
  = match scan checked_read fuel data offset with
    | BadIndex _ => NotFound
    | r => r
    end.
Proof.
  revert offset. induction fuel as [|fuel IH]; intros offset H0 Hpos Hfuel; [lia|].
  cbn [scan]. destruct (Z.ltb_spec offset (byteLength data - 1)); [|reflexivity].
  assert (Hnext : forall d, 1 <= d ->
            scan js_read fuel data (offset + d)
            = match scan checked_read fuel data (offset + d) with
              | BadIndex _ => NotFound
              | r => r
              end).
  { intros d Hd. apply IH; lia. }
  assert (Hjs : forall j, js_read data j = Value (index data j)) by reflexivity.
  rewrite (checked_read_in_range data offset), (Hjs offset) by lia. cbn [read_then].
  destruct (strict_eq _ 255); [|apply Hnext; lia].
  rewrite (checked_read_in_range data (offset + 1)), (Hjs (offset + 1)) by lia.
  cbn [read_then].
  destruct (strict_ne _ 0); [|apply Hnext; lia].
  assert (Hlen : offset + 2 < byteLength data ->
            read_then (js_read data (offset + 2)) (fun l1 =>
            read_then (js_read data (offset + 3)) (fun l0 =>
            scan js_read fuel data (offset + (2 + shl8_or l1 l0))))
            = match
                read_then (checked_read data (offset + 2)) (fun l1 =>
                read_then (checked_read data (offset + 3)) (fun l0 =>
                scan checked_read fuel data (offset + (2 + shl8_or l1 l0))))
              with
              | BadIndex _ => NotFound
              | r => r
              end).
  { intros Hl.
    rewrite (checked_read_in_range data (offset + 2)), (Hjs (offset + 2)) by lia.
    cbn [read_then].
    destruct (Z.ltb_spec (offset + 3) (byteLength data)) as [Hin|Hout].
    - rewrite (checked_read_in_range data (offset + 3)), (Hjs (offset + 3)) by lia.
      cbn [read_then]. apply Hnext.
      pose proof (shl8_or_range js_read data (offset + 2) (offset + 3) _ _
                    js_read_bytes eq_refl eq_refl). lia.
    - assert (Ei : index data (offset + 3) = None).
      { unfold index. destruct (Z.ltb_spec (offset + 3) (byteLength data)); [lia|].
        now rewrite andb_false_r. }
      rewrite (Hjs (offset + 3)). unfold checked_read. rewrite Ei. cbn [read_then].
      destruct fuel as [|fuel']; [lia|]. cbn [scan].
      pose proof (shl8_or_range js_read data (offset + 2) (offset + 3) _ None
                    js_read_bytes eq_refl ltac:(unfold js_read; now rewrite Ei)).
      destruct (Z.ltb_spec (offset + (2 + shl8_or (index data (offset + 2)) None))
                  (byteLength data - 1)); [lia|reflexivity]. }
  destruct (js_ge _ 192 && js_le _ 195); cbn [andb].
  - destruct (Z.ltb_spec (offset + 9) (byteLength data)).
    + rewrite !checked_read_in_range, !Hjs by lia. cbn [read_then]. reflexivity.
    + destruct (Z.ltb_spec (offset + 2) (byteLength data)); [|reflexivity].
      now apply Hlen.
  - destruct (Z.ltb_spec (offset + 2) (byteLength data)); [|reflexivity].
    now apply Hlen.
Qed.

(** X2: the read past the end never shows in the result: where the checked
    scan stops on it the scanner returns null, and everywhere else the two
    agree. *)
Theorem read_past_end_is_benign (data : list byte) :
  getJPEGDimensions js_read data
  = match getJPEGDimensions checked_read data with
    | BadIndex _ => NotFound
    | r => r
    end.
Proof.
  unfold getJPEGDimensions. apply scan_checked_js; [lia|lia|].
  unfold byteLength. lia.
Qed.

Lemma index_app_r (pre post : list byte) (k : Z) :
  0 <= k -> index (pre ++ post) (byteLength pre + k) = index post k.
Proof.
  intros Hk. unfold index. rewrite byteLength_app.
  assert (E : Z.to_nat (byteLength pre + k) = (length pre + Z.to_nat k)%nat)
    by (unfold byteLength; lia).
  rewrite E, nth_error_app2 by lia.
  replace (length pre + Z.to_nat k - length pre)%nat with (Z.to_nat k) by lia.
  pose proof (byteLength_nonneg pre).
  destruct (Z.leb_spec 0 k); [|lia].
  destruct (Z.leb_spec 0 (byteLength pre + k)); [|lia].
  destruct (Z.ltb_spec k (byteLength post));
    destruct (Z.ltb_spec (byteLength pre + k) (byteLength pre + byteLength post));
    try lia; reflexivity.
Qed.

Lemma index_nth (post : list byte) (k : nat) (b : byte) :
  nth_error post k = Some b -> index post (Z.of_nat k) = Some (byte_to_Z b).
Proof.
  intros E. unfold index. rewrite Nat2Z.id, E.
  assert (k < length post)%nat by (apply nth_error_Some; congruence).
  destruct (Z.leb_spec 0 (Z.of_nat k)); [|lia].
  destruct (Z.ltb_spec (Z.of_nat k) (byteLength post)); [reflexivity|].
  unfold byteLength in *. lia.
Qed.

Lemma js_read_at (pre post : list byte) (k : nat) (b : byte) :
  nth_error post k = Some b ->
  js_read (pre ++ post) (byteLength pre + Z.of_nat k) = Value (Some (byte_to_Z b)).
Proof.
  intros E. unfold js_read. rewrite index_app_r by lia. now rewrite (index_nth _ _ _ E).
Qed.

Lemma shl8_or_be_bytes (v : Z) :
  0 <= v < 65536 ->
  shl8_or (Some (byte_to_Z (byte_of_Z (Z.shiftr v 8))))
          (Some (byte_to_Z (byte_of_Z v))) = v.
Proof.
  intros Hv. unfold shl8_or, toInt. rewrite !byte_to_of_Z.
  rewrite Z.shiftr_div_pow2 by lia. change (2 ^ 8) with 256.
  rewrite shl8_or_bytes by (apply Z.mod_pos_bound; lia).
  rewrite (Z.mod_small (v / 256)) by (split; [apply Z.div_pos|apply Z.div_lt_upper_bound]; lia).
  pose proof (Z.div_mod v 256 ltac:(lia)). lia.
Qed.

Lemma byteLength_segment (marker : Z) (body : list byte) :
  byteLength (segment marker body) = 4 + byteLength body.
Proof. unfold segment, byteLength. rewrite !length_app. cbn [length bytes map be_bytes]. lia. Qed.

(** One turn of the loop over a segment it steps over. *)
Lemma scan_segment (fuel : nat) (pre tail : list byte) (marker : Z) (body : list byte) :
  skippable (marker, body) = true ->
  scan js_read (S fuel) (pre ++ segment marker body ++ tail) (byteLength pre)
  = scan js_read fuel (pre ++ segment marker body ++ tail)
      (byteLength pre + byteLength (segment marker body)).
Proof.
  unfold skippable, isSkippedMarker. cbn [fst snd]. intros Hs.
  apply andb_prop in Hs as [Hm Hlen]. apply andb_prop in Hm as [Hm Hnf].
  apply andb_prop in Hm as [Hm1 Hm2].
  apply Z.leb_le in Hm1, Hm2. apply Z.ltb_lt in Hlen.
  pose proof (byteLength_nonneg body) as Hb. pose proof (byteLength_nonneg pre) as Hp.
  pose proof (byteLength_nonneg tail) as Ht.
  rewrite byteLength_segment.
  set (data := pre ++ segment marker body ++ tail).
  assert (Hd : byteLength data = byteLength pre + (4 + byteLength body) + byteLength tail).
  { unfold data. rewrite !byteLength_app, byteLength_segment. lia. }
  assert (R : forall (k : nat) b,
            nth_error (segment marker body ++ tail) k = Some b ->
            js_read data (byteLength pre + Z.of_nat k) = Value (Some (byte_to_Z b))).
  { intros k b E. exact (js_read_at pre _ k b E). }
  pose proof (R 0%nat _ eq_refl) as R0. pose proof (R 1%nat _ eq_refl) as R1.
  pose proof (R 2%nat _ eq_refl) as R2. pose proof (R 3%nat _ eq_refl) as R3.
  cbn [Z.of_nat Pos.of_succ_nat Pos.succ] in R0, R1, R2, R3.
  rewrite Z.add_0_r in R0.
  cbn [scan]. destruct (Z.ltb_spec (byteLength pre) (byteLength data - 1)); [|lia].
  rewrite R0. cbn [read_then].
  rewrite byte_to_of_Z_small by lia. cbn [strict_eq]. rewrite Z.eqb_refl.
  rewrite R1. cbn [read_then]. rewrite byte_to_of_Z_small by lia.
  unfold strict_ne, strict_eq, js_ge, js_le.
  destruct (Z.eqb_spec marker 0); [lia|]. cbn [negb].
  rewrite negb_true_iff in Hnf. rewrite Hnf. cbn [andb].
  destruct (Z.ltb_spec (byteLength pre + 2) (byteLength data)); [|lia].
  rewrite R2, R3. cbn [read_then]. cbv zeta.
  change (8 * Z.of_nat 1) with 8. change (8 * Z.of_nat 0) with 0.
  rewrite Z.shiftr_0_r.
  rewrite shl8_or_be_bytes by lia.
  f_equal. lia.
Qed.

(** The loop over a run of segments it steps over. *)
Lemma scan_segments (segs : list (Z * list byte)) :
  forall (fuel : nat) (pre tail : list byte),
  forallb skippable segs = true ->
  scan js_read (length segs + fuel) (pre ++ segments segs ++ tail) (byteLength pre)
  = scan js_read fuel (pre ++ segments segs ++ tail)
      (byteLength pre + byteLength (segments segs)).
Proof.
  induction segs as [|[marker body] segs IH]; intros fuel pre tail Hs.
  - cbn. now rewrite Z.add_0_r.
  - cbn [forallb] in Hs. apply andb_prop in Hs as [Hseg Hrest].
    cbn [segments flat_map fst snd length Nat.add]. fold (segments segs).
    rewrite <- !app_assoc.
    rewrite (scan_segment _ pre (segments segs ++ tail) marker body Hseg).
    rewrite <- byteLength_app.
    rewrite (app_assoc pre (segment marker body)).
    rewrite (IH fuel (pre ++ segment marker body) tail Hrest).
    rewrite !byteLength_app. f_equal. lia.
Qed.

(** One turn of the loop on a frame header that is followed by a byte. *)
Lemma scan_frameHeader (fuel : nat) (pre rest : list byte)
      (marker len precision height width : Z) :
  isFrameMarker marker = true ->
  0 <= height < 65536 -> 0 <= width < 65536 -> rest <> [] ->
  scan js_read (S fuel)
    (pre ++ frameHeader marker len precision height width ++ rest) (byteLength pre)
  = Found width height.
Proof.
  unfold isFrameMarker. intros Hm Hh Hw Hrest.
  apply andb_prop in Hm as [Hm1 Hm2]. pose proof Hm1 as Hm1'. pose proof Hm2 as Hm2'.
  apply Z.leb_le in Hm1', Hm2'.
  pose proof (byteLength_nonneg pre) as Hp.
  assert (Hr : 1 <= byteLength rest).
  { destruct rest; [congruence|]. unfold byteLength. cbn [length]. lia. }
  set (data := pre ++ frameHeader marker len precision height width ++ rest).
  assert (Hd : byteLength data = byteLength pre + 9 + byteLength rest).
  { unfold data, frameHeader, byteLength. rewrite !length_app.
    cbn [length bytes map be_bytes]. lia. }
  assert (R : forall (k : nat) b,
            nth_error (frameHeader marker len precision height width ++ rest) k = Some b ->
            js_read data (byteLength pre + Z.of_nat k) = Value (Some (byte_to_Z b))).
  { intros k b E. exact (js_read_at pre _ k b E). }
  pose proof (R 0%nat _ eq_refl) as R0. pose proof (R 1%nat _ eq_refl) as R1.
  pose proof (R 5%nat _ eq_refl) as R5. pose proof (R 6%nat _ eq_refl) as R6.
  pose proof (R 7%nat _ eq_refl) as R7. pose proof (R 8%nat _ eq_refl) as R8.
  cbn [Z.of_nat Pos.of_succ_nat Pos.succ] in R0, R1, R5, R6, R7, R8.
  rewrite Z.add_0_r in R0.
  cbn [scan]. destruct (Z.ltb_spec (byteLength pre) (byteLength data - 1)); [|lia].
  rewrite R0. cbn [read_then].
  rewrite byte_to_of_Z_small by lia. cbn [strict_eq]. rewrite Z.eqb_refl.
  rewrite R1. cbn [read_then]. rewrite byte_to_of_Z_small by lia.
  unfold strict_ne, strict_eq, js_ge, js_le.
  destruct (Z.eqb_spec marker 0); [lia|]. cbn [negb].
  rewrite Hm1, Hm2. cbn [andb].
  destruct (Z.ltb_spec (byteLength pre + 9) (byteLength data)); [|lia].
  rewrite R5, R6, R7, R8. cbn [read_then].
  change (8 * Z.of_nat 1) with 8. change (8 * Z.of_nat 0) with 0.
  rewrite !Z.shiftr_0_r.
  now rewrite !shl8_or_be_bytes by lia.
Qed.

(** X3: on a container made of two leading bytes, any run of segments
    whose markers are neither 0 nor in 0xC0..0xC3, and a frame header with
    such a marker that is followed by at least one byte, the scanner
    returns the width and the height that the header declares. *)
Theorem getJPEGDimensions_frame_header
        (soi : list byte) (segs : list (Z * list byte))
        (marker len precision height width : Z) (rest : list byte) :
  length soi = 2%nat ->
  forallb skippable segs = true ->
  isFrameMarker marker = true ->
  0 <= height < 65536 -> 0 <= width < 65536 -> rest <> [] ->
  getJPEGDimensions js_read
    (soi ++ segments segs ++ frameHeader marker len precision height width ++ rest)
  = Found width height.
Proof.
  intros Hsoi Hs Hm Hh Hw Hrest. unfold getJPEGDimensions.
  set (tail := frameHeader marker len precision height width ++ rest).
  set (data := soi ++ segments segs ++ tail).
  assert (Hlen : (length segs + 1 <= S (length data))%nat).
  { unfold data. rewrite !length_app.
    assert (length segs <= length (segments segs))%nat.
    { clear. induction segs as [|[m b] segs IH]; [cbn; lia|].
      cbn [segments flat_map length fst snd]. fold (segments segs).
      rewrite length_app. unfold segment. rewrite !length_app. cbn. lia. }
    lia. }
  assert (Ef : exists fuel, S (length data) = (length segs + S fuel)%nat)
    by (exists (length data - length segs)%nat; lia).
  destruct Ef as [fuel ->].
  change 2 with (Z.of_nat 2). rewrite <- Hsoi. fold (byteLength soi).
  unfold data. rewrite (scan_segments segs _ soi tail Hs).
  rewrite <- byteLength_app, app_assoc.
  unfold tail. now apply scan_frameHeader.
Qed.

Lemma getJPEGDimensions_frame_header_witness :
  getJPEGDimensions js_read
    (bytes [0xFF; 0xD8] ++ segments [(0xE0, bytes [1; 2; 3]); (0xDB, [])]
       ++ frameHeader 0xC2 17 8 480 640 ++ bytes [3])
  = Found 640 480.
Proof.
  apply getJPEGDimensions_frame_header;
    first [reflexivity | lia | discriminate].
Defined.

End ScannerFacts.

(** ** The envelope on the wire *)

Module WireFacts.
Import Bytes Text Jpeg Sdk BytesFacts TextFacts EnvelopeFacts HandlerFacts.

Lemma be_value_bound (bs : list byte) :
  0 <= be_value 0 bs < 2 ^ (8 * Z.of_nat (length bs)).
Proof.
  induction bs as [|b bs IH] using rev_ind.
  - cbn. lia.
  - rewrite be_value_app, length_app. cbn [be_value length].
    pose proof (byte_to_Z_range b).
    replace (8 * Z.of_nat (length bs + 1)) with (8 * Z.of_nat (length bs) + 8) by lia.
    rewrite Z.pow_add_r by lia. change (2 ^ 8) with 256. lia.
Qed.

Lemma be_value_acc (acc : Z) (bs : list byte) :
  be_value acc bs = acc * 2 ^ (8 * Z.of_nat (length bs)) + be_value 0 bs.
Proof.
  revert acc. induction bs as [|b bs IH]; intros acc.
  - cbn. lia.
  - cbn [be_value length]. rewrite IH, (IH (0 * 256 + byte_to_Z b)).
    replace (8 * Z.of_nat (S (length bs))) with (8 + 8 * Z.of_nat (length bs)) by lia.
    rewrite Z.pow_add_r by lia. change (2 ^ 8) with 256. lia.
Qed.

Lemma be_bytes_add (j k : nat) (v c : Z) :
  (j <= k)%nat -> be_bytes j (c * 2 ^ (8 * Z.of_nat k) + v) = be_bytes j v.
Proof.
  induction j as [|j IH]; intros Hjk; [reflexivity|].
  cbn [be_bytes]. rewrite IH by lia. f_equal.
  rewrite !Z.shiftr_div_pow2 by lia.
  replace (8 * Z.of_nat k) with (8 * Z.of_nat j + (8 + 8 * Z.of_nat (k - S j))) by lia.
  rewrite Z.pow_add_r, (Z.pow_add_r 2 8) by lia. change (2 ^ 8) with 256.
  assert (Hp : 0 < 2 ^ (8 * Z.of_nat j)) by (apply Z.pow_pos_nonneg; lia).
  replace (c * (2 ^ (8 * Z.of_nat j) * (256 * 2 ^ (8 * Z.of_nat (k - S j)))) + v)
    with (v + (c * 256 * 2 ^ (8 * Z.of_nat (k - S j))) * 2 ^ (8 * Z.of_nat j)) by lia.
  rewrite Z.div_add by lia.
  unfold byte_of_Z.
  replace (v / 2 ^ (8 * Z.of_nat j) + c * 256 * 2 ^ (8 * Z.of_nat (k - S j)))
    with (v / 2 ^ (8 * Z.of_nat j) + (c * 2 ^ (8 * Z.of_nat (k - S j))) * 256) by lia.
  now rewrite Z.mod_add by lia.
Qed.

(** Writing back the number read from a run of bytes gives the bytes. *)
Lemma be_bytes_be_value (bs : list byte) :
  be_bytes (length bs) (be_value 0 bs) = bs.
Proof.
  induction bs as [|b bs IH]; [reflexivity|].
  cbn [length be_bytes be_value]. rewrite be_value_acc.
  pose proof (be_value_bound bs) as Hb. pose proof (byte_to_Z_range b) as Hr.
  assert (Hp : 0 < 2 ^ (8 * Z.of_nat (length bs))) by (apply Z.pow_pos_nonneg; lia).
  f_equal.
  - rewrite Z.shiftr_div_pow2 by lia.
    rewrite Z.add_comm, Z.div_add, Z.div_small by lia.
    cbn [Z.add]. replace (0 * 256 + byte_to_Z b) with (byte_to_Z b) by lia.
    apply byte_of_to_Z.
  - rewrite be_bytes_add by lia. exact IH.
Qed.

Lemma getUint_bytes (n : nat) (data : list byte) (off v : Z) :
  getUint n data off = Some v ->
  firstn n (skipn (Z.to_nat off) data) = be_bytes n v
  /\ 0 <= off /\ off + Z.of_nat n <= byteLength data
  /\ 0 <= v < 2 ^ (8 * Z.of_nat n).
Proof.
  unfold getUint. destruct (Z.leb_spec 0 off); [|discriminate].
  destruct (Z.leb_spec (off + Z.of_nat n) (byteLength data)); [|discriminate].
  cbn [andb]. intros [= <-].
  set (bs := firstn n (skipn (Z.to_nat off) data)).
  assert (Hl : length bs = n).
  { unfold bs. rewrite length_firstn, length_skipn. unfold byteLength in *. lia. }
  pose proof (be_value_bound bs) as Hb. pose proof (be_bytes_be_value bs) as Hbb.
  rewrite Hl in Hb, Hbb. repeat split; auto; lia.
Qed.

Lemma skipn_firstn_skipn (A : Type) (n m : nat) (l : list A) :
  skipn n l = firstn m (skipn n l) ++ skipn (n + m) l.
Proof.
  rewrite <- (firstn_skipn m (skipn n l)) at 1. f_equal.
  rewrite skipn_skipn. f_equal. lia.
Qed.

Lemma slice_inside (data : list byte) (a b : Z) :
  0 <= a <= b -> b <= byteLength data ->
  slice data a b = firstn (Z.to_nat (b - a)) (skipn (Z.to_nat a) data).
Proof.
  intros Ha Hb. unfold slice, clampIndex.
  destruct (Z.ltb_spec a 0); [lia|]. destruct (Z.ltb_spec b 0); [lia|].
  rewrite !Z.min_l by lia. now rewrite Z.max_l by lia.
Qed.

Lemma slice_from_inside (data : list byte) (a : Z) :
  0 <= a <= byteLength data -> slice_from data a = skipn (Z.to_nat a) data.
Proof.
  intros Ha. unfold slice_from. rewrite slice_inside by lia.
  apply firstn_all2. rewrite length_skipn. unfold byteLength in *. lia.
Qed.

(** What the reader knows of a message it accepts. *)
Lemma parseEnvelope_Parsed (data : list byte) (f : Envelope) :
  parseEnvelope data = Parsed f ->
  exists n,
    20 <= byteLength data /\ 1 <= n <= 1000 /\ n + 16 <= byteLength data
    /\ getUint32 data 0 = Some n
    /\ env_clientID f = TextDecoder_decode (slice data 4 (4 + n))
    /\ isEmpty (env_clientID f) || isEmpty (trim (env_clientID f)) = false
    /\ getBigUint64 data (4 + n) = Some (env_timestamp f)
    /\ getUint32 data (12 + n) = Some (env_frameNumber f)
    /\ env_videoData f = slice_from data (16 + n)
    /\ byteLength (env_videoData f) <> 0.
Proof.
  unfold parseEnvelope.
  destruct (Z.ltb_spec (byteLength data) 20); [discriminate|].
  destruct (getUint32 data 0) as [n|] eqn:En; [|discriminate].
  destruct (Z.leb_spec n 0); [discriminate|].
  destruct (Z.ltb_spec 1000 n); [discriminate|].
  destruct (Z.ltb_spec (byteLength data) (n + 16)); [discriminate|]. cbn [orb].
  destruct (isEmpty _ || isEmpty _) eqn:Eid; [discriminate|].
  destruct (getBigUint64 data (4 + n)) as [ts|] eqn:Ets; [|discriminate].
  destruct (getUint32 data (12 + n)) as [fn|] eqn:Efn; [|discriminate].
  destruct (Z.eqb_spec (byteLength (slice_from data (16 + n))) 0); [discriminate|].
  intros [= <-]. cbn [env_clientID env_timestamp env_frameNumber env_videoData].
  exists n. repeat split; auto; lia.
Qed.

(** X4: a message that the reader accepts is the five fields one after
    the other and nothing else: the length of the identity (1 to 1000), the
    identity bytes, the timestamp on 8 bytes, the frame number on 4 bytes
    and a payload of at least one byte; the identity read is the decoding
    of the identity bytes and is not blank.  When the identity bytes are
    the encoding of the identity read, building a message from the fields
    read gives the message back. *)
Theorem accepted_message_layout (data : list byte) (f : Envelope) :
  parseEnvelope data = Parsed f ->
  exists clientIDBytes,
    data = be_bytes 4 (byteLength clientIDBytes) ++ clientIDBytes
             ++ be_bytes 8 (env_timestamp f) ++ be_bytes 4 (env_frameNumber f)
             ++ env_videoData f
    /\ 1 <= byteLength clientIDBytes <= 1000
    /\ env_clientID f = TextDecoder_decode clientIDBytes
    /\ isEmpty (trim (env_clientID f)) = false
    /\ 0 <= env_timestamp f < 2 ^ 64
    /\ 0 <= env_frameNumber f < 2 ^ 32
    /\ env_videoData f <> []
    /\ (TextEncoder_encode (env_clientID f) = clientIDBytes ->
        buildVideoMessage (env_clientID f) (env_timestamp f) (env_frameNumber f)
          (env_videoData f) = data).
Proof.
  intros Hp. destruct (parseEnvelope_Parsed data f Hp)
    as (n & H20 & Hn & Hfit & En & Eid & Hblank & Ets & Efn & Evd & Hne).
  apply getUint_bytes in En as (B0 & _ & _ & _).
  apply getUint_bytes in Ets as (B1 & _ & _ & Rts).
  apply getUint_bytes in Efn as (B2 & _ & _ & Rfn).
  rewrite slice_inside in Eid by lia. rewrite slice_from_inside in Evd by lia.
  replace (Z.to_nat (4 + n - 4)) with (Z.to_nat n) in Eid by lia.
  set (idB := firstn (Z.to_nat n) (skipn (Z.to_nat 4) data)) in *.
  assert (Hl : byteLength idB = n).
  { unfold idB, byteLength in *. rewrite length_firstn, length_skipn. lia. }
  assert (Hdata : data = be_bytes 4 n ++ idB ++ be_bytes 8 (env_timestamp f)
                           ++ be_bytes 4 (env_frameNumber f) ++ env_videoData f).
  { rewrite <- B0, <- B1, <- B2, Evd. cbn [skipn Z.to_nat].
    rewrite <- (firstn_skipn 4 data) at 1. f_equal.
    rewrite (skipn_firstn_skipn _ 4 (Z.to_nat n) data) at 1. f_equal.
    replace (Z.to_nat (4 + n)) with (4 + Z.to_nat n)%nat by lia.
    rewrite (skipn_firstn_skipn _ (4 + Z.to_nat n) 8 data) at 1. f_equal.
    replace (Z.to_nat (12 + n)) with (4 + Z.to_nat n + 8)%nat by lia.
    rewrite (skipn_firstn_skipn _ (4 + Z.to_nat n + 8) 4 data) at 1. f_equal.
    f_equal. lia. }
  exists idB. rewrite Hl. split; [exact Hdata|repeat split; auto; try lia].
  - apply orb_false_iff in Hblank. tauto.
  - intros E. rewrite E in Hne. now apply Hne.
  - intros Eenc. rewrite buildVideoMessage_layout, Eenc, Hl. symmetry. exact Hdata.
Qed.

Lemma accepted_message_layout_witness :
  exists clientIDBytes,
    frame7 = be_bytes 4 (byteLength clientIDBytes) ++ clientIDBytes
               ++ be_bytes 8 (nanoseconds 1000) ++ be_bytes 4 7 ++ jpeg64x64
    /\ 1 <= byteLength clientIDBytes <= 1000
    /\ p1 = TextDecoder_decode clientIDBytes
    /\ isEmpty (trim p1) = false
    /\ 0 <= nanoseconds 1000 < 2 ^ 64
    /\ 0 <= 7 < 2 ^ 32
    /\ jpeg64x64 <> []
    /\ (TextEncoder_encode p1 = clientIDBytes ->
        buildVideoMessage p1 (nanoseconds 1000) 7 jpeg64x64 = frame7).
Proof.
  apply (accepted_message_layout frame7 (mkEnvelope p1 (nanoseconds 1000) 7 jpeg64x64)).
  vm_compute. reflexivity.
Defined.

(** X5: what the receiving side reads in the message of [sendVideoFrame]:
    the message has 16 bytes more than the identity and the image, the
    length of the identity is read at 0, the timestamp and the frame number
    behind the identity, cut to 64 and 32 bits, and the image from there to
    the end; nothing of the zero-filled buffer is left. *)
Theorem video_message_fields (id : JSString) (ts frameNo : Z) (blob : list byte) :
  let clientIDBytes := TextEncoder_encode id in
  let clientIDLen := byteLength clientIDBytes in
  let message := buildVideoMessage id ts frameNo blob in
  byteLength message = 16 + clientIDLen + byteLength blob
  /\ getUint32 message 0 = Some (clientIDLen mod 2 ^ 32)
  /\ slice message 4 (4 + clientIDLen) = clientIDBytes
  /\ getBigUint64 message (4 + clientIDLen) = Some (ts mod 2 ^ 64)
  /\ getUint32 message (12 + clientIDLen) = Some (frameNo mod 2 ^ 32)
  /\ slice_from message (16 + clientIDLen) = blob.
Proof.
  intros idB L message. subst message.
  split; [apply byteLength_buildVideoMessage|].
  rewrite buildVideoMessage_layout. fold idB. fold L.
  repeat split.
  - pose proof (getUint_app 4 [] (idB ++ be_bytes 8 ts ++ be_bytes 4 frameNo ++ blob) L) as E0.
    cbn [app] in E0. exact E0.
  - apply (slice_app (be_bytes 4 L) idB (be_bytes 8 ts ++ be_bytes 4 frameNo ++ blob)).
  - pose proof (getUint_app 8 (be_bytes 4 L ++ idB) (be_bytes 4 frameNo ++ blob) ts) as E1.
    rewrite byteLength_app, byteLength_be_bytes in E1. fold L in E1.
    rewrite <- app_assoc in E1. exact E1.
  - pose proof (getUint_app 4 (be_bytes 4 L ++ idB ++ be_bytes 8 ts) blob frameNo) as E2.
    rewrite !byteLength_app, !byteLength_be_bytes in E2. fold L in E2.
    rewrite <- !app_assoc in E2.
    replace (Z.of_nat 4 + (L + Z.of_nat 8)) with (12 + L) in E2 by lia. exact E2.
  - pose proof (slice_from_app (be_bytes 4 L ++ idB ++ be_bytes 8 ts ++ be_bytes 4 frameNo) blob) as E3.
    rewrite !byteLength_app, !byteLength_be_bytes in E3. fold L in E3.
    rewrite <- !app_assoc in E3.
    replace (Z.of_nat 4 + (L + (Z.of_nat 8 + Z.of_nat 4))) with (16 + L) in E3 by lia.
    exact E3.
Qed.

End WireFacts.

(** ** Frames: from the capture loop to the cache *)

Module FrameFacts.
Import Bytes Text Jpeg Sdk MonadFacts BytesFacts TextFacts EnvelopeFacts HandlerFacts CacheFacts
  JpegFacts ScannerFacts.

Ltac run_in H :=
  cbv [Sdk.bind Sdk.ret Sdk.this Sdk.assign Sdk.emit Sdk.fresh Sdk.throw
       Sdk.try_catch Sdk.when Sdk.completion Sdk.final Sdk.trace fst snd] in H.

(** The two ways [handleIncomingVideoMessage] ends in JavaScript. *)
Lemma handle_cases (nowMs : Z) (data : list byte) (s : TankRTC) :
  (exists why, handleIncomingVideoMessage nowMs data s = (Normal (Discarded why), s, []))
  \/ (exists f,
        parseEnvelope data = Parsed f
        /\ olderThan (frameAgeMs (nanoseconds nowMs) (env_timestamp f)) 1000 = false
        /\ index (env_videoData f) 0 = Some 0xFF
        /\ index (env_videoData f) 1 = Some 0xD8
        /\ getJPEGDimensions js_read (env_videoData f)
           = Found (videoWidth (config s)) (videoHeight (config s))
        /\ handleIncomingVideoMessage nowMs data s
           = (Normal (Stored (negb (JSMap.has (env_clientID f) (receivedVideos s)))),
              set_receivedVideos
                (JSMap.set (env_clientID f)
                   (mkVideoEntry (nextHandle s) (env_timestamp f) (env_frameNumber f))
                   (receivedVideos s))
                (set_nextHandle (S (nextHandle s)) s),
              [CreateObjectURL (nextHandle s);
               if negb (JSMap.has (env_clientID f) (receivedVideos s))
               then OnVideoSourceAdd (env_clientID f) (nextHandle s)
               else OnVideoFrameUpdate (env_clientID f) (nextHandle s)])).
Proof.
  remember (handleIncomingVideoMessage nowMs data s) as r eqn:Hr.
  unfold handleIncomingVideoMessage, handleIncomingVideoMessageWith in Hr.
  destruct (parseEnvelope data) as [f|why|e] eqn:Ep.
  - destruct (olderThan _ 1000) eqn:Eage; [left; eexists; exact Hr|].
    destruct (byteLength (env_videoData f) <? 2); [left; eexists; exact Hr|].
    unfold js_read at 1 2 in Hr.
    destruct (strict_ne (index (env_videoData f) 0) 255) eqn:E0; [left; eexists; exact Hr|].
    destruct (strict_ne (index (env_videoData f) 1) 216) eqn:E1; [left; eexists; exact Hr|].
    cbn [orb] in Hr.
    destruct (getJPEGDimensions js_read (env_videoData f)) as [w h| |i|] eqn:Ed;
      [|left; eexists; exact Hr| |left; eexists; exact Hr].
    + run_in Hr.
      destruct (Z.eqb_spec w (videoWidth (config s))) as [->|]; [|left; eexists; exact Hr].
      destruct (Z.eqb_spec h (videoHeight (config s))) as [->|]; [|left; eexists; exact Hr].
      cbn [negb orb] in Hr. right. exists f.
      unfold strict_ne, strict_eq in E0, E1.
      destruct (index (env_videoData f) 0) as [b0|]; [|discriminate].
      destruct (index (env_videoData f) 1) as [b1|]; [|discriminate].
      apply negb_false_iff, Z.eqb_eq in E0, E1. subst b0 b1.
      do 5 (split; [first [reflexivity|assumption]|]).
      cbn [receivedVideos set_nextHandle nextHandle] in Hr. rewrite Hr.
      destruct (negb (JSMap.has (env_clientID f) (receivedVideos s))); reflexivity.
    + exfalso. unfold getJPEGDimensions in Ed. exact (scan_js_no_error _ _ _ _ Ed).
  - left. eexists. exact Hr.
  - exfalso. exact (parseEnvelope_no_exception _ _ Ep).
Qed.

(** X6: a frame that is dropped, for whichever of the reasons, leaves the
    object as it was and calls nothing: the last good image stays. *)
Theorem dropped_frame_changes_nothing
        (nowMs : Z) (data : list byte) (s : TankRTC) (why : Discard) :
  completion (handleIncomingVideoMessage nowMs data s) = Normal (Discarded why) ->
  final (handleIncomingVideoMessage nowMs data s) = s
  /\ trace (handleIncomingVideoMessage nowMs data s) = [].
Proof.
  destruct (handle_cases nowMs data s) as [[why' E]|(f & _ & _ & _ & _ & _ & E)];
    rewrite E; cbn; [auto|discriminate].
Qed.

Lemma dropped_frame_changes_nothing_witness :
  final (handleIncomingVideoMessage 1000 jpegCut watchingP1) = watchingP1
  /\ trace (handleIncomingVideoMessage 1000 jpegCut watchingP1) = [].
Proof.
  apply (dropped_frame_changes_nothing 1000 jpegCut watchingP1 Truncated).
  vm_compute. reflexivity.
Defined.

(** X7: in JavaScript no step of the handler's own code throws (the
    [DataView] reads are inside the buffer, an index outside an array reads
    [undefined]), so with callbacks that return its [catch] is not reached:
    nothing is logged as an error, and every message is either dropped or
    stored. *)
Theorem handler_error_path_unreachable (nowMs : Z) (data : list byte) (s : TankRTC) :
  let r := handleIncomingVideoMessage nowMs data s in
  existsb isLogError (trace r) = false
  /\ ((exists why, completion r = Normal (Discarded why))
      \/ (exists isNewVideoSource, completion r = Normal (Stored isNewVideoSource))).
Proof.
  cbv zeta.
  destruct (handle_cases nowMs data s) as [[why E]|(f & _ & _ & _ & _ & _ & E)];
    rewrite E; cbn [trace completion fst snd existsb orb].
  - split; [reflexivity|left; eauto].
  - split; [|right; eauto].
    destruct (negb (JSMap.has (env_clientID f) (receivedVideos s))); reflexivity.
Qed.

(** X8: a frame is stored only when its envelope reads, it is at most
    1000 ms old, it starts with FF D8 and the scanner finds the configured
    width and height in it; then one blob URL is made, the entry of the
    sender is set to it with the timestamp and the frame number of the
    envelope, the other fields of the object stay, and the one callback is
    source-add for a sender that had no entry and frame-update otherwise. *)
Theorem stored_frame_effect
        (nowMs : Z) (data : list byte) (s : TankRTC) (isNewVideoSource : bool) :
  completion (handleIncomingVideoMessage nowMs data s) = Normal (Stored isNewVideoSource) ->
  exists f,
    parseEnvelope data = Parsed f
    /\ nanoseconds nowMs - env_timestamp f <= 1000 * 1000000
    /\ index (env_videoData f) 0 = Some 0xFF
    /\ index (env_videoData f) 1 = Some 0xD8
    /\ getJPEGDimensions js_read (env_videoData f)
       = Found (videoWidth (config s)) (videoHeight (config s))
    /\ isNewVideoSource = negb (JSMap.has (env_clientID f) (receivedVideos s))
    /\ final (handleIncomingVideoMessage nowMs data s)
       = set_receivedVideos
           (JSMap.set (env_clientID f)
              (mkVideoEntry (nextHandle s) (env_timestamp f) (env_frameNumber f))
              (receivedVideos s))
           (set_nextHandle (S (nextHandle s)) s)
    /\ trace (handleIncomingVideoMessage nowMs data s)
       = [CreateObjectURL (nextHandle s);
          if isNewVideoSource
          then OnVideoSourceAdd (env_clientID f) (nextHandle s)
          else OnVideoFrameUpdate (env_clientID f) (nextHandle s)].
Proof.
  destruct (handle_cases nowMs data s)
    as [[why E]|(f & Ep & Eage & E0 & E1 & Ed & E)];
    rewrite E; cbn [completion final trace fst snd]; [discriminate|].
  intros [= <-]. exists f. repeat split; auto.
  destruct (Z.le_gt_cases (nanoseconds nowMs - env_timestamp f) (1000 * 1000000))
    as [|Hgt]; [assumption|].
  apply olderThan_Z in Hgt. congruence.
Qed.

Lemma stored_frame_effect_witness :
  exists f,
    parseEnvelope frame8 = Parsed f
    /\ nanoseconds 2000 - env_timestamp f <= 1000 * 1000000
    /\ index (env_videoData f) 0 = Some 0xFF
    /\ index (env_videoData f) 1 = Some 0xD8
    /\ getJPEGDimensions js_read (env_videoData f)
       = Found (videoWidth (config watchingP1)) (videoHeight (config watchingP1))
    /\ false = negb (JSMap.has (env_clientID f) (receivedVideos watchingP1))
    /\ final (handleIncomingVideoMessage 2000 frame8 watchingP1)
       = set_receivedVideos
           (JSMap.set (env_clientID f)
              (mkVideoEntry (nextHandle watchingP1) (env_timestamp f) (env_frameNumber f))
              (receivedVideos watchingP1))
           (set_nextHandle (S (nextHandle watchingP1)) watchingP1)
    /\ trace (handleIncomingVideoMessage 2000 frame8 watchingP1)
       = [CreateObjectURL (nextHandle watchingP1);
          OnVideoFrameUpdate (env_clientID f) (nextHandle watchingP1)].
Proof.
  apply (stored_frame_effect 2000 frame8 watchingP1 false).
  vm_compute. reflexivity.
Defined.

Lemma has_set (k k' : JSString) (v : VideoEntry) (m : JSMap.t VideoEntry) :
  JSMap.has k (JSMap.set k' v m) = if string_eq_dec k k' then true else JSMap.has k m.
Proof. unfold JSMap.has. rewrite get_set. now destruct (string_eq_dec k k'). Qed.

Lemma handle_stored (nowMs : Z) (data : list byte) (s : TankRTC) (f : Envelope)
      (isNew : bool) :
  parseEnvelope data = Parsed f ->
  completion (handleIncomingVideoMessage nowMs data s) = Normal (Stored isNew) ->
  isNew = negb (JSMap.has (env_clientID f) (receivedVideos s))
  /\ receivedVideos (final (handleIncomingVideoMessage nowMs data s))
     = JSMap.set (env_clientID f)
         (mkVideoEntry (nextHandle s) (env_timestamp f) (env_frameNumber f))
         (receivedVideos s).
Proof.
  intros Ep.
  destruct (handle_cases nowMs data s) as [[why E]|(g & Eg & _ & _ & _ & _ & E)];
    rewrite E; cbn [completion final fst snd]; [discriminate|].
  rewrite Ep in Eg. injection Eg as <-. intros [= <-]. split; reflexivity.
Qed.

(** The handler never takes a sender out of the cache. *)
Lemma handle_keeps_sources (nowMs : Z) (data : list byte) (s : TankRTC) (k : JSString) :
  JSMap.has k (receivedVideos s) = true ->
  JSMap.has k (receivedVideos (final (handleIncomingVideoMessage nowMs data s))) = true.
Proof.
  intros Hk.
  destruct (handle_cases nowMs data s) as [[why E]|(f & _ & _ & _ & _ & _ & E)];
    rewrite E; cbn [final fst snd receivedVideos set_receivedVideos]; [exact Hk|].
  rewrite has_set. now destruct (string_eq_dec _ _).
Qed.

Lemma handle_all_keeps_sources (frames : list (Z * list byte)) (s : TankRTC) (k : JSString) :
  JSMap.has k (receivedVideos s) = true ->
  JSMap.has k (receivedVideos
                 (fold_left (fun s m => final (handleIncomingVideoMessage (fst m) (snd m) s))
                            frames s)) = true.
Proof.
  revert s. induction frames as [|m frames IH]; intros s Hk; [exact Hk|].
  cbn [fold_left]. apply IH. now apply handle_keeps_sources.
Qed.

(** X9: while only frames arrive, a sender is announced as new once.
    The handler never takes a sender out of the cache; so once a frame of
    a sender has been stored, and whatever frames of whatever senders are
    handled after it, the next frame of that sender that is stored is
    reported as a frame update, not as a new source.  (A sweep, a
    [video-remove] message or a stop of the view leg in between takes the
    entry away, and the sender is then new again.) *)
Theorem cached_source_not_announced_again
        (nowMs nowMs' : Z) (data data' : list byte) (between : list (Z * list byte))
        (s : TankRTC) (f f' : Envelope) (isNew isNew' : bool) :
  parseEnvelope data = Parsed f ->
  parseEnvelope data' = Parsed f' ->
  env_clientID f' = env_clientID f ->
  completion (handleIncomingVideoMessage nowMs data s) = Normal (Stored isNew) ->
  let later :=
    fold_left (fun s m => final (handleIncomingVideoMessage (fst m) (snd m) s))
      between (final (handleIncomingVideoMessage nowMs data s)) in
  completion (handleIncomingVideoMessage nowMs' data' later) = Normal (Stored isNew') ->
  isNew' = false
  /\ trace (handleIncomingVideoMessage nowMs' data' later)
     = [CreateObjectURL (nextHandle later);
        OnVideoFrameUpdate (env_clientID f) (nextHandle later)]
  /\ (forall k, JSMap.has k (receivedVideos s) = true ->
                JSMap.has k (receivedVideos later) = true).
Proof.
  intros Ep Ep' Eid H1 later H2.
  destruct (handle_stored nowMs data s f isNew Ep H1) as [_ Efinal].
  assert (Hin : JSMap.has (env_clientID f) (receivedVideos later) = true).
  { apply handle_all_keeps_sources. rewrite Efinal, has_set.
    now destruct (string_eq_dec _ _). }
  destruct (handle_stored nowMs' data' later f' isNew' Ep' H2) as [Enew _].
  assert (Hnew : isNew' = false) by (now rewrite Enew, Eid, Hin).
  split; [exact Hnew|]. split.
  - destruct (handle_cases nowMs' data' later)
      as [[why E]|(g' & Eg' & _ & _ & _ & _ & E)];
      rewrite E in H2 |- *; cbn [completion trace fst snd] in H2 |- *; [discriminate|].
    rewrite Ep' in Eg'. injection Eg' as <-. rewrite Eid, Hin. reflexivity.
  - intros k Hk. apply handle_all_keeps_sources. now apply handle_keeps_sources.
Qed.

Lemma cached_source_not_announced_again_witness :
  false = false
  /\ trace (handleIncomingVideoMessage 2000 frame8
              (fold_left (fun s m => final (handleIncomingVideoMessage (fst m) (snd m) s))
                 [(1200, declares1001); (1500, frame7)]
                 (final (handleIncomingVideoMessage 1000 frame7 viewingVideo))))
     = [CreateObjectURL
          (nextHandle
             (fold_left (fun s m => final (handleIncomingVideoMessage (fst m) (snd m) s))
                [(1200, declares1001); (1500, frame7)]
                (final (handleIncomingVideoMessage 1000 frame7 viewingVideo))));
        OnVideoFrameUpdate p1
          (nextHandle
             (fold_left (fun s m => final (handleIncomingVideoMessage (fst m) (snd m) s))
                [(1200, declares1001); (1500, frame7)]
                (final (handleIncomingVideoMessage 1000 frame7 viewingVideo))))]
  /\ (forall k, JSMap.has k (receivedVideos viewingVideo) = true ->
                JSMap.has k
                  (receivedVideos
                     (fold_left
                        (fun s m => final (handleIncomingVideoMessage (fst m) (snd m) s))
                        [(1200, declares1001); (1500, frame7)]
                        (final (handleIncomingVideoMessage 1000 frame7 viewingVideo))))
                = true).
Proof.
  apply (cached_source_not_announced_again 1000 2000 frame7 frame8
           [(1200, declares1001); (1500, frame7)] viewingVideo
           (mkEnvelope p1 (nanoseconds 1000) 7 jpeg64x64)
           (mkEnvelope p1 (nanoseconds 2000) 8 jpeg64x64) true false);
    vm_compute; reflexivity.
Defined.

(** X10: a [video-remove] text message takes the entry of the sender out
    of the cache and leaves the others; the blob URL is revoked when there
    was an entry, and source-remove is called in either case. *)
Theorem video_remove_message (nowMs : Z) (clientID : JSString) (s : TankRTC) :
  JSMap.wf (receivedVideos s) ->
  let r := onDataChannelMessage nowMs (VideoRemove clientID) s in
  completion r = Normal tt
  /\ JSMap.get clientID (receivedVideos (final r)) = None
  /\ (forall k, k <> clientID ->
        JSMap.get k (receivedVideos (final r)) = JSMap.get k (receivedVideos s))
  /\ JSMap.wf (receivedVideos (final r))
  /\ trace r = match JSMap.get clientID (receivedVideos s) with
               | Some videoData =>
                   [RevokeObjectURL (url videoData); OnVideoSourceRemove clientID]
               | None => [OnVideoSourceRemove clientID]
               end.
Proof.
  intros Hwf r. subst r. cbn [onDataChannelMessage]. unfold onVideoRemoveMessage. run.
  destruct (JSMap.get clientID (receivedVideos s)) as [e|]; cbn [receivedVideos set_receivedVideos app];
    (split; [reflexivity|]);
    (split; [rewrite get_delete by assumption; now destruct (string_eq_dec _ _)|]);
    (split; [intros k Hk; rewrite get_delete by assumption;
             now destruct (string_eq_dec _ _)|]);
    (split; [now apply wf_delete|reflexivity]).
Qed.

Lemma video_remove_message_witness :
  completion (onDataChannelMessage 1500 (VideoRemove p1) watchingP1) = Normal tt
  /\ JSMap.get p1 (receivedVideos (final (onDataChannelMessage 1500 (VideoRemove p1) watchingP1)))
     = None
  /\ (forall k, k <> p1 ->
        JSMap.get k (receivedVideos (final (onDataChannelMessage 1500 (VideoRemove p1) watchingP1)))
        = JSMap.get k (receivedVideos watchingP1))
  /\ JSMap.wf (receivedVideos (final (onDataChannelMessage 1500 (VideoRemove p1) watchingP1)))
  /\ trace (onDataChannelMessage 1500 (VideoRemove p1) watchingP1)
     = match JSMap.get p1 (receivedVideos watchingP1) with
       | Some videoData => [RevokeObjectURL (url videoData); OnVideoSourceRemove p1]
       | None => [OnVideoSourceRemove p1]
       end.
Proof.
  apply (video_remove_message 1500 p1 watchingP1).
  vm_compute. repeat constructor; cbn; tauto.
Defined.

Lemma delete_fresh (k : JSString) (pre : JSMap.t VideoEntry) (v : VideoEntry)
      (rest : JSMap.t VideoEntry) :
  ~ In k (JSMap.keys pre) ->
  JSMap.delete k (pre ++ (k, v) :: rest) = pre ++ rest.
Proof.
  induction pre as [|[k' v'] pre IH]; intros Hk; cbn [JSMap.delete app].
  - now destruct (string_eq_dec k k).
  - cbn in Hk. destruct (string_eq_dec k k') as [->|]; [tauto|]. rewrite IH; tauto.
Qed.

Lemma sweep_fold (currentTime : Z) (es pre : JSMap.t VideoEntry) :
  JSMap.wf (pre ++ es) ->
  fold_left (fun m e => if isExpired currentTime (snd e)
                        then JSMap.delete (fst e) m else m) es (pre ++ es)
  = pre ++ filter (fun e => negb (isExpired currentTime (snd e))) es.
Proof.
  revert pre. induction es as [|[k v] es IH]; intros pre Hwf; [reflexivity|].
  cbn [fold_left filter fst snd].
  destruct (isExpired currentTime v) eqn:E; cbn [negb].
  - assert (Hk : ~ In k (JSMap.keys pre)).
    { unfold JSMap.wf, JSMap.keys in *. rewrite map_app in Hwf. cbn [map fst] in Hwf.
      apply NoDup_remove_2 in Hwf. rewrite in_app_iff in Hwf. tauto. }
    rewrite delete_fresh by assumption. apply IH.
    unfold JSMap.wf, JSMap.keys in *. rewrite map_app in *. cbn [map fst] in Hwf.
    now apply NoDup_remove_1 in Hwf.
  - change (pre ++ (k, v) :: es) with (pre ++ [(k, v)] ++ es) in *.
    rewrite app_assoc in *. rewrite IH by assumption. now rewrite <- app_assoc.
Qed.

Lemma sweep_fold_fresh (currentTime : Z) (es m : JSMap.t VideoEntry) :
  forallb (fun e => negb (isExpired currentTime (snd e))) es = true ->
  fold_left (fun m e => if isExpired currentTime (snd e)
                        then JSMap.delete (fst e) m else m) es m = m.
Proof.
  revert m. induction es as [|e es IH]; intros m H; [reflexivity|].
  cbn [forallb] in H. apply andb_prop in H as [He Hes].
  cbn [fold_left]. apply negb_true_iff in He. rewrite He. now apply IH.
Qed.

(** X11: the sweep keeps exactly the entries that are at most 2000 ms old,
    unchanged and in their order, and revokes the blob URL of each of the
    others once, in their order; a second sweep at the same time does
    nothing. *)
Theorem sweep_keeps_the_fresh (nowMs : Z) (s : TankRTC) :
  JSMap.wf (receivedVideos s) ->
  let expired := fun e : JSString * VideoEntry => isExpired (nanoseconds nowMs) (snd e) in
  let r := cleanupOldVideos nowMs s in
  final r = set_receivedVideos (filter (fun e => negb (expired e)) (receivedVideos s)) s
  /\ trace r = map (fun e => RevokeObjectURL (url (snd e))) (filter expired (receivedVideos s))
  /\ cleanupOldVideos nowMs (final r) = (Normal tt, final r, []).
Proof.
  intros Hwf expired r.
  assert (Er : r = (Normal tt,
                    set_receivedVideos
                      (filter (fun e => negb (expired e)) (receivedVideos s)) s,
                    map (fun e => RevokeObjectURL (url (snd e)))
                        (filter expired (receivedVideos s)))).
  { subst r. unfold cleanupOldVideos. rewrite this_bind, cleanupLoop_run.
    pose proof (sweep_fold (nanoseconds nowMs) (receivedVideos s) [] Hwf) as Ef.
    cbn [app] in Ef. now rewrite Ef. }
  rewrite Er. cbn [final trace fst snd]. repeat split.
  unfold cleanupOldVideos. rewrite this_bind, cleanupLoop_run.
  set (s' := set_receivedVideos _ s).
  assert (Hf : forallb (fun e => negb (expired e)) (receivedVideos s') = true).
  { unfold s'. destruct s; cbn [receivedVideos set_receivedVideos].
    apply forallb_forall. intros e He. now apply filter_In in He. }
  rewrite sweep_fold_fresh by exact Hf. rewrite set_receivedVideos_same.
  f_equal.
  assert (Hn : filter expired (receivedVideos s') = []).
  { clear - Hf. induction (receivedVideos s') as [|e m IH]; [reflexivity|].
    cbn [forallb] in Hf. apply andb_prop in Hf as [He Hm].
    cbn [filter]. apply negb_true_iff in He. rewrite He. now apply IH. }
  fold expired. now rewrite Hn.
Qed.

Lemma sweep_keeps_the_fresh_witness :
  final (cleanupOldVideos 3500 watchingP1)
  = set_receivedVideos
      (filter (fun e => negb (isExpired (nanoseconds 3500) (snd e)))
              (receivedVideos watchingP1)) watchingP1
  /\ trace (cleanupOldVideos 3500 watchingP1)
     = map (fun e => RevokeObjectURL (url (snd e)))
           (filter (fun e => isExpired (nanoseconds 3500) (snd e)) (receivedVideos watchingP1))
  /\ cleanupOldVideos 3500 (final (cleanupOldVideos 3500 watchingP1))
     = (Normal tt, final (cleanupOldVideos 3500 watchingP1), []).
Proof.
  apply (sweep_keeps_the_fresh 3500 watchingP1).
  vm_compute. repeat constructor; cbn; tauto.
Defined.

(** The frame that passes every test of the handler is stored. *)
Lemma handle_stores (nowMs : Z) (data : list byte) (s : TankRTC) (f : Envelope) :
  parseEnvelope data = Parsed f ->
  olderThan (frameAgeMs (nanoseconds nowMs) (env_timestamp f)) 1000 = false ->
  index (env_videoData f) 0 = Some 0xFF ->
  index (env_videoData f) 1 = Some 0xD8 ->
  getJPEGDimensions js_read (env_videoData f)
  = Found (videoWidth (config s)) (videoHeight (config s)) ->
  handleIncomingVideoMessage nowMs data s
  = (Normal (Stored (negb (JSMap.has (env_clientID f) (receivedVideos s)))),
     set_receivedVideos
       (JSMap.set (env_clientID f)
          (mkVideoEntry (nextHandle s) (env_timestamp f) (env_frameNumber f))
          (receivedVideos s))
       (set_nextHandle (S (nextHandle s)) s),
     [CreateObjectURL (nextHandle s);
      if negb (JSMap.has (env_clientID f) (receivedVideos s))
      then OnVideoSourceAdd (env_clientID f) (nextHandle s)
      else OnVideoFrameUpdate (env_clientID f) (nextHandle s)]).
Proof.
  intros Ep Eage E0 E1 Ed.
  unfold handleIncomingVideoMessage, handleIncomingVideoMessageWith.
  rewrite Ep. cbv zeta. rewrite Eage.
  assert (Hlen : 2 <= byteLength (env_videoData f)).
  { unfold index in E1.
    destruct (Z.ltb_spec 1 (byteLength (env_videoData f))); [lia|].
    now rewrite andb_false_r in E1. }
  destruct (Z.ltb_spec (byteLength (env_videoData f)) 2); [lia|].
  unfold js_read at 1 2. rewrite E0, E1. cbn [strict_ne strict_eq Z.eqb Pos.eqb negb orb].
  rewrite Ed. run. rewrite !Z.eqb_refl. cbn [negb orb].
  cbn [receivedVideos set_nextHandle nextHandle].
  destruct (negb (JSMap.has (env_clientID f) (receivedVideos s))); reflexivity.
Qed.

(** X12: from the capture loop of one object to the cache of another.  A
    frame that [sendVideoFrame] sends for an identity that the text codec
    carries (not blank, 1 to 1000 bytes), with an image that starts with
    FF D8 and in which the scanner finds the dimensions configured on the
    receiving side, is stored by [handleIncomingVideoMessage] there when it
    arrives at most 1000 ms after it was stamped: the entry of the sender
    holds the time and the frame counter of the sender. *)
Theorem sent_frame_is_stored_by_peer
        (nowMs nowMs' : Z) (c : Capture) (image : list byte) (s v : TankRTC)
        (d : DataChannel) :
  isSome (videoContext s) = true -> isSome (videoElement s) = true ->
  videoDataChannel s = Some d -> dc_readyState d = dc_open ->
  hasDimensions c = true -> drawImageThrows c = false -> blob c = Some image ->
  isWellFormed (clientId s) = true ->
  isEmpty (trim (clientId s)) = false ->
  1 <= byteLength (TextEncoder_encode (clientId s)) <= 1000 ->
  0 <= nanoseconds nowMs < 2 ^ 64 ->
  0 <= videoFrameNumber s < 2 ^ 32 ->
  index image 0 = Some 0xFF -> index image 1 = Some 0xD8 ->
  getJPEGDimensions js_read image
  = Found (videoWidth (config v)) (videoHeight (config v)) ->
  nowMs' - nowMs <= 1000 ->
  exists message,
    sendVideoFrame nowMs c s
    = (Normal tt, set_videoFrameNumber (videoFrameNumber s + 1) s,
       [SendDataChannel (dc_handle d) (videoFrame message)])
    /\ completion (handleIncomingVideoMessage nowMs' message v)
       = Normal (Stored (negb (JSMap.has (clientId s) (receivedVideos v))))
    /\ JSMap.get (clientId s)
         (receivedVideos (final (handleIncomingVideoMessage nowMs' message v)))
       = Some (mkVideoEntry (nextHandle v) (nanoseconds nowMs) (videoFrameNumber s)).
Proof.
  intros Hctx Hel Hd Hopen Hdim Hdraw Hblob Hwf Hblank HL Hts Hfn E0 E1 Ed Hage.
  exists (buildVideoMessage (clientId s) (nanoseconds nowMs) (videoFrameNumber s) image).
  assert (Hlen : 12 <= byteLength image).
  { pose proof (scan_js_result image (S (length image)) 2 ltac:(lia) ltac:(lia)
                  ltac:(unfold byteLength; lia)) as Hs.
    unfold getJPEGDimensions in Ed. rewrite Ed in Hs. tauto. }
  assert (Ep := round_trip (clientId s) (nanoseconds nowMs) (videoFrameNumber s) image
                  Hwf Hblank HL Hts Hfn ltac:(lia) ltac:(lia)).
  split.
  - unfold sendVideoFrame. rewrite this_bind.
    destruct (videoContext s); [|discriminate]. destruct (videoElement s); [|discriminate].
    rewrite Hd, Hopen, Hdim, Hdraw, Hblob. unfold postIncrement.
    destruct (Z.ltb_spec (videoFrameNumber s) (2 ^ 53)); [reflexivity|lia].
  - assert (Eage : olderThan
                     (frameAgeMs (nanoseconds nowMs') (nanoseconds nowMs)) 1000 = false).
    { destruct (olderThan _ 1000) eqn:E; [|reflexivity].
      apply olderThan_Z in E. unfold nanoseconds in E. lia. }
    rewrite (handle_stores nowMs' _ v _ Ep Eage E0 E1 Ed).
    cbn [completion final fst snd env_clientID env_timestamp env_frameNumber
         receivedVideos set_receivedVideos].
    split; [reflexivity|]. rewrite get_set. now destruct (string_eq_dec _ _).
Qed.

Lemma sent_frame_is_stored_by_peer_witness :
  exists message,
    sendVideoFrame 1000 (mkCapture true false (Some jpeg64x64) None) sendingVideo
    = (Normal tt, set_videoFrameNumber (videoFrameNumber sendingVideo + 1) sendingVideo,
       [SendDataChannel (dc_handle (mkDataChannel 4 dc_open)) (videoFrame message)])
    /\ completion (handleIncomingVideoMessage 1500 message viewingVideo)
       = Normal (Stored (negb (JSMap.has (clientId sendingVideo) (receivedVideos viewingVideo))))
    /\ JSMap.get (clientId sendingVideo)
         (receivedVideos (final (handleIncomingVideoMessage 1500 message viewingVideo)))
       = Some (mkVideoEntry (nextHandle viewingVideo) (nanoseconds 1000)
                 (videoFrameNumber sendingVideo)).
Proof.
  apply (sent_frame_is_stored_by_peer 1000 1500 (mkCapture true false (Some jpeg64x64) None)
           jpeg64x64 sendingVideo viewingVideo (mkDataChannel 4 dc_open));
    vm_compute; repeat split; first [reflexivity | discriminate].
Defined.

End FrameFacts.

(** ** Stops, starts and [disconnect] *)

Module SessionFacts.
Import Bytes Text Jpeg Sdk MonadFacts BytesFacts HandlerFacts CacheFacts LegFacts.




(** X16: what a start of the send-audio leg comes to.  With the microphone
    granted and the socket open, the flag is set, the stream is held, the
    socket is open with a peer connection, the offer is sent on it and the
    state change is reported, with no error.  Otherwise the flag is cleared,
    the error is reported once and thrown again; when it is the socket that
    failed, the stream that was obtained is still held and its tracks were
    not stopped. *)
Theorem startSendingAudio_outcome (env : Env) (s : TankRTC) :
  isSendingAudio s = false ->
  let r := startSendingAudio env s in
  if microphone env && audioSocketOpens env
  then completion r = Normal tt
       /\ isSendingAudio (final r) = true
       /\ localStream (final r) = Some (nextHandle s)
       /\ audioWsConnection (final r) = Some (mkWebSocket (S (nextHandle s)) OPEN)
       /\ isSome (audioPeerConnection (final r)) = true
       /\ In (SendWebSocket (S (nextHandle s)) offer) (trace r)
       /\ filter isStateChange (trace r) = [OnAudioStateChange sending true]
       /\ filter isErrorEvent (trace r) = []
  else let error := if microphone env then SocketError else MediaError in
       completion r = Throw error
       /\ isSendingAudio (final r) = false
       /\ filter isErrorEvent (trace r) = [OnError Failed_to_start_sending_audio error]
       /\ filter isStateChange (trace r) = []
       /\ (microphone env = true ->
           localStream (final r) = Some (nextHandle s)
           /\ filter isStopTracks (trace r) = []).
Proof.
  destruct s, env. cbn [Sdk.isSendingAudio Sdk.microphone Sdk.audioSocketOpens].
  intros ->.
  destruct microphone0, audioSocketOpens0, audioWsConnection0 as [[? ?]|],
    audioPeerConnection0; vm_compute; repeat split; auto 10; discriminate.
Qed.

Lemma startSendingAudio_outcome_witness :
  completion (startSendingAudio noAudioSocket idle) = Throw SocketError
  /\ isSendingAudio (final (startSendingAudio noAudioSocket idle)) = false
  /\ filter isErrorEvent (trace (startSendingAudio noAudioSocket idle))
     = [OnError Failed_to_start_sending_audio SocketError]
  /\ filter isStateChange (trace (startSendingAudio noAudioSocket idle)) = []
  /\ (microphone noAudioSocket = true ->
      localStream (final (startSendingAudio noAudioSocket idle)) = Some (nextHandle idle)
      /\ filter isStopTracks (trace (startSendingAudio noAudioSocket idle)) = []).
Proof.
  apply (startSendingAudio_outcome noAudioSocket idle). reflexivity.
Defined.

(** X17: a start of the listen-audio leg never throws.  When the socket
    opens the flag is set and the state change is reported; when it does
    not, the flag is cleared again and the error is reported once. *)
Theorem startListeningAudio_outcome (env : Env) (s : TankRTC) :
  isListeningAudio s = false ->
  let r := startListeningAudio env s in
  completion r = Normal tt
  /\ isListeningAudio (final r) = audioSocketOpens env
  /\ filter isStateChange (trace r)
     = (if audioSocketOpens env then [OnAudioStateChange listening true] else [])
  /\ filter isErrorEvent (trace r)
     = (if audioSocketOpens env then []
        else [OnError Failed_to_start_listening_audio SocketError]).
Proof.
  destruct s, env. cbn [Sdk.isListeningAudio Sdk.audioSocketOpens].
  intros ->.
  destruct isSafari0, safariAudioContext0, audioContextSuspended0,
    audioWsConnection0 as [[? ?]|], audioPeerConnection0, audioSocketOpens0;
    vm_compute; repeat split; auto 10.
Qed.

Lemma startListeningAudio_outcome_witness :
  completion (startListeningAudio noAudioSocket idle) = Normal tt
  /\ isListeningAudio (final (startListeningAudio noAudioSocket idle))
     = audioSocketOpens noAudioSocket
  /\ filter isStateChange (trace (startListeningAudio noAudioSocket idle))
     = (if audioSocketOpens noAudioSocket then [OnAudioStateChange listening true] else [])
  /\ filter isErrorEvent (trace (startListeningAudio noAudioSocket idle))
     = (if audioSocketOpens noAudioSocket then []
        else [OnError Failed_to_start_listening_audio SocketError]).
Proof.
  apply (startListeningAudio_outcome noAudioSocket idle). reflexivity.
Defined.

(** X18: when the camera or the microphone is refused, the object is left
    exactly as it was, the existing links included, and the error is
    reported once; [startSendingVideo] then returns, [startSendingAudio]
    throws. *)
Theorem refused_capture_changes_nothing (env : Env) (s : TankRTC) :
  (isSendingVideo s = false -> camera env = false ->
   startSendingVideo env s
   = (Normal tt, s,
      [GetUserMedia VideoFamily; OnError Failed_to_start_sending_video MediaError]))
  /\ (isSendingAudio s = false -> microphone env = false ->
      startSendingAudio env s
      = (Throw MediaError, s,
         [GetUserMedia AudioFamily; OnError Failed_to_start_sending_audio MediaError])).
Proof.
  destruct s, env. cbn [Sdk.isSendingVideo Sdk.isSendingAudio Sdk.camera Sdk.microphone].
  split; intros -> ->; reflexivity.
Qed.

Lemma refused_capture_changes_nothing_witness :
  startSendingVideo (mkEnv false false true true false) watchingP1
  = (Normal tt, watchingP1,
     [GetUserMedia VideoFamily; OnError Failed_to_start_sending_video MediaError])
  /\ startSendingAudio (mkEnv false false true true false) watchingP1
     = (Throw MediaError, watchingP1,
        [GetUserMedia AudioFamily; OnError Failed_to_start_sending_audio MediaError]).
Proof.
  split; apply (refused_capture_changes_nothing (mkEnv false false true true false) watchingP1);
    reflexivity.
Defined.

(** The four steps of [disconnect] before it closes what is left. *)
Lemma stopSendingAudio_step (s : TankRTC) :
  exists s' tr,
    stopSendingAudio s = (Normal tt, s', tr)
    /\ isSendingAudio s' = false /\ localStream s' = None
    /\ isViewingVideo s' = isViewingVideo s
    /\ audioWsConnection s' = audioWsConnection s
    /\ audioPeerConnection s' = audioPeerConnection s
    /\ videoWsConnection s' = videoWsConnection s
    /\ videoPeerConnection s' = videoPeerConnection s
    /\ receivedVideos s' = receivedVideos s.
Proof.
  destruct s. unfold stopSendingAudio, cleanupSafariAudio. run. cbn.
  destruct audioWsConnection0 as [[? []]|], clientId0, localStream0,
    safariAudioContext0, isSafari0, isListeningAudio0; cbn;
    do 2 eexists; (split; [reflexivity|]); cbn; auto 10.
Qed.

Lemma stopListeningAudio_step (s : TankRTC) :
  exists s' tr,
    stopListeningAudio s = (Normal tt, s', tr)
    /\ isListeningAudio s' = false
    /\ isSendingAudio s' = isSendingAudio s /\ localStream s' = localStream s
    /\ isViewingVideo s' = isViewingVideo s
    /\ audioWsConnection s' = audioWsConnection s
    /\ audioPeerConnection s' = audioPeerConnection s
    /\ videoWsConnection s' = videoWsConnection s
    /\ videoPeerConnection s' = videoPeerConnection s
    /\ receivedVideos s' = receivedVideos s.
Proof.
  destruct s. unfold stopListeningAudio, cleanupSafariAudio. run. cbn.
  destruct remoteAudioElement0, safariAudioContext0, isSafari0, isSendingAudio0; cbn;
    do 2 eexists; (split; [reflexivity|]); cbn; auto 10.
Qed.

Lemma stopSendingVideo_step (s : TankRTC) :
  exists s' tr,
    stopSendingVideo s = (Normal tt, s', tr)
    /\ isSendingVideo s' = false /\ videoInterval s' = None /\ videoElement s' = None
    /\ isSendingAudio s' = isSendingAudio s /\ isListeningAudio s' = isListeningAudio s
    /\ isViewingVideo s' = isViewingVideo s
    /\ localStream s' = localStream s
    /\ audioWsConnection s' = audioWsConnection s
    /\ audioPeerConnection s' = audioPeerConnection s
    /\ receivedVideos s' = receivedVideos s
    /\ (if isViewingVideo s
        then videoWsConnection s' = videoWsConnection s
             /\ videoPeerConnection s' = videoPeerConnection s
        else closesLink (videoWsConnection s) (videoPeerConnection s) tr).
Proof.
  destruct s. unfold stopSendingVideo, closeVideoConnectionIfUnused, closesLink.
  run. cbn.
  destruct videoDataChannel0 as [[? []]|];
    destruct videoInterval0, videoElement0, isViewingVideo0,
      videoPeerConnection0, videoWsConnection0;
    cbn; do 2 eexists; (split; [reflexivity|]); cbn;
    repeat split; auto; try discriminate; intros ? [= <-]; auto 10.
Qed.

Lemma cleanupSafariAudio_step (closeContext : bool) (s : TankRTC) :
  exists s' tr,
    cleanupSafariAudio closeContext s = (Normal tt, s', tr)
    /\ getConnectionState s' = getConnectionState s
    /\ localStream s' = localStream s
    /\ videoInterval s' = videoInterval s /\ videoElement s' = videoElement s
    /\ videoCleanupInterval s' = videoCleanupInterval s
    /\ videoDataChannel s' = videoDataChannel s
    /\ audioWsConnection s' = audioWsConnection s
    /\ audioPeerConnection s' = audioPeerConnection s
    /\ videoWsConnection s' = videoWsConnection s
    /\ videoPeerConnection s' = videoPeerConnection s
    /\ receivedVideos s' = receivedVideos s.
Proof.
  destruct s. unfold cleanupSafariAudio, getConnectionState. run. cbn.
  destruct safariAudioContext0, isSafari0, closeContext, isSendingAudio0, isListeningAudio0;
    cbn; do 2 eexists; (split; [reflexivity|]); cbn; auto 12.
Qed.

Lemma bind_run {A B} (m : M A) (k : A -> M B) (s s1 : TankRTC) (a : A) (t1 : list Event) :
  m s = (Normal a, s1, t1) ->
  bind m k s = (completion (k a s1), final (k a s1), t1 ++ trace (k a s1)).
Proof.
  intros E. unfold bind, completion, final, trace. rewrite E.
  now destruct (k a s1) as [[c s2] t2].
Qed.

(** The end of [disconnect]: what is left open is closed. *)
Lemma disconnect_tail (s : TankRTC) :
  receivedVideos s = [] ->
  exists s' tr,
    (s <- this ;;
     match audioWsConnection s with
     | Some w => emit (CloseWebSocket (ws_handle w)) ;; assign (set_audioWsConnection None)
     | None => ret tt
     end ;;
     match videoWsConnection s with
     | Some w => emit (CloseWebSocket (ws_handle w)) ;; assign (set_videoWsConnection None)
     | None => ret tt
     end ;;
     match audioPeerConnection s with
     | Some p => emit (ClosePeerConnection p) ;; assign (set_audioPeerConnection None)
     | None => ret tt
     end ;;
     match videoPeerConnection s with
     | Some p => emit (ClosePeerConnection p) ;; assign (set_videoPeerConnection None)
     | None => ret tt
     end ;;
     emitAll (map (fun e => RevokeObjectURL (url (snd e))) (receivedVideos s)) ;;
     assign (set_receivedVideos []) ;;
     assign (set_isConnected false) ;;
     emit OnDisconnect) s
    = (Normal tt, s', tr ++ [OnDisconnect])
    /\ closesLink (audioWsConnection s) (audioPeerConnection s) (tr ++ [OnDisconnect])
    /\ getConnectionState s'
       = (false, isSendingAudio s, isListeningAudio s, isSendingVideo s, isViewingVideo s)
    /\ audioWsConnection s' = None /\ audioPeerConnection s' = None
    /\ videoWsConnection s' = None /\ videoPeerConnection s' = None
    /\ receivedVideos s' = []
    /\ videoDataChannel s' = videoDataChannel s
    /\ localStream s' = localStream s /\ videoElement s' = videoElement s
    /\ videoInterval s' = videoInterval s
    /\ videoCleanupInterval s' = videoCleanupInterval s.
Proof.
  destruct s. cbn [Sdk.receivedVideos]. intros ->.
  unfold closesLink, getConnectionState. run. cbn.
  destruct audioWsConnection0, videoWsConnection0, audioPeerConnection0,
    videoPeerConnection0; cbn;
    match goal with
    | |- exists s' tr, (_, _, ?t) = _ /\ _ =>
        let t' := eval cbv [app] in (removelast t) in
        eexists; exists t'
    end;
    (split; [reflexivity|]); cbn; repeat split; auto; try discriminate;
    intros ? [= <-]; auto 10.
Qed.

(** The run of [disconnect]. *)
Lemma disconnect_run (s : TankRTC) :
  exists s' tr,
    disconnect s = (Normal tt, s', tr ++ [OnDisconnect])
    /\ getConnectionState s' = (false, false, false, false, false)
    /\ audioWsConnection s' = None /\ audioPeerConnection s' = None
    /\ videoWsConnection s' = None /\ videoPeerConnection s' = None
    /\ videoDataChannel s' = None
    /\ localStream s' = None /\ videoElement s' = None
    /\ videoInterval s' = None /\ videoCleanupInterval s' = None
    /\ receivedVideos s' = []
    /\ closesLink (audioWsConnection s) (audioPeerConnection s) (tr ++ [OnDisconnect])
    /\ closesLink (videoWsConnection s) (videoPeerConnection s) (tr ++ [OnDisconnect])
    /\ (forall id e, In (id, e) (receivedVideos s) ->
          In (OnVideoSourceRemove id) (tr ++ [OnDisconnect])
          /\ In (RevokeObjectURL (url e)) (tr ++ [OnDisconnect])).
Proof.
  destruct (stopSendingAudio_step s)
    as (s1 & t1 & E1 & A1 & L1 & V1 & Aw1 & Ap1 & Vw1 & Vp1 & R1).
  destruct (stopListeningAudio_step s1)
    as (s2 & t2 & E2 & B2 & A2 & L2 & V2 & Aw2 & Ap2 & Vw2 & Vp2 & R2).
  destruct (stopSendingVideo_step s2)
    as (s3 & t3 & E3 & Sv3 & I3 & El3 & A3 & B3 & V3 & L3 & Aw3 & Ap3 & R3 & K3).
  destruct (stopViewingVideo_run s3)
    as (s4 & E4 & T4 & R4 & F4 & _ & Aw4 & Ap4 & L4 & I4 & El4 & K4 & _).
  destruct (cleanupSafariAudio_step true s4)
    as (s5 & t5 & E5 & F5 & L5 & I5 & El5 & T5 & D5 & Aw5 & Ap5 & Vw5 & Vp5 & R5).
  destruct (disconnect_tail s5 ltac:(congruence))
    as (s6 & t6 & E6 & K6 & F6 & Aw6 & Ap6 & Vw6 & Vp6 & R6 & D6 & L6 & El6 & I6 & T6).
  exists s6.
  exists (t1 ++ t2 ++ t3 ++
          (match videoCleanupInterval s3 with
           | Some timer => [ClearInterval timer] | None => [] end
           ++ map (fun e => OnVideoSourceRemove (fst e)) (receivedVideos s3)
           ++ map (fun e => RevokeObjectURL (url (snd e))) (receivedVideos s3)
           ++ (if isSendingVideo s3 then []
               else match videoPeerConnection s3 with
                    | Some p => [ClosePeerConnection p] | None => [] end
                    ++ match videoWsConnection s3 with
                       | Some w => [CloseWebSocket (ws_handle w)] | None => [] end)
           ++ [OnVideoStateChange viewing false]) ++ t5 ++ t6).
  split.
  { unfold disconnect.
    rewrite (bind_run _ _ _ _ _ _ E1), (bind_run _ _ _ _ _ _ E2),
      (bind_run _ _ _ _ _ _ E3), (bind_run _ _ _ _ _ _ E4), (bind_run _ _ _ _ _ _ E5).
    rewrite E6. cbn [completion final trace fst snd].
    rewrite <- !app_assoc. reflexivity. }
  rewrite <- !app_assoc.
  unfold legFlags in F4. injection F4 as A4 B4 Sv4 V4.
  unfold getConnectionState in F5, F6 |- *.
  injection F5 as _ A5 B5 Sv5 V5. injection F6 as N6 A6 B6 Sv6 V6.
  rewrite Sv3 in K4. destruct K4 as (Vw4 & Vp4 & D4).
  split; [repeat f_equal; congruence|].
  do 10 (split; [congruence|]).
  split; [|split].
  - destruct K6 as [Kw Kp]. split.
    + intros w Hw. assert (Hin := Kw w ltac:(congruence)).
      rewrite !in_app_iff in *. tauto.
    + intros p Hp. assert (Hin := Kp p ltac:(congruence)).
      rewrite !in_app_iff in *. tauto.
  - rewrite V2, V1 in K3. rewrite Vw2, Vw1, Vp2, Vp1 in K3.
    destruct (isViewingVideo s).
    + destruct K3 as [Vw3 Vp3]. rewrite Sv3, Vw3, Vp3.
      split.
      * intros w Hw. rewrite Hw, !in_app_iff. cbn. tauto.
      * intros p Hp. rewrite Hp, !in_app_iff. cbn. tauto.
    + destruct K3 as [Kw Kp]. split.
      * intros w Hw. assert (Hin := Kw w Hw). rewrite !in_app_iff. tauto.
      * intros p Hp. assert (Hin := Kp p Hp). rewrite !in_app_iff. tauto.
  - intros id e He. rewrite R3, R2, R1.
    assert (H1 : In (OnVideoSourceRemove id)
                   (map (fun e => OnVideoSourceRemove (fst e)) (receivedVideos s)))
      by (apply in_map_iff; exists (id, e); auto).
    assert (H2 : In (RevokeObjectURL (url e))
                   (map (fun e => RevokeObjectURL (url (snd e))) (receivedVideos s)))
      by (apply in_map_iff; exists (id, e); auto).
    rewrite !in_app_iff. tauto.
Qed.


(** X20: a start of a video leg whose data channel opens (and, for the
    send leg, whose camera is granted) sets the flag, ends with an open
    data channel and a running timer, reports the state change once and no
    error, and leaves the flag of the other video leg as it was. *)
Theorem video_start_succeeds (env : Env) (s : TankRTC) :
  videoChannelOpens env = true ->
  (isViewingVideo s = false ->
   let r := startViewingVideo env s in
   completion r = Normal tt
   /\ isViewingVideo (final r) = true
   /\ isSendingVideo (final r) = isSendingVideo s
   /\ dcIsOpen (videoDataChannel (final r)) = true
   /\ isSome (videoCleanupInterval (final r)) = true
   /\ filter isStateChange (trace r) = [OnVideoStateChange viewing true]
   /\ filter isErrorEvent (trace r) = [])
  /\ (isSendingVideo s = false -> camera env = true ->
      let r := startSendingVideo env s in
      completion r = Normal tt
      /\ isSendingVideo (final r) = true
      /\ isViewingVideo (final r) = isViewingVideo s
      /\ dcIsOpen (videoDataChannel (final r)) = true
      /\ videoElement (final r) = Some (nextHandle s)
      /\ isSome (videoContext (final r)) = true
      /\ isSome (videoInterval (final r)) = true
      /\ filter isStateChange (trace r) = [OnVideoStateChange sending true]
      /\ filter isErrorEvent (trace r) = []).
Proof.
  destruct s, env.
  cbn [Sdk.videoChannelOpens Sdk.isViewingVideo Sdk.isSendingVideo Sdk.camera].
  intros ->. split; [intros ->|intros -> ->];
    destruct videoWsConnection0 as [[? []]|], videoPeerConnection0,
      videoDataChannel0 as [[? []]|];
    vm_compute; repeat split; auto 10.
Qed.

Lemma video_start_succeeds_witness :
  completion (startViewingVideo allGood idle) = Normal tt
  /\ isViewingVideo (final (startViewingVideo allGood idle)) = true
  /\ isSendingVideo (final (startViewingVideo allGood idle)) = isSendingVideo idle
  /\ dcIsOpen (videoDataChannel (final (startViewingVideo allGood idle))) = true
  /\ isSome (videoCleanupInterval (final (startViewingVideo allGood idle))) = true
  /\ filter isStateChange (trace (startViewingVideo allGood idle))
     = [OnVideoStateChange viewing true]
  /\ filter isErrorEvent (trace (startViewingVideo allGood idle)) = [].
Proof.
  apply (video_start_succeeds allGood idle); reflexivity.
Defined.

(** X21: one turn of the capture loop never throws and sends at most one
    frame.  It sends one only with a context, a video element that has its
    dimensions and an open data channel, when [drawImage] succeeds and
    there is an image (the blob, or on Safari the image of the fallback):
    then the message carries the identity of the object, the time in
    nanoseconds, the frame counter and the image, and the counter, an
    integer from 0 to 2^53, goes up by one, or stays when it is 2^53.  In
    every other case the object is unchanged. *)
Theorem sendVideoFrame_outcome (nowMs : Z) (c : Capture) (s : TankRTC) :
  0 <= videoFrameNumber s <= 2 ^ 53 ->
  let r := sendVideoFrame nowMs c s in
  completion r = Normal tt
  /\ 0 <= videoFrameNumber (final r) <= 2 ^ 53
  /\ ((final r = s /\ filter isFrameSend (trace r) = [])
      \/ (exists d image,
            videoDataChannel s = Some d /\ dc_readyState d = dc_open
            /\ isSome (videoContext s) = true /\ isSome (videoElement s) = true
            /\ hasDimensions c = true /\ drawImageThrows c = false
            /\ (blob c = Some image
                \/ (blob c = None /\ isSafari s = true /\ dataURLImage c = Some image))
            /\ final r
               = set_videoFrameNumber
                   (if videoFrameNumber s <? 2 ^ 53
                    then videoFrameNumber s + 1 else videoFrameNumber s) s
            /\ filter isFrameSend (trace r)
               = [SendDataChannel (dc_handle d)
                    (videoFrame (buildVideoMessage (clientId s) (nanoseconds nowMs)
                                   (videoFrameNumber s) image))])).
Proof.
  destruct s, c. cbn [Sdk.videoFrameNumber]. intros Hn.
  assert (Hp : 0 <= postIncrement videoFrameNumber0 <= 2 ^ 53).
  { unfold postIncrement. destruct (Z.ltb_spec videoFrameNumber0 (2 ^ 53)); lia. }
  unfold sendVideoFrame. run. cbn -[Z.pow Z.ltb postIncrement].
  destruct videoContext0; [|cbn -[Z.pow]; auto].
  destruct videoElement0; [|cbn -[Z.pow]; auto].
  destruct videoDataChannel0 as [[dh []]|]; cbn -[Z.pow Z.ltb postIncrement]; auto.
  destruct hasDimensions0; cbn -[Z.pow Z.ltb postIncrement]; auto.
  destruct drawImageThrows0; cbn -[Z.pow Z.ltb postIncrement]; auto.
  destruct blob0 as [image|]; cbn -[Z.pow Z.ltb postIncrement].
  - split; [reflexivity|]. split; [exact Hp|].
    right. exists (mkDataChannel dh dc_open), image. cbn -[Z.pow Z.ltb postIncrement].
    repeat split; auto.
  - destruct isSafari0; cbn -[Z.pow Z.ltb postIncrement]; auto.
    destruct dataURLImage0 as [image|]; cbn -[Z.pow Z.ltb postIncrement]; auto.
    split; [reflexivity|]. split; [exact Hp|].
    right. exists (mkDataChannel dh dc_open), image. cbn -[Z.pow Z.ltb postIncrement].
    repeat split; auto.
Qed.

Lemma sendVideoFrame_outcome_witness :
  videoFrameNumber
    (final (sendVideoFrame 1000 (mkCapture true false (Some jpeg64x64) None)
              (set_videoFrameNumber (2 ^ 53) sendingVideo))) = 2 ^ 53
  /\ 0 <= videoFrameNumber
            (final (sendVideoFrame 1000 (mkCapture true false (Some jpeg64x64) None)
                      (set_videoFrameNumber (2 ^ 53 - 1) sendingVideo))) <= 2 ^ 53.
Proof.
  split; [vm_compute; reflexivity|].
  apply (sendVideoFrame_outcome 1000 (mkCapture true false (Some jpeg64x64) None)
           (set_videoFrameNumber (2 ^ 53 - 1) sendingVideo)).
  vm_compute. split; discriminate.
Defined.

End SessionFacts.

(** ** Every history of calls *)

Module LifeFacts.
Import Bytes Text Jpeg Sdk MonadFacts BytesFacts HandlerFacts CacheFacts LegFacts
  FrameFacts SessionFacts.

Lemma startSendingAudio_videoSide (env : Env) (s : TankRTC) :
  videoSide (final (startSendingAudio env s)) = videoSide s.
Proof.
  destruct s, env.
  destruct isSendingAudio0, microphone0, audioSocketOpens0,
    audioWsConnection0 as [[? ?]|], audioPeerConnection0; reflexivity.
Qed.

Lemma stopSendingAudio_videoSide (s : TankRTC) :
  videoSide (final (stopSendingAudio s)) = videoSide s.
Proof.
  destruct s.
  destruct audioWsConnection0 as [[? []]|], clientId0, localStream0,
    safariAudioContext0, isSafari0, isListeningAudio0; reflexivity.
Qed.

Lemma startListeningAudio_videoSide (env : Env) (s : TankRTC) :
  videoSide (final (startListeningAudio env s)) = videoSide s.
Proof.
  destruct s, env.
  destruct isListeningAudio0, isSafari0, safariAudioContext0, audioContextSuspended0,
    audioWsConnection0 as [[? ?]|], audioPeerConnection0, audioSocketOpens0; reflexivity.
Qed.

Lemma stopListeningAudio_videoSide (s : TankRTC) :
  videoSide (final (stopListeningAudio s)) = videoSide s.
Proof.
  destruct s.
  destruct remoteAudioElement0, safariAudioContext0, isSafari0, isSendingAudio0;
    reflexivity.
Qed.

Lemma startSendingVideo_audioSide (env : Env) (s : TankRTC) :
  audioSide (final (startSendingVideo env s)) = audioSide s.
Proof.
  destruct s, env.
  destruct isSendingVideo0, camera0, videoWsConnection0 as [[? []]|],
    videoPeerConnection0, videoDataChannel0 as [[? []]|], videoChannelOpens0;
    reflexivity.
Qed.

Lemma stopSendingVideo_audioSide (s : TankRTC) :
  audioSide (final (stopSendingVideo s)) = audioSide s.
Proof.
  destruct s.
  destruct videoDataChannel0 as [[? []]|], videoInterval0, videoElement0,
    isViewingVideo0, videoPeerConnection0, videoWsConnection0; reflexivity.
Qed.

Lemma startViewingVideo_audioSide (env : Env) (s : TankRTC) :
  audioSide (final (startViewingVideo env s)) = audioSide s.
Proof.
  destruct s, env.
  destruct isViewingVideo0, videoWsConnection0 as [[? []]|],
    videoPeerConnection0, videoDataChannel0 as [[? []]|], videoChannelOpens0;
    reflexivity.
Qed.

Lemma handle_final (nowMs : Z) (data : list byte) (s : TankRTC) :
  exists m n,
    final (handleIncomingVideoMessage nowMs data s)
    = set_receivedVideos m (set_nextHandle n s).
Proof.
  destruct (handle_cases nowMs data s) as [[why E]|(f & _ & _ & _ & _ & _ & E)];
    rewrite E; cbn [final fst snd].
  - exists (receivedVideos s), (nextHandle s). now destruct s.
  - eauto.
Qed.

Lemma onDataChannelMessage_final (nowMs : Z) (m : ChannelMessage) (s : TankRTC) :
  exists m' n,
    final (onDataChannelMessage nowMs m s) = set_receivedVideos m' (set_nextHandle n s).
Proof.
  destruct m as [data|id|id| |]; cbn [onDataChannelMessage].
  - destruct (handle_final nowMs data s) as (m' & n & E). exists m', n.
    unfold bind, final, ret in *.
    destruct (handleIncomingVideoMessage nowMs data s) as [[[o|e] s1] t1]; cbn in *;
      exact E.
  - exists (receivedVideos s), (nextHandle s). now destruct s.
  - exists (JSMap.delete id (receivedVideos s)), (nextHandle s).
    unfold onVideoRemoveMessage. run.
    destruct s; cbn. now destruct (JSMap.get id receivedVideos0).
  - exists (receivedVideos s), (nextHandle s). now destruct s.
  - exists (receivedVideos s), (nextHandle s). now destruct s.
Qed.

Lemma cleanupOldVideos_final (nowMs : Z) (s : TankRTC) :
  exists m, final (cleanupOldVideos nowMs s) = set_receivedVideos m s.
Proof.
  unfold cleanupOldVideos. rewrite this_bind, cleanupLoop_run. cbn [final fst snd]. eauto.
Qed.

Lemma sendVideoFrame_final (nowMs : Z) (c : Capture) (s : TankRTC) :
  exists n, final (sendVideoFrame nowMs c s) = set_videoFrameNumber n s.
Proof.
  destruct s, c.
  destruct videoContext0, videoElement0, videoDataChannel0 as [[? []]|],
    hasDimensions0, drawImageThrows0, blob0, isSafari0, dataURLImage0;
    eexists; reflexivity.
Qed.

(** X22: the two families are independent: a call on an audio leg leaves
    every field of the video side as it was (flags, link, timers, camera,
    cache, frame counter), and a call on a video leg, a message on the data
    channel and the ticks of the video timers leave the audio side as it
    was (flags, link, microphone, remote element). *)
Theorem families_are_independent (c : Call) (s : TankRTC) :
  (if isAudioCall c then videoSide (after c s) = videoSide s else True)
  /\ (if isVideoCall c then audioSide (after c s) = audioSide s else True).
Proof.
  destruct c as [| |env| |env| |env| |env| |nowMs m|nowMs|nowMs c];
    cbn [isAudioCall isVideoCall after]; split; try exact I.
  - apply startSendingAudio_videoSide.
  - apply stopSendingAudio_videoSide.
  - apply startListeningAudio_videoSide.
  - apply stopListeningAudio_videoSide.
  - apply startSendingVideo_audioSide.
  - apply stopSendingVideo_audioSide.
  - apply startViewingVideo_audioSide.
  - destruct (stopViewingVideo_run s) as (s' & E & H). rewrite E. cbn [final fst snd].
    decompose [and] H. assumption.
  - destruct (onDataChannelMessage_final nowMs m s) as (m' & n & ->). now destruct s.
  - destruct (cleanupOldVideos_final nowMs s) as (m & ->). now destruct s.
  - destruct (sendVideoFrame_final nowMs c s) as (n & ->). now destruct s.
Qed.

(** What every call keeps. *)
Lemma after_invariant (c : Call) (s : TankRTC) :
  JSMap.wf (receivedVideos s) /\ heldWhileActive s = true ->
  JSMap.wf (receivedVideos (after c s)) /\ heldWhileActive (after c s) = true.
Proof.
  assert (Hside : forall s', videoSide s' = videoSide s ->
            JSMap.wf (receivedVideos s) /\ heldWhileActive s = true ->
            JSMap.wf (receivedVideos s') /\ heldWhileActive s' = true).
  { intros s' E. unfold videoSide, heldWhileActive in *.
    injection E as -> -> _ _ _ -> -> -> _ _ -> _. auto. }
  destruct c as [| |env| |env| |env| |env| |nowMs m|nowMs|nowMs c]; cbn [after].
  - apply Hside. now destruct s.
  - intros _. destruct (disconnect_run s) as (s' & tr & E & H). rewrite E.
    cbn [final fst snd]. decompose [and] H.
    unfold getConnectionState in *. unfold heldWhileActive.
    repeat match goal with
           | H : _ s' = _ |- _ => rewrite H
           end.
    split; [constructor|reflexivity].
  - apply Hside, startSendingAudio_videoSide.
  - apply Hside, stopSendingAudio_videoSide.
  - apply Hside, startListeningAudio_videoSide.
  - apply Hside, stopListeningAudio_videoSide.
  - intros [Hwf Hh]. destruct s, env. unfold heldWhileActive in Hh |- *.
    cbn [Sdk.receivedVideos Sdk.videoInterval Sdk.videoElement Sdk.videoCleanupInterval
         Sdk.isSendingVideo Sdk.isViewingVideo] in Hwf, Hh.
    destruct isSendingVideo0, camera0, videoWsConnection0 as [[? []]|],
      videoPeerConnection0, videoDataChannel0 as [[? []]|], videoChannelOpens0,
      videoInterval0, videoElement0, videoCleanupInterval0, isViewingVideo0;
      try discriminate Hh; split; first [exact Hwf | reflexivity].
  - intros [Hwf Hh]. destruct s. unfold heldWhileActive in Hh |- *.
    cbn [Sdk.receivedVideos Sdk.videoInterval Sdk.videoElement Sdk.videoCleanupInterval
         Sdk.isSendingVideo Sdk.isViewingVideo] in Hwf, Hh.
    destruct videoDataChannel0 as [[? []]|], videoInterval0, videoElement0,
      isViewingVideo0, videoPeerConnection0, videoWsConnection0,
      videoCleanupInterval0, isSendingVideo0;
      try discriminate Hh; split; first [exact Hwf | reflexivity].
  - intros [Hwf Hh]. destruct s, env. unfold heldWhileActive in Hh |- *.
    cbn [Sdk.receivedVideos Sdk.videoInterval Sdk.videoElement Sdk.videoCleanupInterval
         Sdk.isSendingVideo Sdk.isViewingVideo] in Hwf, Hh.
    destruct isViewingVideo0, videoWsConnection0 as [[? []]|],
      videoPeerConnection0, videoDataChannel0 as [[? []]|], videoChannelOpens0,
      videoInterval0, videoElement0, videoCleanupInterval0, isSendingVideo0;
      try discriminate Hh; split; first [exact Hwf | reflexivity].
  - intros [Hwf Hh]. destruct (stopViewingVideo_run s) as (s' & E & H). rewrite E.
    cbn [final fst snd]. decompose [and] H.
    unfold legFlags in *. unfold heldWhileActive in Hh |- *.
    match goal with H : (_, _, _, _) = _ |- _ => injection H as _ _ Hsv Hvv end.
    repeat match goal with
           | H : _ s' = _ |- _ => rewrite H
           end.
    split; [constructor|].
    destruct (isSome (videoInterval s)), (isSome (videoElement s)), (isSendingVideo s);
      cbn in *; auto; discriminate.
  - intros [Hwf Hh]. split.
    + destruct m as [data|id|id| |]; cbn [onDataChannelMessage].
      * pose proof (handle_preserves_wf js_read nowMs data s Hwf) as Hw.
        unfold handleIncomingVideoMessage, bind, final, ret in *.
        destruct (handleIncomingVideoMessageWith js_read nowMs data s)
          as [[[o|e] s1] t1]; cbn in *; exact Hw.
      * exact Hwf.
      * unfold onVideoRemoveMessage. run.
        destruct (JSMap.get id (receivedVideos s)); cbn; destruct s; cbn in *;
          now apply wf_delete.
      * exact Hwf.
      * exact Hwf.
    + destruct (onDataChannelMessage_final nowMs m s) as (m' & n & ->). now destruct s.
  - intros [Hwf Hh]. split; [now apply sweep_preserves_wf|].
    destruct (cleanupOldVideos_final nowMs s) as (m & ->). now destruct s.
  - destruct (sendVideoFrame_final nowMs c s) as (n & ->). now destruct s.
Qed.

Lemma afterAll_invariant (history : list Call) (s : TankRTC) :
  JSMap.wf (receivedVideos s) /\ heldWhileActive s = true ->
  JSMap.wf (receivedVideos (afterAll history s))
  /\ heldWhileActive (afterAll history s) = true.
Proof.
  revert s. induction history as [|c history IH]; intros s H; [exact H|].
  unfold afterAll. cbn [fold_left]. apply IH. now apply after_invariant.
Qed.

(** X23: whatever is called on an object from its construction on, in
    whatever order and with whatever the browser does, the cache holds one
    entry per sender. *)
Theorem cache_has_one_entry_per_sender
        (history : list Call) (id : JSString) (cfg : Config) (safari : bool) :
  JSMap.wf (receivedVideos (afterAll history (newTankRTC id cfg safari))).
Proof.
  apply afterAll_invariant. split; [constructor|reflexivity].
Qed.

(** X24: after any history of calls on a new object in which each call
    has settled before the next one is made, a capture timer or a camera
    stream is held only while the flag of the send-video leg is set, and a
    sweep timer only while the flag of the view leg is set: a stop leaves
    none of them behind, and a start that fails leaves either none or the
    flag.  (It is otherwise when a stop falls inside a pending start, as
    shown below.) *)
Theorem video_resources_held_under_flag
        (history : list Call) (id : JSString) (cfg : Config) (safari : bool) :
  heldWhileActive (afterAll history (newTankRTC id cfg safari)) = true.
Proof.
  apply afterAll_invariant. split; [constructor|reflexivity].
Qed.

(** [startViewingVideo], when nothing runs inside it, is its two parts
    one after the other. *)
Lemma startViewingVideo_split (env : Env) (s : TankRTC) :
  startViewingVideo env s
  = (b <- startViewingVideo_begin ;;
     if b then startViewingVideo_resume env else ret tt) s.
Proof.
  destruct s, env.
  destruct isViewingVideo0, videoWsConnection0 as [[? []]|],
    videoPeerConnection0, videoDataChannel0 as [[? []]|], videoChannelOpens0;
    vm_compute; reflexivity.
Qed.

(** What every call keeps: the video link is held under a video flag, and
    the frame counter is an integer from 0 to 2^53. *)
Lemma after_link_invariant (c : Call) (s : TankRTC) :
  linkHeldWhileActive s = true -> linkHeldWhileActive (after c s) = true.
Proof.
  assert (Hside : forall s', videoSide s' = videoSide s ->
            linkHeldWhileActive s = true -> linkHeldWhileActive s' = true).
  { intros s' E. unfold videoSide, linkHeldWhileActive in *.
    injection E as -> -> -> -> -> _ _ _ _ _ _ _. auto. }
  destruct c as [| |env| |env| |env| |env| |nowMs m|nowMs|nowMs c]; cbn [after].
  - apply Hside. now destruct s.
  - intros _. destruct (disconnect_run s) as (s' & tr & E & H). rewrite E.
    cbn [final fst snd]. decompose [and] H.
    unfold linkHeldWhileActive.
    repeat match goal with
           | H : _ s' = None |- _ => rewrite H
           end.
    cbn. apply orb_true_r.
  - apply Hside, startSendingAudio_videoSide.
  - apply Hside, stopSendingAudio_videoSide.
  - apply Hside, startListeningAudio_videoSide.
  - apply Hside, stopListeningAudio_videoSide.
  - destruct s, env. unfold linkHeldWhileActive.
    cbn [Sdk.videoWsConnection Sdk.videoPeerConnection Sdk.videoDataChannel
         Sdk.isSendingVideo Sdk.isViewingVideo].
    intros Hh.
    destruct isSendingVideo0, camera0, videoWsConnection0 as [[? []]|],
      videoPeerConnection0, videoDataChannel0 as [[? []]|], videoChannelOpens0,
      isViewingVideo0; try discriminate Hh; reflexivity.
  - destruct s. unfold linkHeldWhileActive.
    cbn [Sdk.videoWsConnection Sdk.videoPeerConnection Sdk.videoDataChannel
         Sdk.isSendingVideo Sdk.isViewingVideo].
    intros Hh.
    destruct videoDataChannel0 as [[? []]|], videoInterval0, videoElement0,
      isViewingVideo0, videoPeerConnection0, videoWsConnection0, isSendingVideo0;
      try discriminate Hh; reflexivity.
  - destruct s, env. unfold linkHeldWhileActive.
    cbn [Sdk.videoWsConnection Sdk.videoPeerConnection Sdk.videoDataChannel
         Sdk.isSendingVideo Sdk.isViewingVideo].
    intros Hh.
    destruct isViewingVideo0, videoWsConnection0 as [[? []]|],
      videoPeerConnection0, videoDataChannel0 as [[? []]|], videoChannelOpens0,
      isSendingVideo0; try discriminate Hh; reflexivity.
  - intros Hh. destruct (stopViewingVideo_run s) as (s' & E & H). rewrite E.
    cbn [final fst snd]. decompose [and] H.
    unfold legFlags in *. unfold linkHeldWhileActive in Hh |- *.
    match goal with H : (_, _, _, _) = _ |- _ => injection H as _ _ Hsv Hvv end.
    rewrite Hsv, Hvv.
    destruct (isSendingVideo s); [reflexivity|].
    match goal with H : _ /\ _ /\ _ |- _ => destruct H as (-> & -> & ->) end.
    reflexivity.
  - destruct (onDataChannelMessage_final nowMs m s) as (m' & n & ->). now destruct s.
  - destruct (cleanupOldVideos_final nowMs s) as (m & ->). now destruct s.
  - destruct (sendVideoFrame_final nowMs c s) as (n & ->). now destruct s.
Qed.

Lemma sendVideoFrame_counter (nowMs : Z) (c : Capture) (s : TankRTC) :
  counterInRange s = true -> counterInRange (final (sendVideoFrame nowMs c s)) = true.
Proof.
  unfold counterInRange. intros H. apply andb_prop in H as [H0 H1].
  apply Z.leb_le in H0, H1.
  assert (Hp : (0 <=? postIncrement (videoFrameNumber s))
               && (postIncrement (videoFrameNumber s) <=? 2 ^ 53) = true).
  { unfold postIncrement. destruct (Z.ltb_spec (videoFrameNumber s) (2 ^ 53));
      apply andb_true_iff; split; apply Z.leb_le; lia. }
  assert (Hs : (0 <=? videoFrameNumber s) && (videoFrameNumber s <=? 2 ^ 53) = true)
    by (apply andb_true_iff; split; apply Z.leb_le; lia).
  destruct s, c. cbn [Sdk.videoFrameNumber] in *.
  destruct videoContext0, videoElement0, videoDataChannel0 as [[? []]|],
    hasDimensions0, drawImageThrows0, blob0, isSafari0, dataURLImage0;
    first [exact Hp | exact Hs].
Qed.

Lemma stopSendingVideo_counter (s : TankRTC) :
  videoFrameNumber (final (stopSendingVideo s)) = videoFrameNumber s.
Proof.
  destruct s.
  destruct videoDataChannel0 as [[? []]|], videoInterval0, videoElement0,
    isViewingVideo0, videoPeerConnection0, videoWsConnection0; reflexivity.
Qed.

Lemma startSendingVideo_counter (env : Env) (s : TankRTC) :
  videoFrameNumber (final (startSendingVideo env s)) = videoFrameNumber s.
Proof.
  destruct s, env.
  destruct isSendingVideo0, camera0, videoWsConnection0 as [[? []]|],
    videoPeerConnection0, videoDataChannel0 as [[? []]|], videoChannelOpens0;
    reflexivity.
Qed.

Lemma startViewingVideo_counter (env : Env) (s : TankRTC) :
  videoFrameNumber (final (startViewingVideo env s)) = videoFrameNumber s.
Proof.
  destruct s, env.
  destruct isViewingVideo0, videoWsConnection0 as [[? []]|],
    videoPeerConnection0, videoDataChannel0 as [[? []]|], videoChannelOpens0;
    reflexivity.
Qed.

Lemma stopViewingVideo_counter (s : TankRTC) :
  videoFrameNumber (final (stopViewingVideo s)) = videoFrameNumber s.
Proof.
  destruct s. unfold stopViewingVideo, closeVideoConnectionIfUnused. run. cbn.
  destruct videoCleanupInterval0; cbn; rewrite !emitAll_run; cbn;
    destruct isSendingVideo0; cbn;
    destruct videoPeerConnection0, videoWsConnection0; reflexivity.
Qed.

Lemma cleanupSafariAudio_counter (closeContext : bool) (s : TankRTC) :
  videoFrameNumber (final (cleanupSafariAudio closeContext s)) = videoFrameNumber s.
Proof.
  destruct s.
  destruct safariAudioContext0, isSafari0, closeContext, isSendingAudio0, isListeningAudio0;
    reflexivity.
Qed.

Lemma final_eq {A} (r : Completion A * TankRTC * list Event) (c : Completion A)
      (s : TankRTC) (t : list Event) :
  r = (c, s, t) -> s = final r.
Proof. now intros ->. Qed.

Lemma disconnect_counter (s : TankRTC) :
  videoFrameNumber (final (disconnect s)) = videoFrameNumber s.
Proof.
  destruct (stopSendingAudio_step s) as (s1 & t1 & E1 & _).
  destruct (stopListeningAudio_step s1) as (s2 & t2 & E2 & _).
  destruct (stopSendingVideo_step s2) as (s3 & t3 & E3 & _).
  destruct (stopViewingVideo_run s3) as (s4 & E4 & _ & R4 & _).
  destruct (cleanupSafariAudio_step true s4) as (s5 & t5 & E5 & H5).
  assert (R5 : receivedVideos s5 = []) by (decompose [and] H5; congruence).
  destruct (disconnect_tail s5 R5) as (s6 & t6 & E6 & _).
  assert (N1 : videoFrameNumber s1 = videoFrameNumber s).
  { rewrite (final_eq _ _ _ _ E1).
    pose proof (stopSendingAudio_videoSide s) as V. unfold videoSide in V.
    now injection V. }
  assert (N2 : videoFrameNumber s2 = videoFrameNumber s1).
  { rewrite (final_eq _ _ _ _ E2).
    pose proof (stopListeningAudio_videoSide s1) as V. unfold videoSide in V.
    now injection V. }
  assert (N3 : videoFrameNumber s3 = videoFrameNumber s2)
    by (rewrite (final_eq _ _ _ _ E3); apply stopSendingVideo_counter).
  assert (N4 : videoFrameNumber s4 = videoFrameNumber s3)
    by (rewrite (final_eq _ _ _ _ E4); apply stopViewingVideo_counter).
  assert (N5 : videoFrameNumber s5 = videoFrameNumber s4)
    by (rewrite (final_eq _ _ _ _ E5); apply cleanupSafariAudio_counter).
  assert (N6 : videoFrameNumber s6 = videoFrameNumber s5).
  { clear - E6 R5. destruct s5. cbn [Sdk.receivedVideos] in R5. subst.
    revert E6. run. cbn.
    destruct audioWsConnection0, videoWsConnection0, audioPeerConnection0,
      videoPeerConnection0; cbn; intros [= <- _]; reflexivity. }
  unfold disconnect.
  rewrite (bind_run _ _ _ _ _ _ E1), (bind_run _ _ _ _ _ _ E2),
    (bind_run _ _ _ _ _ _ E3), (bind_run _ _ _ _ _ _ E4), (bind_run _ _ _ _ _ _ E5).
  rewrite E6. cbn [final fst snd]. congruence.
Qed.

Lemma after_counter_invariant (c : Call) (s : TankRTC) :
  counterInRange s = true -> counterInRange (after c s) = true.
Proof.
  assert (Hn : forall s', videoFrameNumber s' = videoFrameNumber s ->
            counterInRange s = true -> counterInRange s' = true).
  { intros s' E. unfold counterInRange. now rewrite E. }
  assert (Hside : forall s', videoSide s' = videoSide s ->
            counterInRange s = true -> counterInRange s' = true).
  { intros s' E. apply Hn. unfold videoSide in E. now injection E. }
  destruct c as [| |env| |env| |env| |env| |nowMs m|nowMs|nowMs c]; cbn [after].
  - apply Hn. now destruct s.
  - apply Hn, disconnect_counter.
  - apply Hside, startSendingAudio_videoSide.
  - apply Hside, stopSendingAudio_videoSide.
  - apply Hside, startListeningAudio_videoSide.
  - apply Hside, stopListeningAudio_videoSide.
  - apply Hn, startSendingVideo_counter.
  - apply Hn, stopSendingVideo_counter.
  - apply Hn, startViewingVideo_counter.
  - apply Hn, stopViewingVideo_counter.
  - destruct (onDataChannelMessage_final nowMs m s) as (m' & n & ->). now destruct s.
  - destruct (cleanupOldVideos_final nowMs s) as (m & ->). now destruct s.
  - apply sendVideoFrame_counter.
Qed.

(** From its construction on, and whatever is called on it, an object
    holds a video link only under a video flag, and its frame counter is
    an integer from 0 to 2^53. *)
Lemma afterAll_link_counter (history : list Call) (s : TankRTC) :
  linkHeldWhileActive s = true /\ counterInRange s = true ->
  linkHeldWhileActive (afterAll history s) = true
  /\ counterInRange (afterAll history s) = true.
Proof.
  revert s. induction history as [|c history IH]; intros s H; [exact H|].
  unfold afterAll. cbn [fold_left]. apply IH.
  split; [now apply after_link_invariant|now apply after_counter_invariant].
Qed.

Lemma new_object_link_counter
      (history : list Call) (id : JSString) (cfg : Config) (safari : bool) :
  linkHeldWhileActive (afterAll history (newTankRTC id cfg safari)) = true
  /\ 0 <= videoFrameNumber (afterAll history (newTankRTC id cfg safari)) <= 2 ^ 53.
Proof.
  destruct (afterAll_link_counter history (newTankRTC id cfg safari)) as [Hl Hc];
    [split; reflexivity|].
  split; [exact Hl|]. unfold counterInRange in Hc.
  apply andb_prop in Hc as [H0 H1]. apply Z.leb_le in H0, H1. lia.
Qed.

(** X25: a stop that falls inside a pending start.  With the send-video
    leg active on a ready link, [startViewingVideo] sets its flag and gives
    the control back at its first [await]; a [stopViewingVideo] that runs
    then clears the flag; when the start is resumed it does not look at the
    flag again: it starts the sweep timer and reports the leg as active.
    The object then holds a sweep timer under a cleared flag, which no
    history of settled calls gives, and the last state change reported is
    [viewing, true]. *)
Theorem stop_inside_pending_start (env : Env) (s : TankRTC) :
  isViewingVideo s = false -> isSendingVideo s = true ->
  isVideoConnectionReady s = true ->
  let begun := startViewingVideo_begin s in
  let stopped := stopViewingVideo (final begun) in
  let resumed := startViewingVideo_resume env (final stopped) in
  completion begun = Normal true
  /\ isViewingVideo (final begun) = true
  /\ completion resumed = Normal tt
  /\ isViewingVideo (final resumed) = false
  /\ videoCleanupInterval (final resumed) = Some (nextHandle s)
  /\ heldWhileActive (final resumed) = false
  /\ filter isStateChange (trace stopped ++ trace resumed)
     = [OnVideoStateChange viewing false; OnVideoStateChange viewing true].
Proof.
  destruct s, env. unfold isVideoConnectionReady.
  cbn [Sdk.isViewingVideo Sdk.isSendingVideo Sdk.videoWsConnection
       Sdk.videoPeerConnection Sdk.videoDataChannel Sdk.nextHandle].
  intros -> -> Hr.
  destruct videoWsConnection0 as [[? []]|]; try discriminate Hr;
    destruct videoPeerConnection0; try discriminate Hr;
    destruct videoDataChannel0 as [[? []]|]; try discriminate Hr.
  cbv zeta. unfold startViewingVideo_begin, stopViewingVideo, startViewingVideo_resume,
    initializeVideoConnection, waitForVideoDataChannel, closeVideoConnectionIfUnused,
    isVideoConnectionReady, heldWhileActive.
  run. cbn.
  destruct videoCleanupInterval0; cbn; rewrite !emitAll_run; cbn;
    rewrite !filter_app,
      (filter_map_none isStateChange
         (fun e : JSString * VideoEntry => OnVideoSourceRemove (fst e))),
      (filter_map_none isStateChange
         (fun e : JSString * VideoEntry => RevokeObjectURL (url (snd e))))
      by reflexivity;
    cbn; rewrite ?andb_false_r; repeat split; reflexivity.
Qed.

Lemma stop_inside_pending_start_witness :
  isViewingVideo
    (final (startViewingVideo_resume allGood
              (final (stopViewingVideo (final (startViewingVideo_begin sendingVideo))))))
  = false
  /\ videoCleanupInterval
       (final (startViewingVideo_resume allGood
                 (final (stopViewingVideo (final (startViewingVideo_begin sendingVideo))))))
     = Some (nextHandle sendingVideo).
Proof.
  assert (I : isViewingVideo sendingVideo = false) by (vm_compute; reflexivity).
  assert (J : isSendingVideo sendingVideo = true) by (vm_compute; reflexivity).
  assert (R : isVideoConnectionReady sendingVideo = true) by (vm_compute; reflexivity).
  destruct (stop_inside_pending_start allGood sendingVideo I J R)
    as (_ & _ & _ & Hv & Ht & _).
  exact (conj Hv Ht).
Defined.

End LifeFacts.
